(** * Harbor core middlewares: utilities ([src/core/middlewares/util/util.go])

    A shallow embedding of the request matchers, the manifest parsers, the
    memoised metadata resolvers, the mutex-key derivation and the policy
    checker of package [util], together with the properties the
    specification states about them.

    Go strings are byte strings: they are modelled by [string] (one [ascii]
    per byte).  A Go [error] value is modelled by [option error], [None]
    being [nil]. *)

From Stdlib Require Import String Ascii List Bool Arith ZArith Lia.
Import ListNotations.
Local Open Scope string_scope.

(** ** Package [strings] of the Go library *)
Module Strings.

(** [strings.Join(elems, sep)]: the elements in order, [sep] between two
    consecutive ones. *)
Fixpoint Join (elems : list string) (sep : string) : string :=
  match elems with
  | [] => ""
  | [e] => e
  | e :: rest => e ++ sep ++ Join rest sep
  end.

(** [strings.HasSuffix(s, suffix)]. *)
Definition HasSuffix (s suffix : string) : bool :=
  Nat.leb (String.length suffix) (String.length s)
  && String.eqb (substring (String.length s - String.length suffix)
                           (String.length suffix) s) suffix.

(** [strings.TrimSuffix(s, suffix)]: [s] without the trailing [suffix], or
    [s] itself when it does not end with it. *)
Definition TrimSuffix (s suffix : string) : string :=
  if HasSuffix s suffix
  then substring 0 (String.length s - String.length suffix) s
  else s.

End Strings.

(** ** Package [regexp] of the Go library

    The fragment of the syntax the package compiles [manifestURLRe] from, and
    a backtracking matcher.  Go's matching is leftmost-first: of the matches
    that start earliest it returns the one a backtracking search finds first,
    which is what [backtrack] computes. *)
Module Regexp.

Inductive Regexp : Type :=
| EmptyMatch                              (* matches the empty string *)
| BeginText                               (* ^ : at the beginning of the text *)
| CharClass (p : ascii -> bool)           (* one byte of a class *)
| Concat (r1 r2 : Regexp)                 (* r1 r2 *)
| Alternate (r1 r2 : Regexp)              (* r1 | r2, r1 preferred *)
| Star (r : Regexp)                       (* r*, greedy *)
| Capture (i : nat) (r : Regexp).         (* the i-th parenthesised group *)

(** A literal string: its bytes one after the other. *)
Fixpoint Literal (s : string) : Regexp :=
  match s with
  | EmptyString => EmptyMatch
  | String a s' => Concat (CharClass (Ascii.eqb a)) (Literal s')
  end.

(** [r+] is [r r*]; [r?] is [r |] (greedy); [r{0,n}] is the nesting
    [(r(r(...)?)?)?] of [n] optional copies. *)
Definition Plus (r : Regexp) : Regexp := Concat r (Star r).
Definition Quest (r : Regexp) : Regexp := Alternate r EmptyMatch.
Fixpoint AtMost (n : nat) (r : Regexp) : Regexp :=
  match n with
  | O => EmptyMatch
  | S n' => Quest (Concat r (AtMost n' r))
  end.

(** The capture registers: for each group the byte offsets where its last
    match begins and ends. *)
Definition Caps : Type := nat -> option (nat * nat).
Definition no_caps : Caps := fun _ => None.
Definition set_cap (i : nat) (span : nat * nat) (c : Caps) : Caps :=
  fun j => if Nat.eqb j i then Some span else c j.

(** What remains to be matched after a sub-expression: it receives the rest
    of the text, the offset reached and the capture registers. *)
Definition Cont (R : Type) : Type := string -> nat -> Caps -> option R.

(** The loop of a greedy star: one more iteration of [body] is tried first,
    leaving the loop comes second.  An iteration has to consume input, so
    [fuel], the length of the text left at the entry of the star, bounds
    the number of iterations. *)
Fixpoint star_loop {R : Type}
    (body : string -> nat -> Caps -> Cont R -> option R) (k : Cont R)
    (fuel : nat) (s : string) (pos : nat) (c : Caps) : option R :=
  match fuel with
  | O => k s pos c
  | S fuel' =>
      match body s pos c
              (fun s' pos' c' =>
                 if Nat.ltb pos pos' then star_loop body k fuel' s' pos' c'
                 else None) with
      | Some res => Some res
      | None => k s pos c
      end
  end.

(** [backtrack r s pos c k]: match [r] at offset [pos], where [s] is the text
    from [pos] on, then continue with [k]; the first success in preference
    order is returned. *)
Fixpoint backtrack {R : Type} (r : Regexp) (s : string) (pos : nat) (c : Caps)
    (k : Cont R) {struct r} : option R :=
  match r with
  | EmptyMatch => k s pos c
  | BeginText => if Nat.eqb pos 0 then k s pos c else None
  | CharClass p =>
      match s with
      | String a s' => if p a then k s' (S pos) c else None
      | EmptyString => None
      end
  | Concat r1 r2 =>
      backtrack r1 s pos c (fun s' pos' c' => backtrack r2 s' pos' c' k)
  | Alternate r1 r2 =>
      match backtrack r1 s pos c k with
      | Some res => Some res
      | None => backtrack r2 s pos c k
      end
  | Star r1 => star_loop (backtrack r1) k (String.length s) s pos c
  | Capture i r1 =>
      backtrack r1 s pos c
        (fun s' pos' c' => k s' pos' (set_cap i (pos, pos') c'))
  end.

(** The unanchored search: the leftmost offset where the expression
    matches; group 0 is the whole match. *)
Fixpoint search (re : Regexp) (s : string) (pos : nat) : option Caps :=
  match backtrack re s pos no_caps
          (fun _ pos' c' => Some (set_cap 0 (pos, pos') c')) with
  | Some c => Some c
  | None =>
      match s with
      | EmptyString => None
      | String _ s' => search re s' (S pos)
      end
  end.

(** The text of a group: the bytes between its offsets, or the empty string
    for a group that took no part in the match. *)
Definition group (input : string) (c : Caps) (i : nat) : string :=
  match c i with
  | Some (b, e) => substring b (e - b) input
  | None => ""
  end.

(** [re.FindStringSubmatch(input)] for an expression with [numSubexp]
    groups: [nil] when there is no match, else the text of the match followed
    by the texts of the groups. *)
Definition FindStringSubmatch (re : Regexp) (numSubexp : nat)
    (input : string) : list string :=
  match search re input 0 with
  | None => []
  | Some c => map (group input c) (seq 0 (S numSubexp))
  end.

(** *** What the matcher computes, as relations

    [Lang r w]: the string [w] is matched by the expression [r], for an
    expression without anchors and groups. *)
Inductive Lang : Regexp -> string -> Prop :=
| Lang_EmptyMatch : Lang EmptyMatch ""
| Lang_CharClass p a : p a = true -> Lang (CharClass p) (String a "")
| Lang_Concat r1 r2 w1 w2 :
    Lang r1 w1 -> Lang r2 w2 -> Lang (Concat r1 r2) (w1 ++ w2)
| Lang_Alternate_l r1 r2 w : Lang r1 w -> Lang (Alternate r1 r2) w
| Lang_Alternate_r r1 r2 w : Lang r2 w -> Lang (Alternate r1 r2) w
| Lang_Star_exit r : Lang (Star r) ""
| Lang_Star_iter r w1 w2 :
    Lang r w1 -> w1 <> "" -> Lang (Star r) w2 -> Lang (Star r) (w1 ++ w2).

(** [Run r s pos c s' pos' c']: one way through [r] from offset [pos], with
    [s] left to read and the registers [c], ends at offset [pos'] with [s']
    left and the registers [c']. *)
Inductive Run : Regexp -> string -> nat -> Caps -> string -> nat -> Caps -> Prop :=
| Run_EmptyMatch s pos c : Run EmptyMatch s pos c s pos c
| Run_BeginText s c : Run BeginText s 0 c s 0 c
| Run_CharClass p a s pos c :
    p a = true -> Run (CharClass p) (String a s) pos c s (S pos) c
| Run_Concat r1 r2 s pos c s1 pos1 c1 s2 pos2 c2 :
    Run r1 s pos c s1 pos1 c1 -> Run r2 s1 pos1 c1 s2 pos2 c2 ->
    Run (Concat r1 r2) s pos c s2 pos2 c2
| Run_Alternate_l r1 r2 s pos c s' pos' c' :
    Run r1 s pos c s' pos' c' -> Run (Alternate r1 r2) s pos c s' pos' c'
| Run_Alternate_r r1 r2 s pos c s' pos' c' :
    Run r2 s pos c s' pos' c' -> Run (Alternate r1 r2) s pos c s' pos' c'
| Run_Star_exit r s pos c : Run (Star r) s pos c s pos c
| Run_Star_iter r s pos c s1 pos1 c1 s2 pos2 c2 :
    Run r s pos c s1 pos1 c1 -> pos < pos1 ->
    Run (Star r) s1 pos1 c1 s2 pos2 c2 ->
    Run (Star r) s pos c s2 pos2 c2
| Run_Capture i r s pos c s' pos' c' :
    Run r s pos c s' pos' c' ->
    Run (Capture i r) s pos c s' pos' (set_cap i (pos, pos') c').

(** An expression without anchors and groups. *)
Fixpoint plain (r : Regexp) : bool :=
  match r with
  | EmptyMatch | CharClass _ => true
  | BeginText | Capture _ _ => false
  | Concat r1 r2 | Alternate r1 r2 => plain r1 && plain r2
  | Star r1 => plain r1
  end.

End Regexp.

(** ** The collaborators of package [util]

    The Go library and the packages of Harbor and of its dependencies that
    [util.go] imports.  What they compute is outside this file: each is an
    interface whose operations are parameters of the development. *)

(** Go's [error] values.  [Errorf] is [fmt.Errorf] with the formatted
    message; [Foreign] is an error value made elsewhere. *)
Inductive error : Type :=
| Errorf (msg : string)
| Foreign (id : nat) (msg : string).

Definition error_Error (e : error) : string :=
  match e with Errorf msg => msg | Foreign _ msg => msg end.

Definition error_eqb (e1 e2 : error) : bool :=
  match e1, e2 with
  | Errorf m1, Errorf m2 => String.eqb m1 m2
  | Foreign i1 m1, Foreign i2 m2 => Nat.eqb i1 i2 && String.eqb m1 m2
  | _, _ => false
  end.

(** The two results [(v, err)] of a Go function that fails with [(nil, err)]. *)
Inductive result (A : Type) : Type :=
| Ok (v : A)
| Err (e : error).
Arguments Ok {A} v.
Arguments Err {A} e.

(** A call that returns or panics (a [nil] pointer dereference). *)
Inductive outcome (A : Type) : Type :=
| Return (v : A)
| Panic.
Arguments Return {A} v.
Arguments Panic {A}.

(** [time.Time]: an instant; [0] is the zero time. *)
Definition Time : Type := Z.
Bind Scope Z_scope with Time.

(** Package [github.com/opencontainers/go-digest]: [Parse(s)] returns [s]
    as a [Digest] together with the verdict of its validation; the
    [String()] of a [Digest] is the string itself. *)
Class Digest := { digest_Validate : string -> option error }.

Definition digest_Parse `{Digest} (s : string) : string * option error :=
  (s, digest_Validate s).

(** [distribution.Descriptor] and [ocispec.Descriptor] have the same
    fields. *)
Module Descriptor.
Record t (Platform : Type) : Type := mk {
  MediaType : string;
  Size : Z;
  Digest : string;
  URLs : list string;
  Annotations : list (string * string);
  Platform_ : option Platform
}.
Arguments mk {Platform}.
Arguments MediaType {Platform}.
Arguments Size {Platform}.
Arguments Digest {Platform}.
Arguments URLs {Platform}.
Arguments Annotations {Platform}.
Arguments Platform_ {Platform}.

(** The zero value of the struct. *)
Definition zero {Platform : Type} : t Platform :=
  mk "" 0%Z "" [] [] None.
End Descriptor.

(** Packages [ocispec] and [encoding/json]: the platform of a descriptor,
    the part of a manifest document this package reads, and the two
    decodings of a body. *)
Class OCI := {
  Platform : Type;
  Manifest : Type;
  Manifest_Layers : Manifest -> list (Descriptor.t Platform);
  json_Unmarshal_Manifest : list Byte.byte -> result Manifest;
  json_Unmarshal_Descriptor : list Byte.byte -> result (Descriptor.t Platform)
}.

(** Package [models]. *)
Module Artifact.
Record t : Type := mk {
  ID : Z;
  PID : Z;
  Repo : string;
  Tag : string;
  Digest : string;
  Kind : string;
  PushTime : Time;
  PullTime : Time;
  CreationTime : Time
}.
End Artifact.

Module ArtifactQuery.
Record t : Type := mk { PID : Z; Digest : string }.
End ArtifactQuery.

Module Blob.
Record t : Type := mk {
  ID : Z;
  Digest : string;
  ContentType : string;
  Size : Z;
  CreationTime : Time
}.
End Blob.

(** [models.Project], [models.Severity], [models.CVEWhitelist], with the
    methods and constants the policy checker uses, and
    [clair.ParseClairSev]. *)
Class Models := {
  Project : Type;
  Project_ProjectID : Project -> Z;
  Project_ContentTrustEnabled : Project -> bool;
  Project_VulPrevented : Project -> bool;
  Project_Severity : Project -> string;
  Project_ReuseSysCVEWhitelist : Project -> bool;
  Severity : Type;
  SevUnknown : Severity;
  clair_ParseClairSev : string -> Severity;
  CVEWhitelist : Type;
  CVEWhitelist_zero : CVEWhitelist
}.

(** Package [dao], the backing store: each query answers from the state of
    the store and may change it. *)
Class DAO `{OCI} `{Models} := {
  DB : Type;
  ErrDupRows : error;
  store_HasBlobInProject : Z -> string -> DB -> (bool * option error) * DB;
  store_GetArtifact :
    string -> string -> DB -> (option Artifact.t * option error) * DB;
  store_GetTotalOfArtifacts :
    ArtifactQuery.t -> DB -> (Z * option error) * DB;
  store_SyncBlobs : list (Descriptor.t Platform) -> DB -> option error * DB;
  store_GetBlobsNotInProject :
    Z -> list string -> DB -> (list Blob.t * option error) * DB;
  store_GetProjectByName :
    string -> DB -> (option Project * option error) * DB
}.

(** The queries sent to the backing store. *)
Inductive Query `{OCI} : Type :=
| Q_HasBlobInProject (projectID : Z) (digest : string)
| Q_GetArtifact (repo tag : string)
| Q_GetTotalOfArtifacts (query : ArtifactQuery.t)
| Q_SyncBlobs (references : list (Descriptor.t Platform))
| Q_GetBlobsNotInProject (projectID : Z) (digests : list string)
| Q_GetProjectByName (name : string).

(** The world a request is served in: the backing store, the clock, and the
    journal of the queries the store has received (a ghost record, oldest
    first). *)
Record World `{DAO} : Type := mkWorld {
  store : DB;
  clock : Time;
  journal : list Query
}.

(** Computations in the world. *)
Definition M `{DAO} (A : Type) : Type := World -> A * World.

Definition ret `{DAO} {A : Type} (a : A) : M A := fun w => (a, w).

Definition bind `{DAO} {A B : Type} (m : M A) (f : A -> M B) : M B :=
  fun w => let (a, w') := m w in f a w'.

Declare Scope world_scope.
Delimit Scope world_scope with world.
Notation "x <- m ;; k" := (bind m (fun x => k))
  (at level 61, m at next level, right associativity) : world_scope.
Notation "' pat <- m ;; k" := (bind m (fun x => match x with pat => k end))
  (at level 61, pat pattern, m at next level, right associativity) : world_scope.

(** A query: the store answers and the journal grows by one entry. *)
Definition query `{DAO} {A : Type} (q : Query) (ask : DB -> A * DB) : M A :=
  fun w =>
    let (a, db) := ask (store w) in
    (a, {| store := db; clock := clock w; journal := journal w ++ [q] |}).

Module dao.
Definition HasBlobInProject `{DAO} (projectID : Z) (digest : string) :=
  query (Q_HasBlobInProject projectID digest)
        (store_HasBlobInProject projectID digest).
Definition GetArtifact `{DAO} (repo tag : string) :=
  query (Q_GetArtifact repo tag) (store_GetArtifact repo tag).
Definition GetTotalOfArtifacts `{DAO} (q : ArtifactQuery.t) :=
  query (Q_GetTotalOfArtifacts q) (store_GetTotalOfArtifacts q).
Definition SyncBlobs `{DAO} (references : list (Descriptor.t Platform)) :=
  query (Q_SyncBlobs references) (store_SyncBlobs references).
Definition GetBlobsNotInProject `{DAO} (projectID : Z) (digests : list string) :=
  query (Q_GetBlobsNotInProject projectID digests)
        (store_GetBlobsNotInProject projectID digests).
Definition GetProjectByName `{DAO} (name : string) :=
  query (Q_GetProjectByName name) (store_GetProjectByName name).
End dao.

(** [time.Now()]. *)
Definition time_Now `{DAO} : M Time := fun w => (clock w, w).

(** Package [sync]: [Once.Do(f)] runs [f] on the first call only. *)
Module sync.
Record Once : Type := mkOnce { done : bool }.

Definition Do {S : Type} (o : Once) (f : S -> S) (s : S) : Once * S :=
  if done o then (o, s) else (mkOnce true, f s).
End sync.

(** Packages [io], [io/ioutil], [bytes]: a reader yields the bytes it holds,
    then fails with its failure or ends.  What a later read finds is the
    reader's own affair: a reader may go on as another reader ([next]), and
    is at its end otherwise.  [ReadAll] reads up to the failure or the end. *)
Module ioutil.
#[warnings="-register-all"] Inductive Reader : Type := mkReader {
  pending : list Byte.byte;
  failure : option error;
  next : option Reader
}.

(** A reader at its end. *)
Definition exhausted : Reader :=
  {| pending := []; failure := None; next := None |}.

Definition ReadAll (r : Reader) : (list Byte.byte * option error) * Reader :=
  ((pending r, failure r),
   match next r with
   | Some r' => r'
   | None => exhausted
   end).

(** [ioutil.NopCloser(bytes.NewBuffer(body))] *)
Definition NopCloser_NewBuffer (body : list Byte.byte) : Reader :=
  {| pending := body; failure := None; next := None |}.
End ioutil.

(** Package [net/http]. *)
Module http.
Definition MethodGet : string := "GET".
Definition MethodPut : string := "PUT".
Definition MethodDelete : string := "DELETE".

(** A header maps a canonical key to its values. *)
Definition Header : Type := string -> list string.
Definition Header_Get (h : Header) (key : string) : string :=
  match h key with
  | [] => ""
  | v :: _ => v
  end.

Record Request : Type := mkRequest {
  Method : string;
  URL_Path : string;
  Header_ : Header;
  Body : option ioutil.Reader
}.

Definition set_Body (req : Request) (body : option ioutil.Reader) : Request :=
  {| Method := Method req; URL_Path := URL_Path req;
     Header_ := Header_ req; Body := body |}.
End http.

(** The media types of the manifest packages. *)
Definition schema1_MediaTypeManifest : string :=
  "application/vnd.docker.distribution.manifest.v1+json".
Definition schema1_MediaTypeSignedManifest : string :=
  "application/vnd.docker.distribution.manifest.v1+prettyjws".
Definition schema2_MediaTypeManifest : string :=
  "application/vnd.docker.distribution.manifest.v2+json".
Definition ocispec_MediaTypeImageManifest : string :=
  "application/vnd.oci.image.manifest.v1+json".

(** Package [promgr]: the project manager. *)
Class ProjectManager `{Models} := {
  pm_Get : string -> option Project * option error
}.

(** Package [whitelist]: the default manager. *)
Class WhitelistManager `{Models} := {
  mgr_GetSys : option CVEWhitelist * option error;
  mgr_Get : Z -> option CVEWhitelist * option error
}.

(** Package [utils] of Harbor. *)
Module utils.

(** The first slash of a string cuts it in two. *)
Fixpoint cut_at_slash (s : string) : option (string * string) :=
  match s with
  | EmptyString => None
  | String a s' =>
      if Ascii.eqb a "/" then Some ("", s')
      else match cut_at_slash s' with
           | Some (before, after) => Some (String a before, after)
           | None => None
           end
  end.

(** Modelled from the spec: [utils.ParseRepository], which is not among the
    sources.  The owning project of a repository is "the project-name prefix
    [of] the repository path": what comes before the first slash is the
    project name, what comes after is the rest.  A repository without a
    slash has no such prefix: its project name is empty. *)
Definition ParseRepository (repository : string) : string * string :=
  match cut_at_slash repository with
  | Some (project, rest) => (project, rest)
  | None => ("", repository)
  end.

End utils.

(** ** Package [util] *)

(** The character classes of [manifestURLRe]. *)
Definition in_range (lo hi a : ascii) : bool :=
  Nat.leb (nat_of_ascii lo) (nat_of_ascii a)
  && Nat.leb (nat_of_ascii a) (nat_of_ascii hi).

(** [[a-z0-9]] *)
Definition lower_alnum (a : ascii) : bool :=
  in_range "a" "z" a || in_range "0" "9" a.

(** [[._-]] *)
Definition separator (a : ascii) : bool :=
  Ascii.eqb a "." || Ascii.eqb a "_" || Ascii.eqb a "-".

(** [\w], that is [[0-9A-Za-z_]] *)
Definition word (a : ascii) : bool :=
  in_range "0" "9" a || in_range "A" "Z" a || in_range "a" "z" a
  || Ascii.eqb a "_".

(** [[\w.:-]] *)
Definition word_dot_colon_dash (a : ascii) : bool :=
  word a || Ascii.eqb a "." || Ascii.eqb a ":" || Ascii.eqb a "-".

(** [[a-z0-9]+(?:[._-][a-z0-9]+)*] *)
Definition nameComponentRe : Regexp.Regexp :=
  Regexp.Concat
    (Regexp.Plus (Regexp.CharClass lower_alnum))
    (Regexp.Star (Regexp.Concat (Regexp.CharClass separator)
                                (Regexp.Plus (Regexp.CharClass lower_alnum)))).

(** [(?:[a-z0-9]+(?:[._-][a-z0-9]+)*/)] *)
Definition componentRe : Regexp.Regexp :=
  Regexp.Concat nameComponentRe (Regexp.Literal "/").

(** [(?:[a-z0-9]+(?:[._-][a-z0-9]+)*/)+] *)
Definition repoPathRe : Regexp.Regexp := Regexp.Plus componentRe.

(** [[\w][\w.:-]{0,127}] *)
Definition referenceRe : Regexp.Regexp :=
  Regexp.Concat (Regexp.CharClass word)
                (Regexp.AtMost 127 (Regexp.CharClass word_dot_colon_dash)).

(** [manifestURLRe =
      ^/v2/((?:[a-z0-9]+(?:[._-][a-z0-9]+)*/)+)manifests/([\w][\w.:-]{0,127})] *)
Definition manifestURLRe : Regexp.Regexp :=
  Regexp.Concat Regexp.BeginText
    (Regexp.Concat (Regexp.Literal "/v2/")
       (Regexp.Concat (Regexp.Capture 1 repoPathRe)
          (Regexp.Concat (Regexp.Literal "manifests/")
             (Regexp.Capture 2 referenceRe)))).

(** The registers after a match whose repository group is [rp] and whose
    reference reaches the offset [pos']. *)
Definition registers (rp : string) (pos' : nat) (c : Regexp.Caps)
  : Regexp.Caps :=
  Regexp.set_cap 2 (4 + String.length rp + 10, pos')
    (Regexp.set_cap 1 (4, 4 + String.length rp) c).

Module ChartVersionInfo.
Record t : Type := mk {
  ProjectID : Z;
  Namespace : string;
  ChartName : string;
  Version : string
}.

Definition MutexKey (info : t) (suffix : list string) : string :=
  let a := ["quota"; Namespace info; "chart"; ChartName info;
            "version"; Version info] in
  Strings.Join (a ++ suffix) ":".
End ChartVersionInfo.

Module ImageInfo.
Record t : Type := mk {
  Repository : string;
  Reference : string;
  ProjectName : string;
  Digest : string
}.
End ImageInfo.

Module BlobInfo.
Record t : Type := mk {
  ProjectID : Z;
  ContentType : string;
  Size : Z;
  Repository : string;
  Digest : string;
  blobExist : bool;
  blobExistErr : option error;
  blobExistOnce : sync.Once
}.

(** The struct literal [BlobInfo{...}] of another package: the unexported
    fields have their zero values. *)
Definition new (projectID : Z) (contentType : string) (size : Z)
    (repository digest : string) : t :=
  mk projectID contentType size repository digest false None (sync.mkOnce false).

Definition set_blobExist (info : t) (r : bool * option error) : t :=
  mk (ProjectID info) (ContentType info) (Size info) (Repository info)
     (Digest info) (fst r) (snd r) (blobExistOnce info).

Definition set_blobExistOnce (info : t) (o : sync.Once) : t :=
  mk (ProjectID info) (ContentType info) (Size info) (Repository info)
     (Digest info) (blobExist info) (blobExistErr info) o.

(** [BlobExists]: the results, and the receiver after the call. *)
Definition BlobExists `{DAO} (info : t) : M ((bool * option error) * t) :=
  fun w =>
    let (once, iw) :=
      sync.Do (blobExistOnce info)
        (fun '(info, w) =>
           let (r, w') := dao.HasBlobInProject (ProjectID info) (Digest info) w in
           (set_blobExist info r, w'))
        (info, w) in
    let info' := set_blobExistOnce (fst iw) once in
    (((blobExist info', blobExistErr info'), info'), snd iw).

Definition MutexKey (info : t) (suffix : list string) : string :=
  let (projectName, _) := utils.ParseRepository (Repository info) in
  let a := ["quota"; projectName; "blob"; Digest info] in
  Strings.Join (a ++ suffix) ":".
End BlobInfo.

Module ManifestInfo.
Section WithCollaborators.
Context `{DAO}.

Record t : Type := mk {
  ProjectID : Z;
  Repository : string;
  Tag : string;
  Digest : string;
  References : list (Descriptor.t Platform);
  Descriptor_ : Descriptor.t Platform;
  manifestExist : bool;
  manifestExistErr : option error;
  manifestExistOnce : sync.Once;
  artifact : option Artifact.t;
  artifactErr : option error;
  artifactOnce : sync.Once;
  ExclusiveBlobs : list Blob.t
}.

(** The struct literals of the two parsers: the fields they do not name have
    their zero values. *)
Definition new (projectID : Z) (repository tag digest : string)
    (references : list (Descriptor.t Platform))
    (descriptor : Descriptor.t Platform) : t :=
  mk projectID repository tag digest references descriptor
     false None (sync.mkOnce false) None None (sync.mkOnce false) [].

Definition set_manifestExist (info : t) (r : bool * option error) : t :=
  mk (ProjectID info) (Repository info) (Tag info) (Digest info)
     (References info) (Descriptor_ info)
     (fst r) (snd r) (manifestExistOnce info)
     (artifact info) (artifactErr info) (artifactOnce info)
     (ExclusiveBlobs info).

Definition set_manifestExistOnce (info : t) (o : sync.Once) : t :=
  mk (ProjectID info) (Repository info) (Tag info) (Digest info)
     (References info) (Descriptor_ info)
     (manifestExist info) (manifestExistErr info) o
     (artifact info) (artifactErr info) (artifactOnce info)
     (ExclusiveBlobs info).

Definition set_artifact (info : t) (r : option Artifact.t * option error) : t :=
  mk (ProjectID info) (Repository info) (Tag info) (Digest info)
     (References info) (Descriptor_ info)
     (manifestExist info) (manifestExistErr info) (manifestExistOnce info)
     (fst r) (snd r) (artifactOnce info)
     (ExclusiveBlobs info).

Definition set_artifactOnce (info : t) (o : sync.Once) : t :=
  mk (ProjectID info) (Repository info) (Tag info) (Digest info)
     (References info) (Descriptor_ info)
     (manifestExist info) (manifestExistErr info) (manifestExistOnce info)
     (artifact info) (artifactErr info) o
     (ExclusiveBlobs info).

Definition MutexKey (info : t) (suffix : list string) : string :=
  let (projectName, _) := utils.ParseRepository (Repository info) in
  let a :=
    if negb (String.eqb (Tag info) "")
    then ["quota"; projectName; "manifest"; Tag info]
    else ["quota"; projectName; "manifest"; Digest info] in
  Strings.Join (a ++ suffix) ":".

Definition BlobMutexKey (info : t) (blob : Blob.t) (suffix : list string)
  : string :=
  let (projectName, _) := utils.ParseRepository (Repository info) in
  let a := ["quota"; projectName; "blob"; Blob.Digest blob] in
  Strings.Join (a ++ suffix) ":".

Definition SyncBlobs (info : t) : M (option error) :=
  (err <- dao.SyncBlobs (References info) ;;
   match err with
   | Some e => if error_eqb e ErrDupRows then ret None else ret err
   | None => ret err
   end)%world.

Definition GetBlobsNotInProject (info : t)
  : M (list Blob.t * option error) :=
  (let digests := map Descriptor.Digest (References info) in
   '(blobs, err) <- dao.GetBlobsNotInProject (ProjectID info) digests ;;
   match err with
   | Some _ => ret ([], err)
   | None => ret (blobs, None)
   end)%world.

Definition fetchArtifact (info : t)
  : M ((option Artifact.t * option error) * t) :=
  fun w =>
    let (once, iw) :=
      sync.Do (artifactOnce info)
        (fun '(info, w) =>
           let (r, w') := dao.GetArtifact (Repository info) (Tag info) w in
           (set_artifact info r, w'))
        (info, w) in
    let info' := set_artifactOnce (fst iw) once in
    (((artifact info', artifactErr info'), info'), snd iw).

Definition IsNewTag (info : t) : M (bool * t) :=
  ('(r, info') <- fetchArtifact info ;;
   ret (match fst r with None => true | Some _ => false end, info'))%world.

Definition Artifact_ (info : t) : M (Artifact.t * t) :=
  (let result :=
     Artifact.mk 0%Z (ProjectID info) (Repository info) (Tag info)
                 (Digest info) "Docker-Image" 0%Z 0%Z 0%Z in
   '(r, info') <- fetchArtifact info ;;
   match fst r with
   | Some artifact =>
       now <- time_Now ;;
       ret (Artifact.mk (Artifact.ID artifact) (Artifact.PID result)
              (Artifact.Repo result) (Artifact.Tag result)
              (Artifact.Digest result) (Artifact.Kind result)
              now (Artifact.PullTime result)
              (Artifact.CreationTime artifact), info')
   | None => ret (result, info')
   end)%world.

Definition ManifestExists (info : t) : M ((bool * option error) * t) :=
  fun w =>
    let (once, iw) :=
      sync.Do (manifestExistOnce info)
        (fun '(info, w) =>
           let '((total, err), w') :=
             dao.GetTotalOfArtifacts
               (ArtifactQuery.mk (ProjectID info) (Digest info)) w in
           (set_manifestExist info (Z.ltb 0 total, err), w'))
        (info, w) in
    let info' := set_manifestExistOnce (fst iw) once in
    (((manifestExist info', manifestExistErr info'), info'), snd iw).

End WithCollaborators.
End ManifestInfo.

Module Util.

Definition MatchManifestURL (req : http.Request) : bool * string * string :=
  let s := Regexp.FindStringSubmatch manifestURLRe 2 (http.URL_Path req) in
  if Nat.eqb (List.length s) 3
  then (true, Strings.TrimSuffix (nth 1 s "") "/", nth 2 s "")
  else (false, "", "").

Definition MatchPullManifest (req : http.Request) : bool * string * string :=
  if negb (String.eqb (http.Method req) http.MethodGet)
  then (false, "", "")
  else MatchManifestURL req.

Definition MatchPushManifest (req : http.Request) : bool * string * string :=
  if negb (String.eqb (http.Method req) http.MethodPut)
  then (false, "", "")
  else MatchManifestURL req.

(** The results are named: a bare [return] returns their current values,
    which are the zero values at first. *)
Definition MatchDeleteManifest `{Digest} (req : http.Request)
  : bool * string * string :=
  if negb (String.eqb (http.Method req) http.MethodDelete)
  then (false, "", "")
  else
    let '(match_, repository, reference) := MatchManifestURL req in
    match snd (digest_Parse reference) with
    | Some _ => (false, repository, reference)
    | None => (match_, repository, reference)
    end.

Section Policy.
Context `{ProjectManager} `{!WhitelistManager}.

Definition ContentTrustEnabled (name : string) : outcome bool :=
  match pm_Get name with
  | (_, Some _) => Return true
  | (Some project, None) => Return (Project_ContentTrustEnabled project)
  | (None, None) => Panic
  end.

Definition VulnerablePolicy (name : string)
  : outcome (bool * Severity * CVEWhitelist) :=
  let wl := CVEWhitelist_zero in
  match pm_Get name with
  | (_, Some _) => Return (true, SevUnknown, wl)
  | (None, None) => Panic
  | (Some project, None) =>
      let fetched :=
        if Project_ReuseSysCVEWhitelist project then mgr_GetSys
        else mgr_Get (Project_ProjectID project) in
      match fetched with
      | (_, Some _) =>
          Return (Project_VulPrevented project,
                  clair_ParseClairSev (Project_Severity project), wl)
      | (None, None) => Panic
      | (Some w, None) =>
          Return (Project_VulPrevented project,
                  clair_ParseClairSev (Project_Severity project), w)
      end
  end.

End Policy.

Section Parsers.
Context `{Digest} `{DAO}.

(** The layer of a manifest as a [distribution.Descriptor], field by
    field. *)
Definition to_distribution (d : Descriptor.t Platform) : Descriptor.t Platform :=
  Descriptor.mk (Descriptor.MediaType d) (Descriptor.Size d)
                (Descriptor.Digest d) (Descriptor.URLs d)
                (Descriptor.Annotations d) (Descriptor.Platform_ d).

(** [ParseManifestInfoFromReq]: the results, and the request after the
    call. *)
Definition ParseManifestInfoFromReq (req : http.Request)
  : M (result ManifestInfo.t * http.Request) :=
  let '(match_, repository, reference) := MatchManifestURL req in
  if negb match_
  then ret (Err (Errorf ("not match url " ++ http.URL_Path req
                         ++ " for manifest")), req)
  else
    let tag :=
      match snd (digest_Parse reference) with
      | Some _ => reference
      | None => ""
      end in
    let mediaType := http.Header_Get (http.Header_ req) "Content-Type" in
    if negb (String.eqb mediaType schema1_MediaTypeManifest)
       && negb (String.eqb mediaType schema1_MediaTypeSignedManifest)
       && negb (String.eqb mediaType schema2_MediaTypeManifest)
       && negb (String.eqb mediaType ocispec_MediaTypeImageManifest)
    then ret (Err (Errorf ("unsupported content type for manifest: "
                           ++ mediaType)), req)
    else
      match http.Body req with
      | None => ret (Err (Errorf "body missing"), req)
      | Some reader =>
          let '((body, err), drained) := ioutil.ReadAll reader in
          match err with
          | Some e => ret (Err e, http.set_Body req (Some drained))
          | None =>
          let req := http.set_Body req (Some (ioutil.NopCloser_NewBuffer body)) in
          match json_Unmarshal_Manifest body with
          | Err e => ret (Err e, req)
          | Ok manifest =>
          let '((body, err), drained) :=
            ioutil.ReadAll (ioutil.NopCloser_NewBuffer body) in
          match err with
          | Some e => ret (Err e, http.set_Body req (Some drained))
          | None =>
          let req := http.set_Body req (Some (ioutil.NopCloser_NewBuffer body)) in
          match json_Unmarshal_Descriptor body with
          | Err e => ret (Err e, req)
          | Ok desc =>
          let (projectName, _) := utils.ParseRepository repository in
          ('(project, err) <- dao.GetProjectByName projectName ;;
           match err, project with
           | Some e, _ =>
               ret (Err (Errorf ("failed to get project " ++ projectName
                                 ++ ", error: " ++ error_Error e)), req)
           | None, None =>
               ret (Err (Errorf ("project " ++ projectName ++ " not found")),
                    req)
           | None, Some project =>
               let references := map to_distribution (Manifest_Layers manifest) in
               ret (Ok (ManifestInfo.new (Project_ProjectID project)
                          repository tag (Descriptor.Digest desc)
                          references (to_distribution desc)), req)
           end)%world
          end end end end
      end.

(** [ParseManifestInfoFromPath]: the results, and the request after the
    call. *)
Definition ParseManifestInfoFromPath (req : http.Request)
  : M (result ManifestInfo.t * http.Request) :=
  let '(match_, repository, reference) := MatchManifestURL req in
  if negb match_
  then ret (Err (Errorf ("not match url " ++ http.URL_Path req
                         ++ " for manifest")), req)
  else
    let (projectName, _) := utils.ParseRepository repository in
    ('(project, err) <- dao.GetProjectByName projectName ;;
     match err, project with
     | Some e, _ =>
         ret (Err (Errorf ("failed to get project " ++ projectName
                           ++ ", error: " ++ error_Error e)), req)
     | None, None =>
         ret (Err (Errorf ("project " ++ projectName ++ " not found")), req)
     | None, Some project =>
         let info :=
           ManifestInfo.new (Project_ProjectID project) repository "" ""
                            [] Descriptor.zero in
         let (dgt, err) := digest_Parse reference in
         match err with
         | Some _ =>
             ret (Ok (ManifestInfo.new (ManifestInfo.ProjectID info)
                        (ManifestInfo.Repository info) reference
                        (ManifestInfo.Digest info) (ManifestInfo.References info)
                        (ManifestInfo.Descriptor_ info)), req)
         | None =>
             ret (Ok (ManifestInfo.new (ManifestInfo.ProjectID info)
                        (ManifestInfo.Repository info) (ManifestInfo.Tag info)
                        dgt (ManifestInfo.References info)
                        (ManifestInfo.Descriptor_ info)), req)
         end
     end)%world.

End Parsers.

End Util.

(** ** The words of the specification

    The shape of a manifest endpoint as the specification describes it, to
    be compared with what [manifestURLRe] accepts. *)
Module Shape.

Fixpoint all_chars (p : ascii -> bool) (s : string) : bool :=
  match s with
  | EmptyString => true
  | String a s' => p a && all_chars p s'
  end.

(** A run of lowercase alphanumerics, not empty. *)
Definition AlnumRun (run : string) : Prop :=
  run <> "" /\ all_chars lower_alnum run = true.

(** A segment: runs of alphanumerics with one separator among [._-] between
    two consecutive runs. *)
Inductive Segment : string -> Prop :=
| Segment_run run : AlnumRun run -> Segment run
| Segment_sep run sep seg :
    AlnumRun run -> separator sep = true -> Segment seg ->
    Segment (run ++ String sep seg).

(** A repository path: one or more segments separated by slashes. *)
Inductive RepoPath : string -> Prop :=
| RepoPath_one seg : Segment seg -> RepoPath seg
| RepoPath_more seg path :
    Segment seg -> RepoPath path -> RepoPath (seg ++ "/" ++ path).

(** A reference: 1 to 128 characters, each a word character or one of
    [.:-]. *)
Definition Reference (ref : string) : Prop :=
  1 <= String.length ref <= 128 /\ all_chars word_dot_colon_dash ref = true.

(** The paths of the shape [/v2/<repo-path>/manifests/<reference>]. *)
Definition ManifestPath (path repository reference : string) : Prop :=
  RepoPath repository /\ Reference reference
  /\ path = "/v2/" ++ repository ++ "/manifests/" ++ reference.

(** The suffix segments of a key, each after a colon, in order. *)
Fixpoint segments (suffix : list string) : string :=
  match suffix with
  | [] => ""
  | seg :: rest => ":" ++ seg ++ segments rest
  end.

(** A string without a slash. *)
Fixpoint no_slash (s : string) : bool :=
  match s with
  | EmptyString => true
  | String a s' => negb (Ascii.eqb a "/") && no_slash s'
  end.

(** The first character of a reference is a word character. *)
Definition begins_with_word (ref : string) : Prop :=
  exists a rest, ref = String a rest /\ word a = true.

(** The path begins with [/v2/<repository>/manifests/<reference>], the
    repository and the reference being of the shape of the specification and
    the reference beginning with a word character. *)
Definition begins_with_manifest (path repository reference : string) : Prop :=
  RepoPath repository /\ Reference reference /\ begins_with_word reference
  /\ exists rest,
      path = "/v2/" ++ repository ++ "/manifests/" ++ reference ++ rest.

(** The slashes of a string, and its last character. *)
Fixpoint count_slash (s : string) : nat :=
  match s with
  | EmptyString => 0
  | String a s' => (if Ascii.eqb a "/" then 1 else 0) + count_slash s'
  end.

Fixpoint last_char (s : string) : option ascii :=
  match s with
  | EmptyString => None
  | String a EmptyString => Some a
  | String _ s' => last_char s'
  end.

End Shape.

(** ** The stages of a request

    One instance of an info is read by several middleware stages, one after
    the other.  Between two reads the backing store and the clock may have
    changed. *)
Module Stages.
Section WithStore.
Context `{DAO}.

(** What happened since the previous stage: the store went through
    [on_store] and the clock shows [at_time]. *)
Record Stage : Type := mkStage {
  on_store : DB -> DB;
  at_time : Time
}.

Definition elapse (st : Stage) (w : World) : World :=
  {| store := on_store st (store w); clock := at_time st;
     journal := journal w |}.

(** The stages call an accessor of the same instance in turn; [call] gets
    the choice of the stage and the instance as the previous stage left it.
    The answers are returned in the order of the calls. *)
Fixpoint run {C I R : Type} (call : C -> I -> M (R * I))
    (stages : list (Stage * C)) (info : I) : M (list R * I) :=
  match stages with
  | [] => ret ([], info)
  | (st, c) :: rest =>
      fun w =>
        let '((r, info'), w') := call c info (elapse st w) in
        let '((rs, info''), w'') := run call rest info' w' in
        ((r :: rs, info''), w'')
  end.

(** The accessors of the artifact of a manifest, and their answers. *)
Inductive ArtifactCall : Type :=
| Call_fetchArtifact
| Call_IsNewTag
| Call_Artifact.

Inductive ArtifactAnswer : Type :=
| Answer_fetchArtifact (r : option Artifact.t * option error)
| Answer_IsNewTag (isNew : bool)
| Answer_Artifact (a : Artifact.t).

Definition call_artifact (c : ArtifactCall) (info : ManifestInfo.t)
  : M (ArtifactAnswer * ManifestInfo.t) :=
  match c with
  | Call_fetchArtifact =>
      ('(r, info') <- ManifestInfo.fetchArtifact info ;;
       ret (Answer_fetchArtifact r, info'))%world
  | Call_IsNewTag =>
      ('(b, info') <- ManifestInfo.IsNewTag info ;;
       ret (Answer_IsNewTag b, info'))%world
  | Call_Artifact =>
      ('(a, info') <- ManifestInfo.Artifact_ info ;;
       ret (Answer_Artifact a, info'))%world
  end.

(** What a stage is answered when the artifact lookup of the instance gave
    [r]: the pair itself; whether there is no artifact; the record of the
    manifest, with the identity and the creation time of the artifact found
    and the time of the stage as push time. *)
Definition answer_of (info : ManifestInfo.t)
    (r : option Artifact.t * option error)
    (stage : Stage * ArtifactCall) : ArtifactAnswer :=
  match snd stage with
  | Call_fetchArtifact => Answer_fetchArtifact r
  | Call_IsNewTag =>
      Answer_IsNewTag (match fst r with None => true | Some _ => false end)
  | Call_Artifact =>
      Answer_Artifact
        (match fst r with
         | None =>
             Artifact.mk 0 (ManifestInfo.ProjectID info)
               (ManifestInfo.Repository info) (ManifestInfo.Tag info)
               (ManifestInfo.Digest info) "Docker-Image" 0 0 0
         | Some found =>
             Artifact.mk (Artifact.ID found) (ManifestInfo.ProjectID info)
               (ManifestInfo.Repository info) (ManifestInfo.Tag info)
               (ManifestInfo.Digest info) "Docker-Image"
               (at_time (fst stage)) 0 (Artifact.CreationTime found)
         end)
  end.

(** The instance [i] keeps the answer [r], and is [info] otherwise. *)
Definition keeps (info : ManifestInfo.t)
    (r : option Artifact.t * option error) (i : ManifestInfo.t) : Prop :=
  sync.done (ManifestInfo.artifactOnce i) = true
  /\ (ManifestInfo.artifact i, ManifestInfo.artifactErr i) = r
  /\ ManifestInfo.ProjectID i = ManifestInfo.ProjectID info
  /\ ManifestInfo.Repository i = ManifestInfo.Repository info
  /\ ManifestInfo.Tag i = ManifestInfo.Tag info
  /\ ManifestInfo.Digest i = ManifestInfo.Digest info.

End WithStore.
End Stages.

(** ** A small world

    One instance of each collaborator, to run the definitions on concrete
    requests. *)
Module Sample.

Definition is_hex (a : ascii) : bool :=
  in_range "0" "9" a || in_range "a" "f" a.

Fixpoint all_hex (s : string) : bool :=
  match s with
  | EmptyString => true
  | String a s' => is_hex a && all_hex s'
  end.

(** Only a SHA-256 digest is valid: [sha256:] and 64 hexadecimal digits. *)
#[export] Instance sha256_only : Digest := {
  digest_Validate s :=
    if String.eqb (substring 0 7 s) "sha256:"
       && Nat.eqb (String.length s) 71
       && all_hex (substring 7 64 s)
    then None
    else Some (Foreign 1 "invalid checksum digest format")
}.

(** A manifest document is the list of its layers; a body decodes to the
    manifest without layers and to the descriptor of size its length, and an
    empty body does not decode. *)
#[export] Instance oci : OCI := {
  Platform := unit;
  Manifest := list (Descriptor.t unit);
  Manifest_Layers m := m;
  json_Unmarshal_Manifest body :=
    match body with
    | [] => Err (Foreign 2 "unexpected end of JSON input")
    | _ => Ok []
    end;
  json_Unmarshal_Descriptor body :=
    match body with
    | [] => Err (Foreign 2 "unexpected end of JSON input")
    | _ => Ok (Descriptor.mk "" (Z.of_nat (List.length body)) "" [] [] None)
    end
}.

(** A project is its identifier; severities are numbers. *)
#[export] Instance models : Models := {
  Project := Z;
  Project_ProjectID p := p;
  Project_ContentTrustEnabled _ := false;
  Project_VulPrevented _ := false;
  Project_Severity _ := "";
  Project_ReuseSysCVEWhitelist _ := true;
  Severity := nat;
  SevUnknown := 2;
  clair_ParseClairSev _ := 1;
  CVEWhitelist := list string;
  CVEWhitelist_zero := []
}.

(** The store counts the queries it has served, and its answers change with
    the count: the first upsert meets a duplicate row, a blob is there
    every other time, the artifact appears after the first query.  The one
    project is [a], with identifier 1. *)
#[export] Instance store_counting : DAO := {
  DB := nat;
  ErrDupRows := Foreign 0 "duplicate rows";
  store_HasBlobInProject _ _ db := ((Nat.even db, None), S db);
  store_GetArtifact repo tag db :=
    ((if Nat.eqb db 0 then None
      else Some (Artifact.mk 7%Z 1%Z repo tag "" "Docker-Image" 0%Z 0%Z 5%Z),
      None), S db);
  store_GetTotalOfArtifacts _ db := ((Z.of_nat db, None), S db);
  store_SyncBlobs _ db :=
    (if Nat.eqb db 0 then Some (Foreign 0 "duplicate rows") else None, S db);
  store_GetBlobsNotInProject _ _ db := (([], None), S db);
  store_GetProjectByName name db :=
    ((if String.eqb name "a" then Some 1%Z else None, None), S db)
}.

(** A manager that knows no project and fails. *)
#[export] Instance pm_failing : ProjectManager := {
  pm_Get _ := (None, Some (Foreign 3 "connection refused"))
}.

#[export] Instance whitelists : WhitelistManager := {
  mgr_GetSys := (Some [], None);
  mgr_Get _ := (Some [], None)
}.

Definition world0 : World := {| store := 0; clock := 0%Z; journal := [] |}.

Definition request (method path : string) : http.Request :=
  {| http.Method := method; http.URL_Path := path;
     http.Header_ := fun _ => []; http.Body := None |}.

(** Two kinds of stage on the counting store: before a busy one another
    request has queried the store, before a quiet one nothing happened.  A
    blob that is there at a first, quiet call would not be at a second, busy
    one; an artifact that is not there would be. *)
Definition busy : Stages.Stage :=
  {| Stages.on_store := S; Stages.at_time := 10 |}.
Definition quiet : Stages.Stage :=
  {| Stages.on_store := fun db => db; Stages.at_time := 20 |}.

End Sample.

(** ** Context propagation

    Package [context] of the Go library, as far as values go: a context is
    the background or a parent with one more key and value, and [Value]
    walks up to the nearest value of a key.  A key is compared with its
    type: no key of another package equals a [contextKey]. *)
Module context.
Section WithOCI.
Context `{OCI}.

Inductive Key : Type :=
| contextKey (name : string)        (* a key of type [util.contextKey] *)
| foreignKey (id : nat).            (* a key of any other type *)

Definition Key_eqb (k1 k2 : Key) : bool :=
  match k1, k2 with
  | contextKey n1, contextKey n2 => String.eqb n1 n2
  | foreignKey i1, foreignKey i2 => Nat.eqb i1 i2
  | _, _ => false
  end.

(** An [interface{}] value: [nil], a pointer of one of the four info types
    ([None] is the [nil] pointer of the type), or a value of another
    type. *)
Inductive Any : Type :=
| Nil
| ImageInfoPtr (p : option ImageInfo.t)
| BlobInfoPtr (p : option BlobInfo.t)
| ChartVersionInfoPtr (p : option ChartVersionInfo.t)
| ManifestInfoPtr (p : option ManifestInfo.t)
| Other (id : nat).

Inductive Context : Type :=
| Background
| WithValue (parent : Context) (key : Key) (val : Any).

Fixpoint Value (ctx : Context) (key : Key) : Any :=
  match ctx with
  | Background => Nil
  | WithValue parent k val => if Key_eqb k key then val else Value parent key
  end.

(** A key occurs in a context. *)
Fixpoint has_key (ctx : Context) (key : Key) : bool :=
  match ctx with
  | Background => false
  | WithValue parent k _ => Key_eqb k key || has_key parent key
  end.

End WithOCI.
End context.

Module Slots.
Section WithOCI.
Context `{OCI}.

Definition ImageInfoCtxKey : context.Key := context.contextKey "ImageInfo".
Definition blobInfoKey : context.Key := context.contextKey "BlobInfo".
Definition chartVersionInfoKey : context.Key :=
  context.contextKey "ChartVersionInfo".
Definition manifestInfoKey : context.Key := context.contextKey "ManifestInfo".

(** The type assertion of [ctx.Value(key)] to a pointer type: the pointer
    and [true] when the value is a pointer of that type, the [nil] pointer
    and [false] otherwise. *)
Definition BlobInfoFromContext (ctx : context.Context)
  : option BlobInfo.t * bool :=
  match context.Value ctx blobInfoKey with
  | context.BlobInfoPtr info => (info, true)
  | _ => (None, false)
  end.

Definition ChartVersionInfoFromContext (ctx : context.Context)
  : option ChartVersionInfo.t * bool :=
  match context.Value ctx chartVersionInfoKey with
  | context.ChartVersionInfoPtr info => (info, true)
  | _ => (None, false)
  end.

Definition ImageInfoFromContext (ctx : context.Context)
  : option ImageInfo.t * bool :=
  match context.Value ctx ImageInfoCtxKey with
  | context.ImageInfoPtr info => (info, true)
  | _ => (None, false)
  end.

Definition ManifestInfoFromContext (ctx : context.Context)
  : option ManifestInfo.t * bool :=
  match context.Value ctx manifestInfoKey with
  | context.ManifestInfoPtr info => (info, true)
  | _ => (None, false)
  end.

Definition NewBlobInfoContext (ctx : context.Context)
    (info : option BlobInfo.t) : context.Context :=
  context.WithValue ctx blobInfoKey (context.BlobInfoPtr info).

Definition NewChartVersionInfoContext (ctx : context.Context)
    (info : option ChartVersionInfo.t) : context.Context :=
  context.WithValue ctx chartVersionInfoKey (context.ChartVersionInfoPtr info).

Definition NewImageInfoContext (ctx : context.Context)
    (info : option ImageInfo.t) : context.Context :=
  context.WithValue ctx ImageInfoCtxKey (context.ImageInfoPtr info).

Definition NewManifestInfoContext (ctx : context.Context)
    (info : option ManifestInfo.t) : context.Context :=
  context.WithValue ctx manifestInfoKey (context.ManifestInfoPtr info).

(** The four retrievals of a context, side by side. *)
Definition slots (ctx : context.Context) :=
  (ImageInfoFromContext ctx, BlobInfoFromContext ctx,
   ChartVersionInfoFromContext ctx, ManifestInfoFromContext ctx).

(** What the stages of a request attach to its context, one after the
    other: an info, or a value under a key of another package. *)
Inductive Attach : Type :=
| AttachImage (info : option ImageInfo.t)
| AttachBlob (info : option BlobInfo.t)
| AttachChart (info : option ChartVersionInfo.t)
| AttachManifest (info : option ManifestInfo.t)
| AttachForeign (id : nat) (val : context.Any).

Definition attach (ctx : context.Context) (a : Attach) : context.Context :=
  match a with
  | AttachImage info => NewImageInfoContext ctx info
  | AttachBlob info => NewBlobInfoContext ctx info
  | AttachChart info => NewChartVersionInfoContext ctx info
  | AttachManifest info => NewManifestInfoContext ctx info
  | AttachForeign id val => context.WithValue ctx (context.foreignKey id) val
  end.

(** The last element of a list that [pick] selects. *)
Fixpoint last_picked {A B : Type} (pick : A -> option B) (l : list A)
  : option B :=
  match l with
  | [] => None
  | a :: rest =>
      match last_picked pick rest with
      | Some b => Some b
      | None => pick a
      end
  end.

Definition picks_image (a : Attach) : option (option ImageInfo.t) :=
  match a with AttachImage info => Some info | _ => None end.
Definition picks_blob (a : Attach) : option (option BlobInfo.t) :=
  match a with AttachBlob info => Some info | _ => None end.
Definition picks_chart (a : Attach) : option (option ChartVersionInfo.t) :=
  match a with AttachChart info => Some info | _ => None end.
Definition picks_manifest (a : Attach) : option (option ManifestInfo.t) :=
  match a with AttachManifest info => Some info | _ => None end.

(** A slot after attachments: the last info attached to it, present, or
    what it was. *)
Definition slot_after {T : Type} (before : option T * bool)
    (last : option (option T)) : option T * bool :=
  match last with
  | Some info => (info, true)
  | None => before
  end.

End WithOCI.
End Slots.

(** ** Calls of a manifest info in any order

    The stages of a request may call the existence lookup and the artifact
    accessors of one manifest info in any order. *)
Module Mixed.
Section WithStore.
Context `{DAO}.

Inductive ManifestCall : Type :=
| Call_ManifestExists
| Call_artifact (c : Stages.ArtifactCall).

Inductive ManifestAnswer : Type :=
| Answer_ManifestExists (r : bool * option error)
| Answer_artifact (a : Stages.ArtifactAnswer).

Definition call_manifest (c : ManifestCall) (info : ManifestInfo.t)
  : M (ManifestAnswer * ManifestInfo.t) :=
  match c with
  | Call_ManifestExists =>
      ('(r, info') <- ManifestInfo.ManifestExists info ;;
       ret (Answer_ManifestExists r, info'))%world
  | Call_artifact c' =>
      ('(a, info') <- Stages.call_artifact c' info ;;
       ret (Answer_artifact a, info'))%world
  end.

Definition is_ManifestExists (sc : Stages.Stage * ManifestCall) : bool :=
  match snd sc with Call_ManifestExists => true | Call_artifact _ => false end.

Definition is_artifact (sc : Stages.Stage * ManifestCall) : bool :=
  negb (is_ManifestExists sc).

Definition is_GetTotalOfArtifacts (q : Query) : bool :=
  match q with Q_GetTotalOfArtifacts _ => true | _ => false end.

Definition is_GetArtifact (q : Query) : bool :=
  match q with Q_GetArtifact _ _ => true | _ => false end.

(** The fields of a manifest info that are not memos. *)
Definition identity (info : ManifestInfo.t) :=
  (ManifestInfo.ProjectID info, ManifestInfo.Repository info,
   ManifestInfo.Tag info, ManifestInfo.Digest info,
   ManifestInfo.References info, ManifestInfo.Descriptor_ info,
   ManifestInfo.ExclusiveBlobs info).

(** The answer to a call when the existence lookup gave [rE] and the
    artifact lookup gave [rA]. *)
Definition answered (info : ManifestInfo.t) (rE : bool * option error)
    (rA : option Artifact.t * option error)
    (sc : Stages.Stage * ManifestCall) (answer : ManifestAnswer) : Prop :=
  match snd sc with
  | Call_ManifestExists => answer = Answer_ManifestExists rE
  | Call_artifact c =>
      answer = Answer_artifact (Stages.answer_of info rA (fst sc, c))
  end.

(** The queries a sequence of calls sends: the first call of each kind sends
    one, unless the lookup of that kind was done before. *)
Fixpoint first_queries (info : ManifestInfo.t)
    (calls : list (Stages.Stage * ManifestCall)) (doneE doneA : bool)
  : list Query :=
  match calls with
  | [] => []
  | sc :: rest =>
      if is_ManifestExists sc
      then if doneE then first_queries info rest doneE doneA
           else Q_GetTotalOfArtifacts
                  (ArtifactQuery.mk (ManifestInfo.ProjectID info)
                                    (ManifestInfo.Digest info))
                :: first_queries info rest true doneA
      else if doneA then first_queries info rest doneE doneA
           else Q_GetArtifact (ManifestInfo.Repository info)
                              (ManifestInfo.Tag info)
                :: first_queries info rest doneE true
  end.

End WithStore.
End Mixed.

(** ** Shapes of keys and of references, continued *)
Module KeyShape.

(** A string without a colon. *)
Fixpoint no_colon (s : string) : bool :=
  match s with
  | EmptyString => true
  | String a s' => negb (Ascii.eqb a ":") && no_colon s'
  end.

(** The reference [ref] of a path that goes on with [rest] could not be
    longer: it has 128 characters, or the path ends, or the next character
    is none of a reference. *)
Definition longest_reference (ref rest : string) : Prop :=
  String.length ref = 128
  \/ rest = ""
  \/ exists a rest', rest = String a rest' /\ word_dot_colon_dash a = false.

(** The first character of a string. *)
Definition first_char (s : string) : option ascii :=
  match s with
  | EmptyString => None
  | String a _ => Some a
  end.

(** A string that begins and ends with a lowercase alphanumeric. *)
Definition alnum_ends (s : string) : Prop :=
  (exists a, first_char s = Some a /\ lower_alnum a = true)
  /\ (exists a, Shape.last_char s = Some a /\ lower_alnum a = true).

(** The media types [ParseManifestInfoFromReq] accepts. *)
Definition supported (mediaType : string) : Prop :=
  In mediaType
     [schema1_MediaTypeManifest; schema1_MediaTypeSignedManifest;
      schema2_MediaTypeManifest; ocispec_MediaTypeImageManifest].

End KeyShape.

(** ** Parts of the parsers, of the keys and of the policy *)
Module Outcomes.

(** The test of the content type. *)
Definition unsupported_test (mediaType : string) : bool :=
  negb (String.eqb mediaType schema1_MediaTypeManifest)
  && negb (String.eqb mediaType schema1_MediaTypeSignedManifest)
  && negb (String.eqb mediaType schema2_MediaTypeManifest)
  && negb (String.eqb mediaType ocispec_MediaTypeImageManifest).

(** The content type of a request. *)
Definition content_type (req : http.Request) : string :=
  http.Header_Get (http.Header_ req) "Content-Type".

Section WithStore.
Context `{DAO}.

(** The world after one lookup of a project. *)
Definition after_lookup (projectName : string) (w : World) : World :=
  {| store := snd (store_GetProjectByName projectName (store w));
     clock := clock w;
     journal := (journal w ++ [Q_GetProjectByName projectName])%list |}.

End WithStore.

Section WithOCI.
Context `{OCI}.

(** The project name of an info. *)
Definition blob_project (info : BlobInfo.t) : string :=
  fst (utils.ParseRepository (BlobInfo.Repository info)).
Definition manifest_project (info : ManifestInfo.t) : string :=
  fst (utils.ParseRepository (ManifestInfo.Repository info)).

End WithOCI.

Section WithManagers.
Context `{WhitelistManager}.

(** The whitelist manager is asked for the system whitelist when the
    project reuses it, for the whitelist of the project otherwise. *)
Definition whitelist_of (project : Project)
  : option CVEWhitelist * option error :=
  if Project_ReuseSysCVEWhitelist project then mgr_GetSys
  else mgr_Get (Project_ProjectID project).

End WithManagers.

End Outcomes.

(** ** A second small world

    A store that is down, and a project manager that finds its project. *)
Module Outage.
Import Sample.

#[export] Instance store_down : DAO := {
  DB := unit;
  ErrDupRows := Foreign 0 "duplicate rows";
  store_HasBlobInProject _ _ db :=
    ((false, Some (Foreign 4 "connection refused")), db);
  store_GetArtifact _ _ db := ((None, Some (Foreign 4 "connection refused")), db);
  store_GetTotalOfArtifacts _ db :=
    ((0%Z, Some (Foreign 4 "connection refused")), db);
  store_SyncBlobs _ db := (Some (Foreign 4 "connection refused"), db);
  store_GetBlobsNotInProject _ _ db :=
    (([], Some (Foreign 4 "connection refused")), db);
  store_GetProjectByName _ db :=
    ((None, Some (Foreign 4 "connection refused")), db)
}.

#[export] Instance pm_finding : ProjectManager := {
  pm_Get name := (Some 1%Z, None)
}.

Definition world_down : @World _ _ store_down :=
  {| store := tt; clock := 0%Z; journal := [] |}.

Definition later : @Stages.Stage _ _ store_down :=
  {| Stages.on_store := fun db => db; Stages.at_time := 30 |}.

(** A push to [/v2/a/b/manifests/latest] with the body [body]. *)
Definition push (body : ioutil.Reader) : http.Request :=
  {| http.Method := "PUT"; http.URL_Path := "/v2/a/b/manifests/latest";
     http.Header_ := fun _ => [schema2_MediaTypeManifest];
     http.Body := Some body |}.

End Outage.

(** * Digests of more than 128 characters *)
Module LongDigest.
Import Sample.

(** [digest.Parse] where SHA-256 and SHA-512 are both available: [sha256:]
    and 64 hexadecimal digits, or [sha512:] and 128. *)
Definition sha256_or_sha512 : Digest := {|
  digest_Validate s :=
    if (String.eqb (substring 0 7 s) "sha256:"
        && Nat.eqb (String.length s) 71
        && all_hex (substring 7 64 s))
       || (String.eqb (substring 0 7 s) "sha512:"
           && Nat.eqb (String.length s) 135
           && all_hex (substring 7 128 s))
    then None
    else Some (Foreign 1 "invalid checksum digest format")
|}.

(** A SHA-512 digest, of 135 characters, and its first 128 characters. *)
Definition sha512_digest : string :=
  "sha512:0123456789abcdef0123456789abcdef0123456789abcdef0123456789abcdef0123456789abcdef0123456789abcdef0123456789abcdef0123456789abcdef".
Definition sha512_digest_cut : string :=
  "sha512:0123456789abcdef0123456789abcdef0123456789abcdef0123456789abcdef0123456789abcdef0123456789abcdef0123456789abcdef012345678".
End LongDigest.

(** * Properties *)

(** ** Strings *)
Module StringFacts.

Lemma append_nil_r (s : string) : s ++ "" = s.
Proof. induction s as [|a s IH]; simpl; [reflexivity | now rewrite IH]. Qed.

Lemma append_assoc (s1 s2 s3 : string) : (s1 ++ s2) ++ s3 = s1 ++ (s2 ++ s3).
Proof. induction s1 as [|a s1 IH]; simpl; [reflexivity | now rewrite IH]. Qed.

Lemma length_append (s1 s2 : string) :
  String.length (s1 ++ s2) = String.length s1 + String.length s2.
Proof. induction s1 as [|a s1 IH]; simpl; [reflexivity | now rewrite IH]. Qed.

Lemma length_zero (s : string) : String.length s = 0 -> s = "".
Proof. destruct s; simpl; [reflexivity | discriminate]. Qed.

Lemma append_inv_head (s t1 t2 : string) : s ++ t1 = s ++ t2 -> t1 = t2.
Proof.
  induction s as [|a s IH]; simpl; intros H; [assumption|].
  injection H as H. auto.
Qed.

Lemma substring_all (s t : string) : substring 0 (String.length s) (s ++ t) = s.
Proof. induction s as [|a s IH]; simpl; [now destruct t | now rewrite IH]. Qed.

Lemma substring_skip (s t : string) (n : nat) :
  substring (String.length s) n (s ++ t) = substring 0 n t.
Proof. induction s as [|a s IH]; simpl; [reflexivity | exact IH]. Qed.

(** The bytes between two offsets of a text cut in three. *)
Lemma substring_middle (s1 s2 s3 : string) :
  substring (String.length s1) (String.length s2) (s1 ++ s2 ++ s3) = s2.
Proof. rewrite substring_skip. apply substring_all. Qed.

End StringFacts.

(** ** The backtracking matcher *)
Module RegexpFacts.
Import Regexp StringFacts.

(** A run reads a prefix of the text and advances by its length. *)
Lemma Run_consumes r s pos c s' pos' c' :
  Run r s pos c s' pos' c' ->
  exists w, s = w ++ s' /\ pos' = pos + String.length w.
Proof.
  induction 1 as
    [ s pos c | s c | p a s pos c Hp
    | r1 r2 s pos c s1 pos1 c1 s2 pos2 c2 _ [w1 [E1 P1]] _ [w2 [E2 P2]]
    | r1 r2 s pos c s' pos' c' _ IH | r1 r2 s pos c s' pos' c' _ IH
    | r s pos c
    | r s pos c s1 pos1 c1 s2 pos2 c2 _ [w1 [E1 P1]] _ _ [w2 [E2 P2]]
    | i r s pos c s' pos' c' _ IH ];
    try assumption.
  - exists ""; simpl; split; [reflexivity | lia].
  - exists ""; simpl; split; [reflexivity | lia].
  - exists (String a ""); simpl; split; [reflexivity | lia].
  - exists (w1 ++ w2). subst. rewrite append_assoc, length_append.
    split; [reflexivity | lia].
  - exists ""; simpl; split; [reflexivity | lia].
  - exists (w1 ++ w2). subst. rewrite append_assoc, length_append.
    split; [reflexivity | lia].
Qed.

Lemma Run_shortens r s pos c s' pos' c' :
  Run r s pos c s' pos' c' ->
  String.length s' + pos' = String.length s + pos.
Proof.
  intros H. destruct (Run_consumes _ _ _ _ _ _ _ H) as [w [-> ->]].
  rewrite length_append. lia.
Qed.

(** The loop of a star returns what its exit returns when no iteration
    succeeds, so it succeeds whenever the exit does. *)
Lemma star_loop_exit {R} body (k : Cont R) fuel s pos c :
  k s pos c <> None -> star_loop body k fuel s pos c <> None.
Proof.
  intros Hk. destruct fuel as [|fuel]; simpl; [assumption|].
  destruct (body s pos c _); [discriminate | assumption].
Qed.

Section Soundness.

(** Every answer of the matcher is the answer of the continuation at the end
    of a run. *)
Lemma star_loop_sound {R} r1 (k : Cont R) res
    (IH : forall s pos c (k' : Cont R),
        backtrack r1 s pos c k' = Some res ->
        exists s' pos' c', Run r1 s pos c s' pos' c' /\ k' s' pos' c' = Some res) :
  forall fuel s pos c,
    star_loop (backtrack r1) k fuel s pos c = Some res ->
    exists s' pos' c', Run (Star r1) s pos c s' pos' c' /\ k s' pos' c' = Some res.
Proof.
  induction fuel as [|fuel IHf]; simpl; intros s pos c H.
  - exists s, pos, c. split; [constructor | assumption].
  - destruct (backtrack r1 s pos c _) as [res0|] eqn:E.
    + injection H as ->.
      destruct (IH _ _ _ _ E) as (s1 & pos1 & c1 & Hrun & Hk).
      destruct (Nat.ltb pos pos1) eqn:Hlt; [|discriminate].
      apply Nat.ltb_lt in Hlt.
      destruct (IHf _ _ _ Hk) as (s2 & pos2 & c2 & Hstar & Hk2).
      exists s2, pos2, c2. split; [|assumption].
      eapply Run_Star_iter; eassumption.
    + exists s, pos, c. split; [constructor | assumption].
Qed.

Theorem backtrack_sound r :
  forall R s pos c (k : Cont R) res,
    backtrack r s pos c k = Some res ->
    exists s' pos' c', Run r s pos c s' pos' c' /\ k s' pos' c' = Some res.
Proof.
  induction r as [ | | p | r1 IH1 r2 IH2 | r1 IH1 r2 IH2 | r1 IH1 | i r1 IH1 ];
    intros R s pos c k res H; simpl in H.
  - exists s, pos, c. split; [constructor | assumption].
  - destruct (Nat.eqb pos 0) eqn:E; [|discriminate].
    apply Nat.eqb_eq in E. subst pos.
    exists s, 0, c. split; [constructor | assumption].
  - destruct s as [|a s]; [discriminate|].
    destruct (p a) eqn:Hp; [|discriminate].
    exists s, (S pos), c. split; [now constructor | assumption].
  - destruct (IH1 _ _ _ _ _ _ H) as (s1 & pos1 & c1 & Hrun1 & H1).
    destruct (IH2 _ _ _ _ _ _ H1) as (s2 & pos2 & c2 & Hrun2 & H2).
    exists s2, pos2, c2. split; [|assumption].
    eapply Run_Concat; eassumption.
  - destruct (backtrack r1 s pos c k) as [res1|] eqn:E.
    + injection H as ->.
      destruct (IH1 _ _ _ _ _ _ E) as (s1 & pos1 & c1 & Hrun1 & H1).
      exists s1, pos1, c1. split; [now apply Run_Alternate_l | assumption].
    + destruct (IH2 _ _ _ _ _ _ H) as (s2 & pos2 & c2 & Hrun2 & H2).
      exists s2, pos2, c2. split; [now apply Run_Alternate_r | assumption].
  - eapply star_loop_sound; [|exact H].
    intros; eapply IH1; eassumption.
  - destruct (IH1 _ _ _ _ _ _ H) as (s1 & pos1 & c1 & Hrun1 & H1).
    exists s1, pos1, (set_cap i (pos, pos1) c1).
    split; [now constructor | assumption].
Qed.

End Soundness.

Section Completeness.

(** Where a run exists and the continuation succeeds at its end, the matcher
    succeeds (maybe through a run it prefers). *)
Lemma star_loop_complete r1
    (IH : forall s pos c s' pos' c',
        Run r1 s pos c s' pos' c' ->
        forall R (k : Cont R), k s' pos' c' <> None ->
                               backtrack r1 s pos c k <> None) :
  forall sr s pos c s' pos' c',
    Run sr s pos c s' pos' c' -> sr = Star r1 ->
    forall R (k : Cont R) fuel,
      String.length s <= fuel ->
      k s' pos' c' <> None ->
      star_loop (backtrack r1) k fuel s pos c <> None.
Proof.
  induction 1 as
    [ | | | | | | r s pos c
    | r s pos c s1 pos1 c1 s2 pos2 c2 Hbody _ Hlt Hrest IHrest | ];
    intros E; try discriminate E; injection E as ->;
    intros R k fuel Hfuel Hk.
  - now apply star_loop_exit.
  - pose proof (Run_shortens _ _ _ _ _ _ _ Hbody) as Hlen.
    destruct fuel as [|fuel]; [lia|]. simpl.
    destruct (backtrack r1 s pos c _) eqn:Eb; [discriminate|].
    exfalso. revert Eb. apply (IH _ _ _ _ _ _ Hbody).
    rewrite (proj2 (Nat.ltb_lt _ _) Hlt).
    apply IHrest; [reflexivity | lia | assumption].
Qed.

Theorem backtrack_complete r :
  forall s pos c s' pos' c',
    Run r s pos c s' pos' c' ->
    forall R (k : Cont R), k s' pos' c' <> None -> backtrack r s pos c k <> None.
Proof.
  induction r as [ | | p | r1 IH1 r2 IH2 | r1 IH1 r2 IH2 | r1 IH1 | i r1 IH1 ];
    intros s pos c s' pos' c' Hrun R k Hk; simpl.
  - inversion Hrun; subst. assumption.
  - inversion Hrun; subst. assumption.
  - inversion Hrun as [ | | p' a s0 pos0 c0 Hp | | | | | | ]; subst.
    rewrite Hp. assumption.
  - inversion Hrun; subst.
    eapply IH1; [eassumption|]. eapply IH2; eassumption.
  - inversion Hrun; subst.
    + destruct (backtrack r1 s pos c k) eqn:E; [discriminate|].
      exfalso. revert E. eapply IH1; eassumption.
    + destruct (backtrack r1 s pos c k); [discriminate|].
      eapply IH2; eassumption.
  - eapply star_loop_complete; eauto.
  - inversion Hrun; subst.
    eapply IH1; [eassumption|]. assumption.
Qed.

End Completeness.

Section PlainExpressions.

(** On an expression without anchors and groups a run reads a word of the
    language and leaves the registers alone, and every word of the language
    can be run. *)
Lemma Run_plain r s pos c s' pos' c' :
  Run r s pos c s' pos' c' -> plain r = true ->
  exists w, Lang r w /\ s = w ++ s' /\ pos' = pos + String.length w /\ c' = c.
Proof.
  induction 1 as
    [ s pos c | s c | p a s pos c Hp
    | r1 r2 s pos c s1 pos1 c1 s2 pos2 c2 _ IHa _ IHb
    | r1 r2 s pos c s' pos' c' _ IH | r1 r2 s pos c s' pos' c' _ IH
    | r s pos c
    | r s pos c s1 pos1 c1 s2 pos2 c2 _ IHa Hlt _ IHb
    | i r s pos c s' pos' c' _ IH ];
    simpl; intros Hpl; try discriminate Hpl.
  - exists "". repeat split; [apply Lang_EmptyMatch | simpl; lia].
  - exists (String a ""). repeat split; [now constructor | simpl; lia].
  - apply andb_true_iff in Hpl as [Hp1 Hp2].
    destruct (IHa Hp1) as (w1 & L1 & -> & -> & ->).
    destruct (IHb Hp2) as (w2 & L2 & -> & -> & ->).
    exists (w1 ++ w2). rewrite append_assoc, length_append.
    repeat split; [now constructor | lia].
  - apply andb_true_iff in Hpl as [Hp1 Hp2].
    destruct (IH Hp1) as (w & L & -> & -> & ->).
    exists w. repeat split. now apply Lang_Alternate_l.
  - apply andb_true_iff in Hpl as [Hp1 Hp2].
    destruct (IH Hp2) as (w & L & -> & -> & ->).
    exists w. repeat split. now apply Lang_Alternate_r.
  - exists "". repeat split; [apply Lang_Star_exit | simpl; lia].
  - destruct (IHa Hpl) as (w1 & L1 & -> & -> & ->).
    destruct (IHb Hpl) as (w2 & L2 & -> & -> & ->).
    exists (w1 ++ w2). rewrite append_assoc, length_append.
    repeat split; [|lia].
    constructor; try assumption.
    intros ->. simpl in Hlt. lia.
Qed.

Lemma Lang_Run r w :
  Lang r w ->
  forall s' pos c, Run r (w ++ s') pos c s' (pos + String.length w) c.
Proof.
  induction 1 as
    [ | p a Hp | r1 r2 w1 w2 _ IHa _ IHb | r1 r2 w _ IH | r1 r2 w _ IH
    | r | r w1 w2 _ IHa Hne _ IHb ];
    intros s' pos c; simpl.
  - rewrite Nat.add_0_r. constructor.
  - replace (pos + 1) with (S pos) by lia. now constructor.
  - rewrite append_assoc, length_append, Nat.add_assoc.
    eapply Run_Concat; [apply IHa | apply IHb].
  - apply Run_Alternate_l, IH.
  - apply Run_Alternate_r, IH.
  - rewrite Nat.add_0_r. constructor.
  - rewrite append_assoc, length_append, Nat.add_assoc.
    eapply Run_Star_iter; [apply IHa | | apply IHb].
    destruct w1; [congruence | simpl; lia].
Qed.

End PlainExpressions.

End RegexpFacts.

(** ** The mutex keys *)
Module MutexKeys.
Import StringFacts Shape.

(** A joined list is its head followed by the other elements, each after
    the separator. *)
Lemma Join_colon (e : string) (rest : list string) :
  Strings.Join (e :: rest) ":" = e ++ segments rest.
Proof.
  revert e. induction rest as [|e' rest IH]; intros e.
  - simpl. now rewrite append_nil_r.
  - change (Strings.Join (e :: e' :: rest) ":")
      with (e ++ ":" ++ Strings.Join (e' :: rest) ":").
    now rewrite IH.
Qed.

Lemma segments_app (l1 l2 : list string) :
  segments (l1 ++ l2) = segments l1 ++ segments l2.
Proof.
  induction l1 as [|e l1 IH]; simpl; [reflexivity|].
  now rewrite IH, append_assoc.
Qed.

(** The key of four fixed segments and a suffix. *)
Lemma key_of_four (a b c d : string) (suffix : list string) :
  Strings.Join ([a; b; c; d] ++ suffix) ":"
  = a ++ ":" ++ b ++ ":" ++ c ++ ":" ++ d ++ segments suffix.
Proof.
  change ([a; b; c; d] ++ suffix)%list with (a :: b :: c :: d :: suffix).
  rewrite Join_colon. reflexivity.
Qed.

(** The project name of a repository that has a slash is what comes before
    the first one. *)
Lemma cut_at_slash_first (project rest : string) :
  no_slash project = true ->
  utils.cut_at_slash (project ++ "/" ++ rest) = Some (project, rest).
Proof.
  induction project as [|a project IH]; simpl in *; intros Hno.
  - reflexivity.
  - apply andb_true_iff in Hno as [Ha Hno].
    apply negb_true_iff in Ha. rewrite Ha.
    now rewrite (IH Hno).
Qed.

Lemma ParseRepository_first_slash (project rest : string) :
  no_slash project = true ->
  utils.ParseRepository (project ++ "/" ++ rest) = (project, rest).
Proof.
  intros Hno. unfold utils.ParseRepository.
  now rewrite (cut_at_slash_first _ _ Hno).
Qed.

Section Keys.
Context `{OCI}.

(** C1.  Two manifest infos of the same repository and the same tag, not
    empty, have the same mutex key for the same suffix, whatever their
    digests: the key is [quota:<project-name>:manifest:<tag>] followed by the
    suffix segments in order.  With an empty tag the key is
    [quota:<project-name>:manifest:<digest>] followed by the suffix
    segments. *)
Theorem manifest_MutexKey_by_tag_else_digest
    (info1 info2 : ManifestInfo.t) (suffix : list string) :
  ManifestInfo.Repository info1 = ManifestInfo.Repository info2 ->
  ManifestInfo.Tag info1 = ManifestInfo.Tag info2 ->
  ManifestInfo.Tag info1 <> "" ->
  ManifestInfo.MutexKey info1 suffix = ManifestInfo.MutexKey info2 suffix
  /\ ManifestInfo.MutexKey info1 suffix
     = "quota:" ++ fst (utils.ParseRepository (ManifestInfo.Repository info1))
       ++ ":manifest:" ++ ManifestInfo.Tag info1 ++ segments suffix
  /\ (forall info : ManifestInfo.t,
        ManifestInfo.Tag info = "" ->
        ManifestInfo.MutexKey info suffix
        = "quota:" ++ fst (utils.ParseRepository (ManifestInfo.Repository info))
          ++ ":manifest:" ++ ManifestInfo.Digest info ++ segments suffix).
Proof.
  intros Hrepo Htag Hne.
  assert (Hkey : forall info : ManifestInfo.t,
             ManifestInfo.Tag info <> "" ->
             ManifestInfo.MutexKey info suffix
             = "quota:" ++ fst (utils.ParseRepository (ManifestInfo.Repository info))
               ++ ":manifest:" ++ ManifestInfo.Tag info ++ segments suffix).
  { intros info Hi. unfold ManifestInfo.MutexKey.
    destruct (utils.ParseRepository (ManifestInfo.Repository info)) as [p r].
    apply String.eqb_neq in Hi. rewrite Hi. cbn [negb fst].
    apply key_of_four. }
  split; [|split].
  - rewrite (Hkey info1 Hne).
    rewrite (Hkey info2) by (rewrite <- Htag; exact Hne).
    now rewrite Hrepo, Htag.
  - exact (Hkey info1 Hne).
  - intros info Hi. unfold ManifestInfo.MutexKey.
    destruct (utils.ParseRepository (ManifestInfo.Repository info)) as [p r].
    rewrite Hi. cbn [String.eqb negb fst].
    apply key_of_four.
Qed.

(** C7.  The key of a blob, of a manifest, of a blob within a manifest and
    of a chart version is the colon-join of [quota], the project name (what
    comes before the first slash of the repository) or the namespace, the
    kind and the identity, followed by the suffix segments in order: a blob
    gives [quota:<project-name>:blob:<digest>], a chart version gives
    [quota:<namespace>:chart:<chart-name>:version:<version>]. *)
Theorem mutex_keys_colon_joined
    (blobInfo : BlobInfo.t) (info : ManifestInfo.t) (blob : Blob.t)
    (chart : ChartVersionInfo.t) (suffix : list string)
    (project rest : string) :
  no_slash project = true ->
  BlobInfo.Repository blobInfo = project ++ "/" ++ rest ->
  ManifestInfo.Repository info = project ++ "/" ++ rest ->
  BlobInfo.MutexKey blobInfo suffix
  = "quota:" ++ project ++ ":blob:" ++ BlobInfo.Digest blobInfo
    ++ segments suffix
  /\ ManifestInfo.MutexKey info suffix
     = "quota:" ++ project ++ ":manifest:"
       ++ (if String.eqb (ManifestInfo.Tag info) ""
           then ManifestInfo.Digest info else ManifestInfo.Tag info)
       ++ segments suffix
  /\ ManifestInfo.BlobMutexKey info blob suffix
     = "quota:" ++ project ++ ":blob:" ++ Blob.Digest blob ++ segments suffix
  /\ ChartVersionInfo.MutexKey chart suffix
     = "quota:" ++ ChartVersionInfo.Namespace chart
       ++ ":chart:" ++ ChartVersionInfo.ChartName chart
       ++ ":version:" ++ ChartVersionInfo.Version chart ++ segments suffix.
Proof.
  intros Hno Hb Hm. split; [|split; [|split]].
  - unfold BlobInfo.MutexKey.
    rewrite Hb, (ParseRepository_first_slash _ _ Hno).
    apply key_of_four.
  - unfold ManifestInfo.MutexKey.
    rewrite Hm, (ParseRepository_first_slash _ _ Hno).
    destruct (String.eqb (ManifestInfo.Tag info) ""); apply key_of_four.
  - unfold ManifestInfo.BlobMutexKey.
    rewrite Hm, (ParseRepository_first_slash _ _ Hno).
    apply key_of_four.
  - unfold ChartVersionInfo.MutexKey.
    change ([?a; ?b; ?c; ?d; ?e; ?f] ++ suffix)%list
      with ([a; b; c; d] ++ (e :: f :: suffix))%list.
    rewrite key_of_four. reflexivity.
Qed.

End Keys.

Import Sample.

(** The two manifest infos of the specification: repository [p/r], tag [v1],
    different digests. *)
Lemma manifest_MutexKey_by_tag_else_digest_witness :
  let info1 := ManifestInfo.new 1 "p/r" "v1" "sha256:aa" [] Descriptor.zero in
  let info2 := ManifestInfo.new 1 "p/r" "v1" "sha256:bb" [] Descriptor.zero in
  let info3 := ManifestInfo.new 1 "p/r" "" "sha256:bb" [] Descriptor.zero in
  ManifestInfo.MutexKey info1 ["count"] = ManifestInfo.MutexKey info2 ["count"]
  /\ ManifestInfo.MutexKey info1 ["count"] = "quota:p:manifest:v1:count"
  /\ ManifestInfo.MutexKey info3 ["count"] = "quota:p:manifest:sha256:bb:count".
Proof.
  intros info1 info2 info3.
  destruct (manifest_MutexKey_by_tag_else_digest
              info1 info2 ["count"]) as (Hsame & Htag & Hdigest).
  - reflexivity.
  - reflexivity.
  - discriminate.
  - split; [exact Hsame | split; [exact Htag | exact (Hdigest info3 eq_refl)]].
Defined.

Lemma mutex_keys_colon_joined_witness :
  BlobInfo.MutexKey (BlobInfo.new 1 "" 10 "p/r" "sha256:aa") ["size"; "x"]
  = "quota:p:blob:sha256:aa:size:x"
  /\ ManifestInfo.MutexKey
       (ManifestInfo.new 1 "p/r" "v1" "" [] Descriptor.zero) ["size"; "x"]
     = "quota:p:manifest:v1:size:x"
  /\ ManifestInfo.BlobMutexKey
       (ManifestInfo.new 1 "p/r" "v1" "" [] Descriptor.zero)
       (Blob.mk 3 "sha256:cc" "" 10 0) ["size"; "x"]
     = "quota:p:blob:sha256:cc:size:x"
  /\ ChartVersionInfo.MutexKey (ChartVersionInfo.mk 1 "ns" "redis" "1.0")
       ["size"; "x"]
     = "quota:ns:chart:redis:version:1.0:size:x".
Proof.
  apply (mutex_keys_colon_joined
           (BlobInfo.new 1 "" 10 "p/r" "sha256:aa")
           (ManifestInfo.new 1 "p/r" "v1" "" [] Descriptor.zero)
           (Blob.mk 3 "sha256:cc" "" 10 0)
           (ChartVersionInfo.mk 1 "ns" "redis" "1.0")
           ["size"; "x"] "p" "r");
    reflexivity.
Defined.

End MutexKeys.

(** ** The memoised lookups *)
Module Memoization.
Import Stages.

Lemma Once_done_true (o : sync.Once) : sync.done o = true -> o = sync.mkOnce true.
Proof. destruct o as [d]; simpl; now intros ->. Qed.

Section WithStore.
Context `{DAO}.

(** Stages leave the journal alone; a query adds its entry. *)
Lemma journal_elapse (st : Stage) (w : World) :
  journal (elapse st w) = journal w.
Proof. reflexivity. Qed.

(** *** [BlobInfo.BlobExists] *)



(** Once the instance keeps its answer, the stages add nothing to the
    journal and each is answered from the instance. *)
Lemma journal_stages {C : Type} (stages : list (Stage * C)) (w : World) :
  journal (fold_left (fun w st => elapse (fst st) w) stages w) = journal w.
Proof.
  revert w. induction stages as [|st rest IH]; intros w; cbn;
    [reflexivity | now rewrite IH].
Qed.

Lemma run_cached {C I R : Type} (call : C -> I -> M (R * I))
    (kept : I -> Prop) (answer : I -> Stage * C -> R)
    (Hagain : forall st c info w,
        kept info ->
        call c info (elapse st w) = ((answer info (st, c), info), elapse st w)) :
  forall (stages : list (Stage * C)) (info : I) (w : World),
    kept info ->
    run call stages info w
    = ((map (answer info) stages, info),
       fold_left (fun w st => elapse (fst st) w) stages w).
Proof.
  induction stages as [|[st c] rest IH]; intros info w Hkept; cbn.
  - reflexivity.
  - rewrite (Hagain st c info w Hkept).
    now rewrite (IH info _ Hkept).
Qed.

(** The first stage asks, the others are answered from the instance. *)
Lemma run_first_then_cached {C I R : Type} (call : C -> I -> M (R * I))
    (kept : I -> Prop) (answer : I -> Stage * C -> R) (q : Query)
    (Hagain : forall st c info w,
        kept info ->
        call c info (elapse st w) = ((answer info (st, c), info), elapse st w))
    (st : Stage) (c : C) (rest : list (Stage * C)) (info info' : I)
    (w w' : World) (r : R) :
  call c info (elapse st w) = ((r, info'), w') ->
  kept info' ->
  journal w' = (journal w ++ [q])%list ->
  fst (fst (run call ((st, c) :: rest) info w)) = r :: map (answer info') rest
  /\ journal (snd (run call ((st, c) :: rest) info w))
     = (journal w ++ [q])%list.
Proof.
  intros Hfirst Hkept Hjournal. cbn. rewrite Hfirst.
  rewrite (run_cached call kept answer Hagain rest info' w' Hkept). cbn.
  split; [reflexivity|]. now rewrite journal_stages.
Qed.


(** *** [ManifestInfo.ManifestExists] *)

Lemma ManifestExists_first (info : ManifestInfo.t) (w : World) :
  sync.done (ManifestInfo.manifestExistOnce info) = false ->
  exists info' w',
    ManifestInfo.ManifestExists info w
    = (((let r := fst (store_GetTotalOfArtifacts
                         (ArtifactQuery.mk (ManifestInfo.ProjectID info)
                                           (ManifestInfo.Digest info))
                         (store w)) in
         (Z.ltb 0 (fst r), snd r)),
        info'), w')
    /\ sync.done (ManifestInfo.manifestExistOnce info') = true
    /\ (ManifestInfo.manifestExist info', ManifestInfo.manifestExistErr info')
       = (let r := fst (store_GetTotalOfArtifacts
                          (ArtifactQuery.mk (ManifestInfo.ProjectID info)
                                            (ManifestInfo.Digest info))
                          (store w)) in
          (Z.ltb 0 (fst r), snd r))
    /\ journal w'
       = (journal w ++ [Q_GetTotalOfArtifacts
                          (ArtifactQuery.mk (ManifestInfo.ProjectID info)
                                            (ManifestInfo.Digest info))])%list.
Proof.
  intros Hfresh. unfold ManifestInfo.ManifestExists, sync.Do. rewrite Hfresh.
  unfold dao.GetTotalOfArtifacts, query.
  destruct (store_GetTotalOfArtifacts _ (store w)) as [[total e] db] eqn:E.
  cbn. eexists _, _. repeat split.
Qed.

Lemma ManifestExists_again (info : ManifestInfo.t) (w : World) :
  sync.done (ManifestInfo.manifestExistOnce info) = true ->
  ManifestInfo.ManifestExists info w
  = (((ManifestInfo.manifestExist info, ManifestInfo.manifestExistErr info),
      info), w).
Proof.
  intros Hdone. unfold ManifestInfo.ManifestExists, sync.Do. rewrite Hdone. cbn.
  destruct info as [? ? ? ? ? ? ? ? o ? ? ? ?]; cbn in *.
  now rewrite (Once_done_true o Hdone).
Qed.

Lemma ManifestExists_once (st : Stage) (rest : list (Stage * unit))
    (info : ManifestInfo.t) (w : World) :
  sync.done (ManifestInfo.manifestExistOnce info) = false ->
  fst (fst (run (fun _ => ManifestInfo.ManifestExists) ((st, tt) :: rest) info w))
  = map (fun _ =>
           let r := fst (store_GetTotalOfArtifacts
                           (ArtifactQuery.mk (ManifestInfo.ProjectID info)
                                             (ManifestInfo.Digest info))
                           (on_store st (store w))) in
           (Z.ltb 0 (fst r), snd r))
        ((st, tt) :: rest)
  /\ journal (snd (run (fun _ => ManifestInfo.ManifestExists)
                       ((st, tt) :: rest) info w))
     = (journal w ++ [Q_GetTotalOfArtifacts
                        (ArtifactQuery.mk (ManifestInfo.ProjectID info)
                                          (ManifestInfo.Digest info))])%list.
Proof.
  intros Hfresh.
  destruct (ManifestExists_first info (elapse st w) Hfresh)
    as (info' & w' & Hcall & Hdone & Hkept & Hjournal).
  pose proof (run_first_then_cached (fun _ : unit => ManifestInfo.ManifestExists)
    (fun i => sync.done (ManifestInfo.manifestExistOnce i) = true)
    (fun i _ => (ManifestInfo.manifestExist i, ManifestInfo.manifestExistErr i))
    (Q_GetTotalOfArtifacts
       (ArtifactQuery.mk (ManifestInfo.ProjectID info) (ManifestInfo.Digest info)))
    (fun st c i w Hi => ManifestExists_again i (elapse st w) Hi)
    st tt rest info info' w w' _ Hcall Hdone Hjournal) as [Hanswers Hj].
  split; [|exact Hj].
  rewrite Hanswers, Hkept. reflexivity.
Qed.

(** *** [ManifestInfo.fetchArtifact], [IsNewTag], [Artifact] *)

Lemma fetchArtifact_first (info : ManifestInfo.t) (w : World) :
  sync.done (ManifestInfo.artifactOnce info) = false ->
  exists info' w',
    ManifestInfo.fetchArtifact info w
    = ((fst (store_GetArtifact (ManifestInfo.Repository info)
                               (ManifestInfo.Tag info) (store w)),
        info'), w')
    /\ keeps info (fst (store_GetArtifact (ManifestInfo.Repository info)
                                          (ManifestInfo.Tag info) (store w)))
             info'
    /\ clock w' = clock w
    /\ journal w'
       = (journal w ++ [Q_GetArtifact (ManifestInfo.Repository info)
                                      (ManifestInfo.Tag info)])%list.
Proof.
  intros Hfresh. unfold ManifestInfo.fetchArtifact, sync.Do. rewrite Hfresh.
  unfold dao.GetArtifact, query.
  destruct (store_GetArtifact _ _ (store w)) as [[a e] db] eqn:E.
  cbn. eexists _, _. unfold keeps. repeat split.
Qed.

Lemma fetchArtifact_again (info : ManifestInfo.t) (w : World) :
  sync.done (ManifestInfo.artifactOnce info) = true ->
  ManifestInfo.fetchArtifact info w
  = (((ManifestInfo.artifact info, ManifestInfo.artifactErr info), info), w).
Proof.
  intros Hdone. unfold ManifestInfo.fetchArtifact, sync.Do. rewrite Hdone. cbn.
  destruct info as [? ? ? ? ? ? ? ? ? ? ? o ?]; cbn in *.
  now rewrite (Once_done_true o Hdone).
Qed.

(** After a lookup that left [i] keeping [r], each accessor answers from
    [r]. *)
Lemma call_artifact_after_fetch (info i : ManifestInfo.t)
    (r : option Artifact.t * option error) (st : Stage) (c : ArtifactCall)
    (w0 w : World) :
  ManifestInfo.fetchArtifact i w0 = ((r, i), w) ->
  ManifestInfo.ProjectID i = ManifestInfo.ProjectID info ->
  ManifestInfo.Repository i = ManifestInfo.Repository info ->
  ManifestInfo.Tag i = ManifestInfo.Tag info ->
  ManifestInfo.Digest i = ManifestInfo.Digest info ->
  clock w = at_time st ->
  call_artifact c i w0 = ((answer_of info r (st, c), i), w).
Proof.
  intros Hfetch Hpid Hrepo Htag Hdigest Hclock.
  destruct c; unfold call_artifact, answer_of, ManifestInfo.IsNewTag,
    ManifestInfo.Artifact_, bind, ret, time_Now; rewrite Hfetch; cbn.
  - reflexivity.
  - reflexivity.
  - destruct (fst r) as [found|]; cbn;
      now rewrite ?Hpid, ?Hrepo, ?Htag, ?Hdigest, ?Hclock.
Qed.

Lemma call_artifact_again (info : ManifestInfo.t)
    (r : option Artifact.t * option error) (st : Stage) (c : ArtifactCall)
    (i : ManifestInfo.t) (w : World) :
  keeps info r i ->
  call_artifact c i (elapse st w) = ((answer_of info r (st, c), i), elapse st w).
Proof.
  intros (Hdone & Hr & Hpid & Hrepo & Htag & Hdigest).
  apply call_artifact_after_fetch; try assumption; [|reflexivity].
  rewrite (fetchArtifact_again i _ Hdone). now rewrite Hr.
Qed.

Lemma artifact_accessors_once (st : Stage) (c : ArtifactCall)
    (rest : list (Stage * ArtifactCall)) (info : ManifestInfo.t) (w : World) :
  sync.done (ManifestInfo.artifactOnce info) = false ->
  fst (fst (run call_artifact ((st, c) :: rest) info w))
  = map (answer_of info
           (fst (store_GetArtifact (ManifestInfo.Repository info)
                                   (ManifestInfo.Tag info)
                                   (on_store st (store w)))))
        ((st, c) :: rest)
  /\ journal (snd (run call_artifact ((st, c) :: rest) info w))
     = (journal w ++ [Q_GetArtifact (ManifestInfo.Repository info)
                                    (ManifestInfo.Tag info)])%list.
Proof.
  intros Hfresh.
  destruct (fetchArtifact_first info (elapse st w) Hfresh)
    as (info' & w' & Hfetch & Hkeeps & Hclock & Hjournal).
  set (r := fst (store_GetArtifact (ManifestInfo.Repository info)
                   (ManifestInfo.Tag info) (store (elapse st w)))) in *.
  assert (Hcall : call_artifact c info (elapse st w)
                  = ((answer_of info r (st, c), info'), w')).
  { destruct c; unfold call_artifact, answer_of, ManifestInfo.IsNewTag,
      ManifestInfo.Artifact_, bind, ret, time_Now; rewrite Hfetch; cbn.
    - reflexivity.
    - reflexivity.
    - destruct (fst r) as [found|]; cbn; [|reflexivity].
      now rewrite Hclock. }
  exact (run_first_then_cached call_artifact (keeps info r)
           (fun _ => answer_of info r)
           (Q_GetArtifact (ManifestInfo.Repository info) (ManifestInfo.Tag info))
           (fun st c i w Hi => call_artifact_again info r st c i w Hi)
           st c rest info info' w w' _ Hcall Hkeeps Hjournal).
Qed.


End WithStore.
End Memoization.

Module MemoizationExamples.
Import Stages Sample.


End MemoizationExamples.

(** ** Errors of the backing store and of the project manager *)
Module Failures.

Lemma error_eqb_eq (e1 e2 : error) : error_eqb e1 e2 = true <-> e1 = e2.
Proof.
  destruct e1 as [m1|i1 m1], e2 as [m2|i2 m2]; simpl;
    try (split; [discriminate | intros E; discriminate E]).
  - rewrite String.eqb_eq. split; [now intros -> | now intros [= ->]].
  - rewrite andb_true_iff, Nat.eqb_eq, String.eqb_eq.
    split; [now intros [-> ->] | now intros [= -> ->]].
Qed.

(** C6.  [SyncBlobs] sends the references of the manifest to the store; it
    returns no error when the store reports duplicate rows, the error of the
    store as it is for any other error, and no error when the store reports
    none. *)
Theorem SyncBlobs_duplicate_rows_is_success `{DAO}
    (info : ManifestInfo.t) (w : World) :
  (fst (store_SyncBlobs (ManifestInfo.References info) (store w))
   = Some ErrDupRows ->
   fst (ManifestInfo.SyncBlobs info w) = None)
  /\ (forall e : error,
        fst (store_SyncBlobs (ManifestInfo.References info) (store w)) = Some e ->
        e <> ErrDupRows ->
        fst (ManifestInfo.SyncBlobs info w) = Some e)
  /\ (fst (store_SyncBlobs (ManifestInfo.References info) (store w)) = None ->
      fst (ManifestInfo.SyncBlobs info w) = None)
  /\ journal (snd (ManifestInfo.SyncBlobs info w))
     = (journal w ++ [Q_SyncBlobs (ManifestInfo.References info)])%list.
Proof.
  unfold ManifestInfo.SyncBlobs, bind, dao.SyncBlobs, query, ret.
  destruct (store_SyncBlobs (ManifestInfo.References info) (store w))
    as [err db]; cbn [fst snd].
  repeat split.
  - intros ->. now rewrite (proj2 (error_eqb_eq _ _) eq_refl).
  - intros e -> Hne.
    destruct (error_eqb e ErrDupRows) eqn:E; [|reflexivity].
    apply error_eqb_eq in E. contradiction.
  - now intros ->.
  - destruct err as [e|]; [destruct (error_eqb e ErrDupRows)|]; reflexivity.
Qed.

(** C10.  When the project manager fails to look a project up, the policy
    checker answers with the strictest policy instead of an error: content
    trust is enabled, and vulnerability prevention is on with the severity
    Unknown and the empty whitelist. *)
Theorem policy_lookup_failure_is_strictest
    `{ProjectManager} `{!WhitelistManager}
    (name : string) (project : option Project) (err : error) :
  pm_Get name = (project, Some err) ->
  Util.ContentTrustEnabled name = Return true
  /\ Util.VulnerablePolicy name = Return (true, SevUnknown, CVEWhitelist_zero).
Proof.
  intros Hget. unfold Util.ContentTrustEnabled, Util.VulnerablePolicy.
  rewrite Hget. destruct project; split; reflexivity.
Qed.

Import Sample.

(** On the counting store, whose first upsert meets duplicate rows. *)
Lemma SyncBlobs_duplicate_rows_is_success_witness :
  fst (store_SyncBlobs [] 0) = Some ErrDupRows
  /\ fst (ManifestInfo.SyncBlobs
            (ManifestInfo.new 1 "a/b" "v1" "" [] Descriptor.zero) world0)
     = None.
Proof.
  split; [reflexivity|].
  apply (proj1 (SyncBlobs_duplicate_rows_is_success
                  (ManifestInfo.new 1 "a/b" "v1" "" [] Descriptor.zero) world0)).
  reflexivity.
Defined.

Lemma policy_lookup_failure_is_strictest_witness :
  Util.ContentTrustEnabled "library" = Return true
  /\ Util.VulnerablePolicy "library" = Return (true, SevUnknown, CVEWhitelist_zero).
Proof.
  apply (policy_lookup_failure_is_strictest "library" None
           (Foreign 3 "connection refused")).
  reflexivity.
Defined.

End Failures.

(** ** What [manifestURLRe] accepts *)
Module ManifestURL.
Import Regexp StringFacts RegexpFacts Shape.

Lemma all_chars_app (p : ascii -> bool) (s1 s2 : string) :
  all_chars p (s1 ++ s2) = all_chars p s1 && all_chars p s2.
Proof.
  induction s1 as [|a s1 IH]; simpl; [reflexivity|].
  now rewrite IH, andb_assoc.
Qed.

(** *** The languages of the parts *)

Lemma Lang_Concat_iff (r1 r2 : Regexp) (w : string) :
  Lang (Concat r1 r2) w
  <-> exists w1 w2, w = w1 ++ w2 /\ Lang r1 w1 /\ Lang r2 w2.
Proof.
  split.
  - intros L. inversion L as [ | | r1' r2' w1 w2 L1 L2 | | | | ]; subst.
    now exists w1, w2.
  - intros (w1 & w2 & -> & L1 & L2). now constructor.
Qed.

Lemma Lang_CharClass_iff (p : ascii -> bool) (w : string) :
  Lang (CharClass p) w <-> exists a, w = String a "" /\ p a = true.
Proof.
  split.
  - intros L. inversion L as [ | p' a Ha | | | | | ]; subst. now exists a.
  - intros (a & -> & Ha). now constructor.
Qed.

(** Induction on the iterations of a star. *)
Lemma Lang_Star_induction (r : Regexp) (P : string -> Prop) :
  P "" ->
  (forall w1 w2, Lang r w1 -> w1 <> "" -> Lang (Star r) w2 -> P w2 ->
                 P (w1 ++ w2)) ->
  forall w, Lang (Star r) w -> P w.
Proof.
  intros Hexit Hiter w L. remember (Star r) as sr eqn:E.
  induction L as [ | | | | | r0 | r0 w1 w2 L1 _ Hne L2 IH2 ];
    try discriminate E; injection E as ->.
  - exact Hexit.
  - apply Hiter; auto.
Qed.

Lemma Lang_Literal (l w : string) : Lang (Literal l) w <-> w = l.
Proof.
  revert w. induction l as [|a l IH]; intros w; simpl; split.
  - intros L. now inversion L.
  - intros ->. constructor.
  - intros L. inversion L as [ | | r1 r2 w1 w2 L1 L2 | | | | ]; subst.
    inversion L1 as [ | p b Hb | | | | | ]; subst.
    apply Ascii.eqb_eq in Hb. subst b.
    apply IH in L2. now subst.
  - intros ->. change (String a l) with (String a "" ++ l).
    constructor; [constructor; apply Ascii.eqb_refl | now apply IH].
Qed.

Lemma Lang_Star_class (p : ascii -> bool) (w : string) :
  Lang (Star (CharClass p)) w <-> all_chars p w = true.
Proof.
  split.
  - intros L. remember (Star (CharClass p)) as r eqn:E.
    induction L as [ | | | | | r0 | r0 w1 w2 L1 _ Hne L2 IH2 ];
      try discriminate E; injection E as ->.
    + reflexivity.
    + inversion L1 as [ | p' a Ha | | | | | ]; subst. simpl.
      now rewrite Ha, (IH2 eq_refl).
  - induction w as [|a w IH]; simpl; intros Hall.
    + constructor.
    + apply andb_true_iff in Hall as [Ha Hw].
      change (String a w) with (String a "" ++ w).
      constructor; [now constructor | discriminate | now apply IH].
Qed.

Lemma Lang_Plus_class (p : ascii -> bool) (w : string) :
  Lang (Plus (CharClass p)) w <-> w <> "" /\ all_chars p w = true.
Proof.
  unfold Plus. split.
  - intros L. inversion L as [ | | r1 r2 w1 w2 L1 L2 | | | | ]; subst.
    inversion L1 as [ | p' a Ha | | | | | ]; subst.
    apply Lang_Star_class in L2. simpl. rewrite Ha, L2.
    split; [discriminate | reflexivity].
  - intros [Hne Hall]. destruct w as [|a w]; [congruence|].
    simpl in Hall. apply andb_true_iff in Hall as [Ha Hw].
    change (String a w) with (String a "" ++ w).
    constructor; [now constructor | now apply Lang_Star_class].
Qed.

Lemma Lang_AtMost_class (p : ascii -> bool) (n : nat) (w : string) :
  Lang (AtMost n (CharClass p)) w
  <-> String.length w <= n /\ all_chars p w = true.
Proof.
  revert w. induction n as [|n IH]; intros w; simpl; split.
  - intros L. inversion L; subst. simpl. split; [lia | reflexivity].
  - intros [Hlen _]. destruct w; simpl in Hlen; [constructor | lia].
  - unfold Quest. intros L.
    inversion L as [ | | | r1 r2 w0 La | r1 r2 w0 Lb | | ]; subst.
    + inversion La as [ | | r1 r2 w1 w2 L1 L2 | | | | ]; subst.
      inversion L1 as [ | p' a Ha | | | | | ]; subst.
      apply IH in L2 as [Hlen Hall]. simpl. rewrite Ha, Hall.
      split; [lia | reflexivity].
    + inversion Lb; subst. simpl. split; [lia | reflexivity].
  - unfold Quest. intros [Hlen Hall]. destruct w as [|a w].
    + apply Lang_Alternate_r. constructor.
    + simpl in Hlen, Hall. apply andb_true_iff in Hall as [Ha Hw].
      apply Lang_Alternate_l.
      change (String a w) with (String a "" ++ w).
      constructor; [now constructor | apply IH; split; [lia | assumption]].
Qed.

(** A name component is a segment of the specification. *)
Lemma Lang_nameComponentRe (w : string) :
  Lang nameComponentRe w <-> Segment w.
Proof.
  unfold nameComponentRe. rewrite Lang_Concat_iff. split.
  - intros (run & tail & -> & Lrun & Ltail).
    apply Lang_Plus_class in Lrun. revert run Lrun.
    induction Ltail as [|w1 w2 L1 Hne L2 IH2] using Lang_Star_induction;
      intros run Lrun.
    + rewrite append_nil_r. now apply Segment_run.
    + apply Lang_Concat_iff in L1 as (sep & run2 & -> & Lsep & Lrun2).
      apply Lang_CharClass_iff in Lsep as (a & -> & Ha).
      apply Lang_Plus_class in Lrun2.
      rewrite append_assoc. simpl.
      apply Segment_sep; [assumption | assumption | now apply IH2].
  - induction 1 as [run Hrun | run sep seg Hrun Hsep _ IH].
    + exists run, "". rewrite append_nil_r.
      repeat split; [now apply Lang_Plus_class | constructor].
    + destruct IH as (run2 & tail & -> & Lrun2 & Ltail).
      exists run, (String sep (run2 ++ tail)).
      repeat split; [now apply Lang_Plus_class|].
      change (String sep (run2 ++ tail)) with ((String sep "" ++ run2) ++ tail).
      constructor; [ | discriminate | assumption].
      constructor; [now constructor | assumption].
Qed.

(** The repository group is a repository path of the specification and a
    slash. *)
Lemma Lang_component_slash (w : string) :
  Lang (Concat nameComponentRe (Literal "/")) w
  <-> exists seg, Segment seg /\ w = seg ++ "/".
Proof.
  rewrite Lang_Concat_iff. split.
  - intros (seg & sl & -> & Lseg & Lsl).
    apply Lang_nameComponentRe in Lseg. apply Lang_Literal in Lsl. subst sl.
    now exists seg.
  - intros (seg & Hseg & ->). exists seg, "/".
    repeat split; [now apply Lang_nameComponentRe | now apply Lang_Literal].
Qed.

Lemma Lang_repoPathRe (w : string) :
  Lang repoPathRe w <-> exists repo, RepoPath repo /\ w = repo ++ "/".
Proof.
  unfold repoPathRe, Plus. rewrite Lang_Concat_iff. split.
  - intros (x & tail & -> & Lx & Ltail).
    apply Lang_component_slash in Lx as (seg & Hseg & ->).
    revert seg Hseg.
    induction Ltail as [|w1 w2 L1 Hne L2 IH2] using Lang_Star_induction;
      intros seg Hseg.
    + exists seg. rewrite append_nil_r.
      split; [now apply RepoPath_one | reflexivity].
    + apply Lang_component_slash in L1 as (seg2 & Hseg2 & ->).
      destruct (IH2 seg2 Hseg2) as (repo2 & Hrepo2 & Erepo2).
      exists (seg ++ "/" ++ repo2). split; [now apply RepoPath_more|].
      rewrite Erepo2, !append_assoc. reflexivity.
  - intros (repo & Hrepo & ->).
    induction Hrepo as [seg Hseg | seg path Hseg _ IH].
    + exists (seg ++ "/"), "". rewrite append_nil_r.
      repeat split; [apply Lang_component_slash; now exists seg | constructor].
    + destruct IH as (x & tail & Ex & Lx & Ltail).
      exists (seg ++ "/"), (x ++ tail).
      split; [rewrite <- Ex, !append_assoc; reflexivity|].
      split; [apply Lang_component_slash; now exists seg|].
      constructor; [assumption | | assumption].
      apply Lang_component_slash in Lx as (seg2 & _ & ->).
      destruct seg2; discriminate.
Qed.

(** The reference group is a reference of the specification that begins
    with a word character. *)
Lemma word_in_class (a : ascii) : word a = true -> word_dot_colon_dash a = true.
Proof. unfold word_dot_colon_dash. now intros ->. Qed.

Lemma Lang_referenceRe (w : string) :
  Lang referenceRe w <-> Reference w /\ begins_with_word w.
Proof.
  unfold referenceRe, Reference, begins_with_word.
  rewrite Lang_Concat_iff. split.
  - intros (w1 & w2 & -> & L1 & L2).
    apply Lang_CharClass_iff in L1 as (a & -> & Ha).
    apply Lang_AtMost_class in L2 as [Hlen Hall]. simpl.
    rewrite (word_in_class a Ha), Hall.
    repeat split; try lia. now exists a, w2.
  - intros [[[Hlo Hhi] Hall] (a & rest & -> & Ha)].
    simpl in Hhi, Hall. apply andb_true_iff in Hall as [_ Hrest].
    exists (String a ""), rest.
    repeat split; [now constructor|].
    apply Lang_AtMost_class. split; [lia | assumption].
Qed.

(** *** The runs of the whole expression *)

Lemma Run_Concat_inv r1 r2 s pos c s2 pos2 c2 :
  Run (Concat r1 r2) s pos c s2 pos2 c2 ->
  exists s1 pos1 c1,
    Run r1 s pos c s1 pos1 c1 /\ Run r2 s1 pos1 c1 s2 pos2 c2.
Proof. intros Hrun. inversion Hrun; subst. eauto. Qed.

Lemma Run_Capture_inv i r s pos c s' pos' c'' :
  Run (Capture i r) s pos c s' pos' c'' ->
  exists c', Run r s pos c s' pos' c' /\ c'' = set_cap i (pos, pos') c'.
Proof. intros Hrun. inversion Hrun; subst. eauto. Qed.

Lemma Run_BeginText_inv s pos c s' pos' c' :
  Run BeginText s pos c s' pos' c' -> pos = 0 /\ s' = s /\ pos' = 0 /\ c' = c.
Proof. intros Hrun. inversion Hrun; subst. auto. Qed.

Lemma Run_Literal_inv l s pos c s' pos' c' :
  Run (Literal l) s pos c s' pos' c' ->
  s = l ++ s' /\ pos' = pos + String.length l /\ c' = c.
Proof.
  intros Hrun. apply Run_plain in Hrun as (w & L & -> & -> & ->).
  - apply Lang_Literal in L. now subst.
  - clear. induction l; simpl; auto.
Qed.

Lemma Run_Literal l s' pos c :
  Run (Literal l) (l ++ s') pos c s' (pos + String.length l) c.
Proof. apply Lang_Run. now apply Lang_Literal. Qed.

(** A run of [manifestURLRe] from the beginning of a path reads [/v2/], a
    word of the repository group, [manifests/] and a word of the reference
    group. *)
Lemma Run_manifestURLRe_inv path c s' pos' c' :
  Run manifestURLRe path 0 c s' pos' c' ->
  exists rp ref,
    Lang repoPathRe rp /\ Lang referenceRe ref
    /\ path = "/v2/" ++ rp ++ "manifests/" ++ ref ++ s'
    /\ pos' = 4 + String.length rp + 10 + String.length ref
    /\ c' = registers rp pos' c.
Proof.
  unfold manifestURLRe. intros Hrun.
  apply Run_Concat_inv in Hrun as (s0 & p0 & c0 & Hbegin & Hrun).
  apply Run_BeginText_inv in Hbegin as (_ & -> & -> & ->).
  apply Run_Concat_inv in Hrun as (s1 & p1 & c1 & Hv2 & Hrun).
  apply Run_Literal_inv in Hv2 as (-> & -> & ->).
  apply Run_Concat_inv in Hrun as (s2 & p2 & c2 & Hrepo & Hrun).
  apply Run_Capture_inv in Hrepo as (c2' & Hrepo & ->).
  apply Run_plain in Hrepo as (rp & Lrp & -> & -> & ->); [|reflexivity].
  apply Run_Concat_inv in Hrun as (s3 & p3 & c3 & Hman & Href).
  apply Run_Literal_inv in Hman as (-> & -> & ->).
  apply Run_Capture_inv in Href as (c3' & Href & ->).
  apply Run_plain in Href as (ref & Lref & -> & -> & ->); [|reflexivity].
  exists rp, ref. repeat split; assumption.
Qed.

Lemma Run_manifestURLRe rp ref s' c :
  Lang repoPathRe rp -> Lang referenceRe ref ->
  Run manifestURLRe ("/v2/" ++ rp ++ "manifests/" ++ ref ++ s') 0 c
      s' (4 + String.length rp + 10 + String.length ref)
      (registers rp (4 + String.length rp + 10 + String.length ref) c).
Proof.
  intros Lrp Lref. unfold manifestURLRe, registers.
  eapply Run_Concat; [apply Run_BeginText|].
  eapply Run_Concat; [apply (Run_Literal "/v2/")|].
  eapply Run_Concat.
  { apply Run_Capture. apply (Lang_Run _ _ Lrp). }
  eapply Run_Concat; [apply (Run_Literal "manifests/")|].
  apply Run_Capture. apply (Lang_Run _ _ Lref).
Qed.

(** An expression anchored at the beginning of the text matches at offset 0
    or nowhere. *)
Lemma search_anchored r s pos :
  pos <> 0 -> search (Concat BeginText r) s pos = None.
Proof.
  revert pos. induction s as [|a s IH]; intros pos Hpos; simpl;
    destruct (Nat.eqb_spec pos 0) as [E|_]; try contradiction; auto.
Qed.

Lemma search_manifestURLRe path :
  search manifestURLRe path 0
  = backtrack manifestURLRe path 0 no_caps
      (fun _ pos' c' => Some (set_cap 0 (0, pos') c')).
Proof.
  destruct path as [|a path]; cbn [search];
    destruct (backtrack manifestURLRe _ 0 no_caps _); try reflexivity.
  apply search_anchored. discriminate.
Qed.

(** The groups of a match. *)
Lemma group_repository rp rest pos' c :
  group ("/v2/" ++ rp ++ rest) (set_cap 0 (0, pos') (registers rp pos' c)) 1
  = rp.
Proof.
  unfold group, registers, set_cap. cbn [Nat.eqb].
  replace (4 + String.length rp - 4) with (String.length rp) by lia.
  apply (substring_middle "/v2/" rp rest).
Qed.

Lemma group_reference rp ref rest c :
  group ("/v2/" ++ rp ++ "manifests/" ++ ref ++ rest)
        (set_cap 0 (0, 4 + String.length rp + 10 + String.length ref)
           (registers rp (4 + String.length rp + 10 + String.length ref) c)) 2
  = ref.
Proof.
  unfold group, registers, set_cap. cbn [Nat.eqb].
  replace (4 + String.length rp + 10 + String.length ref
           - (4 + String.length rp + 10)) with (String.length ref) by lia.
  replace (4 + String.length rp + 10)
    with (String.length ("/v2/" ++ rp ++ "manifests/"))
    by (rewrite !length_append; simpl; lia).
  replace ("/v2/" ++ rp ++ "manifests/" ++ ref ++ rest)
    with (("/v2/" ++ rp ++ "manifests/") ++ ref ++ rest)
    by (now rewrite !append_assoc).
  apply substring_middle.
Qed.

Lemma TrimSuffix_slash (repo : string) :
  Strings.TrimSuffix (repo ++ "/") "/" = repo.
Proof.
  unfold Strings.TrimSuffix, Strings.HasSuffix.
  rewrite length_append. simpl String.length.
  replace (String.length repo + 1 - 1) with (String.length repo) by lia.
  rewrite substring_skip, substring_all.
  replace (Nat.leb 1 (String.length repo + 1)) with true
    by (symmetry; apply Nat.leb_le; lia).
  reflexivity.
Qed.

End ManifestURL.

(** ** The request matchers *)
Module Matchers.
Import Regexp StringFacts RegexpFacts Shape ManifestURL.

Lemma FindStringSubmatch_manifestURLRe (path : string) :
  (exists whole repo ref,
      begins_with_manifest path repo ref
      /\ FindStringSubmatch manifestURLRe 2 path = [whole; repo ++ "/"; ref])
  \/ (FindStringSubmatch manifestURLRe 2 path = []
      /\ forall repo ref, ~ begins_with_manifest path repo ref).
Proof.
  unfold FindStringSubmatch. rewrite search_manifestURLRe.
  destruct (backtrack manifestURLRe path 0 no_caps _) as [c|] eqn:E.
  - left.
    apply backtrack_sound in E as (s' & pos' & c' & Hrun & Ec).
    injection Ec as <-.
    apply Run_manifestURLRe_inv in Hrun as (rp & ref & Lrp & Lref & -> & -> & ->).
    apply Lang_repoPathRe in Lrp as (repo & Hrepo & ->).
    apply Lang_referenceRe in Lref as [Href Hword].
    eexists _, repo, ref. split.
    + split; [exact Hrepo | split; [exact Href | split; [exact Hword|]]].
      exists s'. now rewrite !append_assoc.
    + cbn [seq map]. rewrite group_repository, group_reference. reflexivity.
  - right. split; [reflexivity|].
    intros repo ref (Hrepo & Href & Hword & rest & ->).
    assert (Epath : "/v2/" ++ repo ++ "/manifests/" ++ ref ++ rest
                    = "/v2/" ++ (repo ++ "/") ++ "manifests/" ++ ref ++ rest)
      by (rewrite append_assoc; reflexivity).
    rewrite Epath in E. revert E.
    eapply backtrack_complete; [|discriminate].
    apply Run_manifestURLRe.
    + apply Lang_repoPathRe. now exists repo.
    + now apply Lang_referenceRe.
Qed.

(** [MatchManifestURL] matches exactly the paths that begin with a manifest
    endpoint, and returns a repository and a reference the path begins
    with. *)
Lemma MatchManifestURL_cases (req : http.Request) :
  (exists repo ref,
      begins_with_manifest (http.URL_Path req) repo ref
      /\ Util.MatchManifestURL req = (true, repo, ref))
  \/ (Util.MatchManifestURL req = (false, "", "")
      /\ forall repo ref, ~ begins_with_manifest (http.URL_Path req) repo ref).
Proof.
  unfold Util.MatchManifestURL.
  destruct (FindStringSubmatch_manifestURLRe (http.URL_Path req))
    as [(whole & repo & ref & Hshape & ->) | [-> Hnone]].
  - left. exists repo, ref. split; [assumption|].
    cbn. now rewrite TrimSuffix_slash.
  - right. split; [reflexivity | assumption].
Qed.

Lemma MatchManifestURL_matched (req : http.Request) (repo ref : string) :
  Util.MatchManifestURL req = (true, repo, ref) ->
  begins_with_manifest (http.URL_Path req) repo ref.
Proof.
  intros Hm.
  destruct (MatchManifestURL_cases req)
    as [(repo' & ref' & Hshape & E) | [E _]]; rewrite E in Hm.
  - now injection Hm as <- <-.
  - discriminate.
Qed.

Lemma MatchManifestURL_unmatched (req : http.Request) (repo ref : string) :
  Util.MatchManifestURL req = (false, repo, ref) -> repo = "" /\ ref = "".
Proof.
  intros Hm.
  destruct (MatchManifestURL_cases req)
    as [(repo' & ref' & Hshape & E) | [E _]]; rewrite E in Hm.
  - discriminate.
  - now injection Hm as <- <-.
Qed.

(** A reference is not empty. *)
Lemma matched_reference_not_empty (req : http.Request) (repo ref : string) :
  Util.MatchManifestURL req = (true, repo, ref) -> ref <> "".
Proof.
  intros Hm. apply MatchManifestURL_matched in Hm as (_ & _ & Hword & _).
  destruct Hword as (a & rest & -> & _). discriminate.
Qed.

End Matchers.

(** ** The manifest parsers *)
Module Parsers.
Import Matchers.

Section WithCollaborators.
Context `{Digest} `{DAO}.

(** C5.  Once [ParseManifestInfoFromReq] has read the body of the request,
    whatever comes next (a manifest that does not decode, a descriptor that
    does not decode, a project lookup that fails or finds nothing, or
    success), the request is left with a body that reads in full as the
    bytes that were read, and is otherwise as it was. *)
Theorem ParseManifestInfoFromReq_restores_body
    (req : http.Request) (w : World) (repo ref : string)
    (reader : ioutil.Reader) (body : list Byte.byte) :
  Util.MatchManifestURL req = (true, repo, ref) ->
  In (http.Header_Get (http.Header_ req) "Content-Type")
     [schema1_MediaTypeManifest; schema1_MediaTypeSignedManifest;
      schema2_MediaTypeManifest; ocispec_MediaTypeImageManifest] ->
  http.Body req = Some reader ->
  fst (ioutil.ReadAll reader) = (body, None) ->
  exists restored,
    snd (fst (Util.ParseManifestInfoFromReq req w))
    = http.set_Body req (Some restored)
    /\ fst (ioutil.ReadAll restored) = (body, None).
Proof.
  intros Hurl Hmedia Hbody Hread.
  unfold Util.ParseManifestInfoFromReq. rewrite Hurl. cbn [negb].
  assert (Hsupported :
            negb (String.eqb (http.Header_Get (http.Header_ req) "Content-Type")
                             schema1_MediaTypeManifest)
            && negb (String.eqb (http.Header_Get (http.Header_ req) "Content-Type")
                                schema1_MediaTypeSignedManifest)
            && negb (String.eqb (http.Header_Get (http.Header_ req) "Content-Type")
                                schema2_MediaTypeManifest)
            && negb (String.eqb (http.Header_Get (http.Header_ req) "Content-Type")
                                ocispec_MediaTypeImageManifest) = false).
  { destruct Hmedia as [<- | [<- | [<- | [<- | []]]]]; reflexivity. }
  rewrite Hsupported, Hbody.
  destruct (ioutil.ReadAll reader) as [[body0 err0] drained] eqn:Eread.
  cbn in Hread. injection Hread as -> ->.
  exists (ioutil.NopCloser_NewBuffer body).
  split; [|reflexivity].
  destruct (json_Unmarshal_Manifest body) as [manifest|e]; [|reflexivity].
  cbn [ioutil.ReadAll ioutil.NopCloser_NewBuffer ioutil.pending ioutil.failure].
  destruct (json_Unmarshal_Descriptor body) as [desc|e]; [|reflexivity].
  destruct (utils.ParseRepository repo) as [projectName rest].
  unfold bind, dao.GetProjectByName, query, ret.
  destruct (store_GetProjectByName projectName (store w))
    as [[[project|] [e|]] db]; reflexivity.
Qed.

(** C9.  [ParseManifestInfoFromPath] leaves the request, body included, as
    it was.  On a manifest URL whose project the store finds, it returns an
    info of that project and of the repository of the URL, without
    references and with the zero descriptor, in which one of the tag and
    the digest is the reference of the URL and the other is empty: the
    digest when the reference parses as a digest, the tag when it does
    not. *)
Theorem ParseManifestInfoFromPath_tag_or_digest :
  (forall req w, snd (fst (Util.ParseManifestInfoFromPath req w)) = req)
  /\ (forall req w repo ref project db,
         Util.MatchManifestURL req = (true, repo, ref) ->
         store_GetProjectByName (fst (utils.ParseRepository repo)) (store w)
         = ((Some project, None), db) ->
         exists info,
           fst (fst (Util.ParseManifestInfoFromPath req w)) = Ok info
           /\ ManifestInfo.ProjectID info = Project_ProjectID project
           /\ ManifestInfo.Repository info = repo
           /\ ManifestInfo.References info = []
           /\ ManifestInfo.Descriptor_ info = Descriptor.zero
           /\ ref <> ""
           /\ (snd (digest_Parse ref) = None ->
               ManifestInfo.Digest info = ref /\ ManifestInfo.Tag info = "")
           /\ (snd (digest_Parse ref) <> None ->
               ManifestInfo.Tag info = ref /\ ManifestInfo.Digest info = "")).
Proof.
  split.
  - intros req w. unfold Util.ParseManifestInfoFromPath.
    destruct (Util.MatchManifestURL req) as [[[|] repo] ref]; cbn [negb];
      [|reflexivity].
    destruct (utils.ParseRepository repo) as [projectName rest].
    unfold bind, dao.GetProjectByName, query, ret.
    destruct (store_GetProjectByName projectName (store w))
      as [[[project|] [e|]] db]; try reflexivity.
    cbn. destruct (digest_Validate ref); reflexivity.
  - intros req w repo ref project db Hurl Hproject.
    pose proof (matched_reference_not_empty req repo ref Hurl) as Hne.
    unfold Util.ParseManifestInfoFromPath. rewrite Hurl. cbn [negb].
    destruct (utils.ParseRepository repo) as [projectName rest].
    cbn [fst] in Hproject.
    unfold bind, dao.GetProjectByName, query, ret. rewrite Hproject.
    cbn. destruct (digest_Validate ref) as [e|];
      eexists; repeat split; cbn; try congruence; try assumption.
Qed.

End WithCollaborators.

Import Sample.

(** A push of one byte to [/v2/a/b/manifests/latest]. *)
Lemma ParseManifestInfoFromReq_restores_body_witness :
  let body := [Byte.x7b] in
  let req :=
    {| http.Method := "PUT"; http.URL_Path := "/v2/a/b/manifests/latest";
       http.Header_ := fun _ => [schema2_MediaTypeManifest];
       http.Body := Some (ioutil.NopCloser_NewBuffer body) |} in
  exists restored,
    snd (fst (Util.ParseManifestInfoFromReq req world0))
    = http.set_Body req (Some restored)
    /\ fst (ioutil.ReadAll restored) = (body, None).
Proof.
  intros body req.
  apply (ParseManifestInfoFromReq_restores_body req world0 "a/b" "latest"
           (ioutil.NopCloser_NewBuffer body) body).
  - vm_compute. reflexivity.
  - right. right. left. reflexivity.
  - reflexivity.
  - reflexivity.
Defined.

Lemma ParseManifestInfoFromPath_tag_or_digest_witness :
  exists info,
    fst (fst (Util.ParseManifestInfoFromPath
                (request "DELETE" "/v2/a/b/manifests/latest") world0))
    = Ok info
    /\ ManifestInfo.Tag info = "latest" /\ ManifestInfo.Digest info = "".
Proof.
  destruct (proj2 ParseManifestInfoFromPath_tag_or_digest
              (request "DELETE" "/v2/a/b/manifests/latest") world0
              "a/b" "latest" 1%Z 1)
    as (info & Hok & _ & _ & _ & _ & _ & _ & Htag).
  - vm_compute. reflexivity.
  - reflexivity.
  - exists info. split; [exact Hok|]. apply Htag. discriminate.
Defined.

End Parsers.

(** ** The match the search prefers

    On a path that is a manifest endpoint and nothing more, the repository
    group takes every component before [/manifests/] and the reference
    group takes the whole reference. *)
Module Preferred.
Import Regexp StringFacts RegexpFacts Shape ManifestURL Matchers.

(** Where all the runs of an expression end in the same state, the matcher
    is the continuation at that state. *)
Lemma backtrack_unique_run {R} r s pos c (k : Cont R) s1 pos1 c1 :
  Run r s pos c s1 pos1 c1 ->
  (forall s' pos' c',
      Run r s pos c s' pos' c' -> s' = s1 /\ pos' = pos1 /\ c' = c1) ->
  backtrack r s pos c k = k s1 pos1 c1.
Proof.
  intros Hrun Hunique.
  destruct (backtrack r s pos c k) as [res|] eqn:E.
  - apply backtrack_sound in E as (s' & pos' & c' & Hrun' & Hk).
    destruct (Hunique _ _ _ Hrun') as (-> & -> & ->). now rewrite Hk.
  - destruct (k s1 pos1 c1) as [res|] eqn:Ek; [|reflexivity].
    exfalso. revert E. eapply backtrack_complete; [exact Hrun|].
    rewrite Ek. discriminate.
Qed.

Lemma backtrack_Literal {R} l s' pos c (k : Cont R) :
  backtrack (Literal l) (l ++ s') pos c k = k s' (pos + String.length l) c.
Proof.
  revert pos. induction l as [|a l IH]; intros pos; simpl.
  - now rewrite Nat.add_0_r.
  - rewrite Ascii.eqb_refl, IH. f_equal. lia.
Qed.

(** *** Slashes *)

Lemma count_slash_app (s1 s2 : string) :
  count_slash (s1 ++ s2) = count_slash s1 + count_slash s2.
Proof.
  induction s1 as [|a s1 IH]; simpl; [reflexivity | rewrite IH; lia].
Qed.

Lemma no_slash_count (s : string) : no_slash s = true -> count_slash s = 0.
Proof.
  induction s as [|a s IH]; simpl; [reflexivity|].
  intros Hs. apply andb_true_iff in Hs as [Ha Hs].
  apply negb_true_iff in Ha. rewrite Ha, (IH Hs). reflexivity.
Qed.

Lemma no_slash_app (s1 s2 : string) :
  no_slash (s1 ++ s2) = no_slash s1 && no_slash s2.
Proof.
  induction s1 as [|a s1 IH]; simpl; [reflexivity|].
  now rewrite IH, andb_assoc.
Qed.

Lemma all_chars_no_slash (p : ascii -> bool) (s : string) :
  p "/"%char = false -> all_chars p s = true -> no_slash s = true.
Proof.
  intros Hp. induction s as [|a s IH]; simpl; [reflexivity|].
  intros Hs. apply andb_true_iff in Hs as [Ha Hs].
  rewrite (IH Hs), andb_true_r. apply negb_true_iff.
  destruct (Ascii.eqb_spec a "/") as [->|_]; [congruence | reflexivity].
Qed.

Lemma Segment_no_slash (seg : string) : Segment seg -> no_slash seg = true.
Proof.
  induction 1 as [run [_ Hrun] | run sep seg [_ Hrun] Hsep _ IH].
  - now apply (all_chars_no_slash lower_alnum).
  - rewrite no_slash_app. simpl.
    rewrite (all_chars_no_slash lower_alnum run eq_refl Hrun), IH.
    destruct (Ascii.eqb_spec sep "/") as [->|_]; [discriminate Hsep | reflexivity].
Qed.

Lemma Reference_no_slash (ref : string) : Reference ref -> no_slash ref = true.
Proof.
  intros [_ Hall]. now apply (all_chars_no_slash word_dot_colon_dash).
Qed.

(** The first slash of a string is where it is. *)
Lemma first_slash_unique (a b x y : string) :
  no_slash a = true -> no_slash b = true ->
  a ++ "/" ++ x = b ++ "/" ++ y -> a = b /\ x = y.
Proof.
  revert b. induction a as [|c a IH]; intros [|d b] Ha Hb E; simpl in *.
  - injection E as ->. auto.
  - injection E as <- _. discriminate Hb.
  - injection E as -> _. discriminate Ha.
  - injection E as -> E.
    apply andb_true_iff in Ha as [_ Ha]. apply andb_true_iff in Hb as [_ Hb].
    destruct (IH b Ha Hb E) as [-> ->]. auto.
Qed.

(** *** One component *)

Lemma componentRe_unique {R} seg t pos c (k : Cont R) :
  Segment seg ->
  backtrack componentRe (seg ++ "/" ++ t) pos c k
  = k t (pos + String.length seg + 1) c.
Proof.
  intros Hseg.
  assert (Lseg : Lang componentRe (seg ++ "/"))
    by (apply Lang_component_slash; now exists seg).
  apply backtrack_unique_run.
  - pose proof (Lang_Run _ _ Lseg t pos c) as Hrun.
    rewrite append_assoc, length_append, Nat.add_assoc in Hrun. exact Hrun.
  - intros s' pos' c' Hrun.
    apply Run_plain in Hrun as (w & Lw & Ew & -> & ->); [|reflexivity].
    apply Lang_component_slash in Lw as (seg' & Hseg' & ->).
    rewrite append_assoc in Ew.
    apply first_slash_unique in Ew as [-> ->];
      try now apply Segment_no_slash.
    rewrite length_append, Nat.add_assoc. auto.
Qed.

(** *** The loop of the repository group *)

Section Loop.
Context {R : Type} (K : Cont R).

(** What follows the repository group begins with [manifests/]. *)
Hypothesis K_manifests :
  forall s pos c res, K s pos c = Some res -> exists rest, s = "manifests/" ++ rest.

(** After the last component no further iteration leads to a match. *)
Lemma loop_after_last_component ref fuel pos c :
  no_slash ref = true ->
  star_loop (backtrack componentRe) K fuel ("manifests/" ++ ref) pos c
  = K ("manifests/" ++ ref) pos c.
Proof.
  intros Href. destruct fuel as [|fuel]; [reflexivity|]. cbn [star_loop].
  destruct (backtrack componentRe ("manifests/" ++ ref) pos c _)
    as [res|] eqn:E; [exfalso | reflexivity].
  apply backtrack_sound in E as (s1 & pos1 & c1 & Hrun1 & Hk).
  destruct (Nat.ltb pos pos1); [|discriminate].
  apply (star_loop_sound componentRe K res) in Hk
    as (s2 & pos2 & c2 & Hrun2 & Hk2);
    [|intros; now apply backtrack_sound].
  apply K_manifests in Hk2 as (rest & ->).
  apply Run_plain in Hrun1 as (w1 & L1 & E1 & _ & _); [|reflexivity].
  apply Lang_component_slash in L1 as (seg & _ & ->).
  apply Run_consumes in Hrun2 as (w2 & -> & _).
  apply (f_equal count_slash) in E1.
  rewrite !count_slash_app in E1. simpl in E1.
  rewrite (no_slash_count ref Href) in E1. lia.
Qed.

(** Before it, one more iteration is taken. *)
Lemma loop_takes_every_component repo :
  RepoPath repo ->
  forall ref fuel pos c res,
    no_slash ref = true ->
    String.length (repo ++ "/" ++ "manifests/" ++ ref) <= fuel ->
    K ("manifests/" ++ ref) (pos + String.length repo + 1) c = Some res ->
    star_loop (backtrack componentRe) K fuel
              (repo ++ "/" ++ "manifests/" ++ ref) pos c
    = Some res.
Proof.
  induction 1 as [seg Hseg | seg path Hseg _ IH];
    intros ref fuel pos c res Href Hfuel HK.
  - destruct fuel as [|fuel];
      [rewrite length_append in Hfuel; simpl in Hfuel; lia|].
    cbn [star_loop]. match goal with
    | |- context [backtrack componentRe (seg ++ "/" ++ ?t) pos c ?k] =>
        rewrite (componentRe_unique seg t pos c k Hseg)
    end.
    replace (Nat.ltb pos (pos + String.length seg + 1)) with true
      by (symmetry; apply Nat.ltb_lt; lia).
    rewrite (loop_after_last_component ref fuel _ c Href), HK. reflexivity.
  - destruct fuel as [|fuel];
      [rewrite length_append in Hfuel; simpl in Hfuel; lia|].
    cbn [star_loop]. rewrite append_assoc.
    change (("/" ++ path) ++ "/" ++ "manifests/" ++ ref)
      with ("/" ++ (path ++ "/" ++ "manifests/" ++ ref)).
    match goal with
    | |- context [backtrack componentRe (seg ++ "/" ++ ?t) pos c ?k] =>
        rewrite (componentRe_unique seg t pos c k Hseg)
    end.
    replace (Nat.ltb pos (pos + String.length seg + 1)) with true
      by (symmetry; apply Nat.ltb_lt; lia).
    rewrite (IH ref fuel (pos + String.length seg + 1) c res Href);
      [reflexivity | | ].
    + rewrite !length_append in Hfuel. simpl in Hfuel.
      rewrite !length_append. simpl. lia.
    + rewrite <- HK. f_equal.
      rewrite !length_append. simpl. lia.
Qed.

(** The repository group on a path that goes on with [/manifests/] and a
    reference. *)
Lemma repoPathRe_takes_every_component repo ref pos c res :
  RepoPath repo -> no_slash ref = true ->
  K ("manifests/" ++ ref) (pos + String.length repo + 1) c = Some res ->
  backtrack repoPathRe (repo ++ "/" ++ "manifests/" ++ ref) pos c K = Some res.
Proof.
  intros Hrepo Href HK.
  change (backtrack repoPathRe ?s pos c K)
    with (backtrack componentRe s pos c
            (fun s' pos' c' =>
               star_loop (backtrack componentRe) K (String.length s') s' pos' c')).
  destruct Hrepo as [seg Hseg | seg path Hseg Hpath].
  - match goal with
    | |- context [backtrack componentRe (seg ++ "/" ++ ?t) pos c ?k] =>
        rewrite (componentRe_unique seg t pos c k Hseg)
    end.
    now rewrite (loop_after_last_component ref _ _ c Href).
  - rewrite append_assoc.
    change (("/" ++ path) ++ "/" ++ "manifests/" ++ ref)
      with ("/" ++ (path ++ "/" ++ "manifests/" ++ ref)).
    match goal with
    | |- context [backtrack componentRe (seg ++ "/" ++ ?t) pos c ?k] =>
        rewrite (componentRe_unique seg t pos c k Hseg)
    end.
    apply loop_takes_every_component; try assumption; [lia|].
    rewrite <- HK. f_equal. rewrite !length_append. simpl. lia.
Qed.

End Loop.

(** *** The reference group *)

Lemma AtMost_takes_all {R} (p : ascii -> bool) (n : nat) :
  forall w pos c (k : Cont R) res,
    String.length w <= n -> all_chars p w = true ->
    k "" (pos + String.length w) c = Some res ->
    backtrack (AtMost n (CharClass p)) w pos c k = Some res.
Proof.
  induction n as [|n IH]; intros w pos c k res Hlen Hall Hk.
  - destruct w; simpl in Hlen; [|lia].
    simpl in *. now rewrite Nat.add_0_r in Hk.
  - destruct w as [|a w]; simpl in Hlen, Hall, Hk.
    + cbn. now rewrite Nat.add_0_r in Hk.
    + apply andb_true_iff in Hall as [Ha Hw].
      change (backtrack (AtMost (S n) (CharClass p)) (String a w) pos c k)
        with (match (if p a then backtrack (AtMost n (CharClass p)) w (S pos) c k
                     else None) with
              | Some res0 => Some res0
              | None => k (String a w) pos c
              end).
      rewrite Ha, (IH w (S pos) c k res); try assumption; [reflexivity | lia|].
      rewrite <- Hk. f_equal. lia.
Qed.

Lemma referenceRe_takes_all {R} ref pos c (k : Cont R) res :
  Reference ref -> begins_with_word ref ->
  k "" (pos + String.length ref) c = Some res ->
  backtrack referenceRe ref pos c k = Some res.
Proof.
  intros [[_ Hlen] Hall] (a & rest & -> & Ha) Hk.
  simpl in Hlen, Hall, Hk. apply andb_true_iff in Hall as [_ Hrest].
  change (backtrack referenceRe (String a rest) pos c k)
    with (if word a
          then backtrack (AtMost 127 (CharClass word_dot_colon_dash))
                         rest (S pos) c k
          else None).
  rewrite Ha. apply AtMost_takes_all; [lia | assumption|].
  rewrite <- Hk. f_equal. lia.
Qed.

(** *** The whole expression *)

Lemma backtrack_manifestURLRe_exact repo ref :
  RepoPath repo -> Reference ref -> begins_with_word ref ->
  backtrack manifestURLRe ("/v2/" ++ (repo ++ "/") ++ "manifests/" ++ ref ++ "")
            0 no_caps (fun _ pos' c' => Some (set_cap 0 (0, pos') c'))
  = Some (set_cap 0 (0, 4 + String.length (repo ++ "/") + 10 + String.length ref)
            (registers (repo ++ "/")
               (4 + String.length (repo ++ "/") + 10 + String.length ref)
               no_caps)).
Proof.
  intros Hrepo Href Hword.
  rewrite append_nil_r, append_assoc.
  unfold manifestURLRe.
  change (backtrack (Concat BeginText ?r) ?s 0 ?c ?k)
    with (backtrack (Literal "/v2/") s 0 c
            (fun s1 p1 c1 =>
               backtrack repoPathRe s1 p1 c1
                 (fun s2 p2 c2 =>
                    backtrack (Literal "manifests/") s2 p2
                      (set_cap 1 (p1, p2) c2)
                      (fun s3 p3 c3 =>
                         backtrack referenceRe s3 p3 c3
                           (fun s4 p4 c4 =>
                              Some (set_cap 0 (0, p4)
                                      (set_cap 2 (p3, p4) c4))))))).
  rewrite (backtrack_Literal "/v2/").
  apply repoPathRe_takes_every_component.
  - intros s pos c res Hk.
    apply backtrack_sound in Hk as (s' & pos' & c' & Hrun & _).
    apply Run_Literal_inv in Hrun as (-> & _ & _). now exists s'.
  - assumption.
  - now apply Reference_no_slash.
  - rewrite (backtrack_Literal "manifests/").
    apply referenceRe_takes_all; try assumption.
    unfold registers. rewrite !length_append. simpl.
    repeat f_equal; lia.
Qed.

(** On a manifest endpoint whose reference begins with a word character,
    [MatchManifestURL] returns its repository and its reference. *)
Lemma MatchManifestURL_exact (req : http.Request) (repo ref : string) :
  ManifestPath (http.URL_Path req) repo ref -> begins_with_word ref ->
  Util.MatchManifestURL req = (true, repo, ref).
Proof.
  intros (Hrepo & Href & Epath) Hword.
  assert (E : http.URL_Path req
              = "/v2/" ++ (repo ++ "/") ++ "manifests/" ++ ref ++ "")
    by (rewrite Epath, append_nil_r, append_assoc; reflexivity).
  unfold Util.MatchManifestURL, FindStringSubmatch.
  rewrite search_manifestURLRe, E.
  rewrite (backtrack_manifestURLRe_exact repo ref Hrepo Href Hword).
  cbn [seq map List.length Nat.eqb nth].
  now rewrite group_repository, group_reference, TrimSuffix_slash.
Qed.

End Preferred.

(** ** The matchers by method *)
Module Methods.
Import Shape Matchers Preferred.

Section WithDigest.
Context `{Digest}.

(** C3, amended.  On the path [/v2/a/b/manifests/latest],
    [MatchPullManifest] returns [(true, "a/b", "latest")] for the method GET
    and [MatchPushManifest] does for the method PUT.  For the method DELETE,
    [MatchDeleteManifest] matches when the reference that [MatchManifestURL]
    returns parses as a digest: on [/v2/a/b/manifests/<reference>] this is
    every reference of 1 to 128 characters among word characters and [.:-],
    the first a word character, that parses as a digest.  It does not match
    the reference [latest], which does not parse.  Each matcher returns no
    match for any other method. *)
Theorem manifest_matchers_by_method :
  (forall req,
      http.Method req = "GET" ->
      http.URL_Path req = "/v2/a/b/manifests/latest" ->
      Util.MatchPullManifest req = (true, "a/b", "latest"))
  /\ (forall req,
        http.Method req = "PUT" ->
        http.URL_Path req = "/v2/a/b/manifests/latest" ->
        Util.MatchPushManifest req = (true, "a/b", "latest"))
  /\ (forall req reference,
        http.Method req = "DELETE" ->
        http.URL_Path req = "/v2/a/b/manifests/" ++ reference ->
        Reference reference -> begins_with_word reference ->
        snd (digest_Parse reference) = None ->
        Util.MatchDeleteManifest req = (true, "a/b", reference))
  /\ (forall req repo ref,
        http.Method req = "DELETE" ->
        Util.MatchManifestURL req = (true, repo, ref) ->
        snd (digest_Parse ref) = None ->
        Util.MatchDeleteManifest req = (true, repo, ref))
  /\ (forall req,
        http.Method req = "DELETE" ->
        http.URL_Path req = "/v2/a/b/manifests/latest" ->
        snd (digest_Parse "latest") <> None ->
        fst (fst (Util.MatchDeleteManifest req)) = false)
  /\ (forall req,
        http.Method req <> "GET" ->
        Util.MatchPullManifest req = (false, "", ""))
  /\ (forall req,
        http.Method req <> "PUT" ->
        Util.MatchPushManifest req = (false, "", ""))
  /\ (forall req,
        http.Method req <> "DELETE" ->
        Util.MatchDeleteManifest req = (false, "", "")).
Proof.
  assert (Hlatest : forall req,
             http.URL_Path req = "/v2/a/b/manifests/latest" ->
             Util.MatchManifestURL req = (true, "a/b", "latest")).
  { intros req Hpath. unfold Util.MatchManifestURL. rewrite Hpath.
    vm_compute. reflexivity. }
  assert (Hdelete : forall req repo ref,
             http.Method req = "DELETE" ->
             Util.MatchManifestURL req = (true, repo, ref) ->
             snd (digest_Parse ref) = None ->
             Util.MatchDeleteManifest req = (true, repo, ref)).
  { intros req repo ref Hm Hurl Hdigest. unfold Util.MatchDeleteManifest.
    rewrite Hm, Hurl. cbn. cbn in Hdigest. now rewrite Hdigest. }
  repeat split.
  - intros req Hm Hpath. unfold Util.MatchPullManifest.
    rewrite Hm. cbn. now apply Hlatest.
  - intros req Hm Hpath. unfold Util.MatchPushManifest.
    rewrite Hm. cbn. now apply Hlatest.
  - intros req reference Hm Hpath Href Hword Hdigest.
    apply Hdelete; try assumption.
    apply MatchManifestURL_exact; [|assumption].
    split; [|split; [assumption|]].
    + apply (RepoPath_more "a" "b"); [|apply RepoPath_one];
        apply Segment_run; (split; [discriminate | reflexivity]).
    + rewrite Hpath. reflexivity.
  - exact Hdelete.
  - intros req Hm Hpath Hdigest. unfold Util.MatchDeleteManifest.
    rewrite Hm, (Hlatest req Hpath). cbn. cbn in Hdigest.
    destruct (digest_Validate "latest"); [reflexivity | contradiction].
  - intros req Hm. unfold Util.MatchPullManifest, http.MethodGet.
    apply String.eqb_neq in Hm. now rewrite Hm.
  - intros req Hm. unfold Util.MatchPushManifest, http.MethodPut.
    apply String.eqb_neq in Hm. now rewrite Hm.
  - intros req Hm. unfold Util.MatchDeleteManifest, http.MethodDelete.
    apply String.eqb_neq in Hm. now rewrite Hm.
Qed.

(** C4, at a request the code answers otherwise.  A DELETE of
    [/v2/a/b/manifests/latest], whose reference is not a digest, is not
    matched, yet the repository and the reference are returned as the URL
    gives them, not empty. *)
Theorem MatchDeleteManifest_tag_returns_groups (req : http.Request) :
  http.Method req = "DELETE" ->
  http.URL_Path req = "/v2/a/b/manifests/latest" ->
  snd (digest_Parse "latest") <> None ->
  Util.MatchDeleteManifest req = (false, "a/b", "latest").
Proof.
  intros Hm Hpath Hdigest. unfold Util.MatchDeleteManifest.
  rewrite Hm. cbn [String.eqb negb http.MethodDelete].
  replace (Util.MatchManifestURL req) with (true, "a/b", "latest")
    by (unfold Util.MatchManifestURL; rewrite Hpath; vm_compute; reflexivity).
  cbn in *. destruct (digest_Validate "latest"); [reflexivity | contradiction].
Qed.

End WithDigest.

Import Sample.

(** C3, as stated, fails for a digest of more than 128 characters.  A
    SHA-512 digest has 135 and parses as a digest, yet a DELETE of
    [/v2/a/b/manifests/<that digest>] is not matched: [MatchManifestURL]
    returns the first 128 characters as the reference, and these do not
    parse. *)
Lemma MatchDeleteManifest_long_digest_counterexample :
  let req :=
    Sample.request "DELETE" ("/v2/a/b/manifests/" ++ LongDigest.sha512_digest) in
  String.length LongDigest.sha512_digest = 135
  /\ snd (@digest_Parse LongDigest.sha256_or_sha512 LongDigest.sha512_digest)
     = None
  /\ Util.MatchManifestURL req = (true, "a/b", LongDigest.sha512_digest_cut)
  /\ snd (@digest_Parse LongDigest.sha256_or_sha512
            LongDigest.sha512_digest_cut) <> None
  /\ @Util.MatchDeleteManifest LongDigest.sha256_or_sha512 req
     = (false, "a/b", LongDigest.sha512_digest_cut).
Proof.
  cbv zeta. split; [reflexivity|].
  split; [vm_compute; reflexivity|].
  split; [vm_compute; reflexivity|].
  split; [discriminate|].
  vm_compute. reflexivity.
Qed.

Lemma manifest_matchers_by_method_witness :
  Util.MatchPullManifest (request "GET" "/v2/a/b/manifests/latest")
  = (true, "a/b", "latest")
  /\ Util.MatchPushManifest (request "PUT" "/v2/a/b/manifests/latest")
     = (true, "a/b", "latest")
  /\ Util.MatchDeleteManifest
       (request "DELETE"
          "/v2/a/b/manifests/sha256:0123456789abcdef0123456789abcdef0123456789abcdef0123456789abcdef")
     = (true, "a/b",
        "sha256:0123456789abcdef0123456789abcdef0123456789abcdef0123456789abcdef")
  /\ fst (fst (Util.MatchDeleteManifest
                 (request "DELETE" "/v2/a/b/manifests/latest"))) = false
  /\ Util.MatchPullManifest (request "POST" "/v2/a/b/manifests/latest")
     = (false, "", "").
Proof.
  destruct manifest_matchers_by_method
    as (Hget & Hput & Hdelete & _ & Htag & Hnoget & _ & _).
  split; [|split; [|split; [|split]]].
  - apply Hget; reflexivity.
  - apply Hput; reflexivity.
  - apply Hdelete; try reflexivity.
    + split; [simpl; lia | reflexivity].
    + exists "s"%char. eexists. split; reflexivity.
  - apply Htag; [reflexivity | reflexivity | discriminate].
  - apply Hnoget. discriminate.
Defined.

Lemma MatchDeleteManifest_tag_returns_groups_witness :
  Util.MatchDeleteManifest (request "DELETE" "/v2/a/b/manifests/latest")
  = (false, "a/b", "latest").
Proof.
  apply MatchDeleteManifest_tag_returns_groups;
    [reflexivity | reflexivity | discriminate].
Defined.

End Methods.

(** ** The manifest endpoint *)
Module Endpoint.
Import StringFacts Shape ManifestURL Matchers Preferred.

Lemma last_char_app (x s : string) : s <> "" -> last_char (x ++ s) = last_char s.
Proof.
  intros Hs. induction x as [|a x IH]; simpl; [reflexivity|].
  rewrite IH. destruct (x ++ s) eqn:E; [|reflexivity].
  destruct x; [simpl in E; congruence | discriminate].
Qed.

Lemma last_char_in_class (p : ascii -> bool) (s : string) (a : ascii) :
  all_chars p s = true -> last_char s = Some a -> p a = true.
Proof.
  induction s as [|b s IH]; simpl; [discriminate|].
  intros Hall Hlast. apply andb_true_iff in Hall as [Hb Hs].
  destruct s; [now injection Hlast as <- | now apply IH].
Qed.

(** A manifest endpoint does not end with a slash. *)
Lemma ManifestPath_last_char (path repo ref : string) :
  ManifestPath path repo ref -> last_char path <> Some "/"%char.
Proof.
  intros (_ & [[Hlen _] Hall] & ->) Hlast.
  replace ("/v2/" ++ repo ++ "/manifests/" ++ ref)
    with (("/v2/" ++ repo ++ "/manifests/") ++ ref) in Hlast
    by (rewrite !append_assoc; reflexivity).
  rewrite last_char_app in Hlast by (destruct ref; [simpl in Hlen; lia | discriminate]).
  now apply (last_char_in_class _ _ _ Hall) in Hlast.
Qed.

(** C8, as stated, fails twice.  The path [/v2/a/manifests/.x] has the
    shape of the specification, with the reference [.x], and is not
    matched.  The path [/v2/a/b/manifests/latest/] has not, and is
    matched. *)
Lemma MatchManifestURL_shape_counterexample :
  (ManifestPath "/v2/a/manifests/.x" "a" ".x"
   /\ Util.MatchManifestURL (Sample.request "GET" "/v2/a/manifests/.x")
      = (false, "", ""))
  /\ ((forall repo ref, ~ ManifestPath "/v2/a/b/manifests/latest/" repo ref)
      /\ Util.MatchManifestURL (Sample.request "GET" "/v2/a/b/manifests/latest/")
         = (true, "a/b", "latest")).
Proof.
  split; split.
  - split; [|split].
    + apply RepoPath_one, Segment_run. split; [discriminate | reflexivity].
    + split; [simpl; lia | reflexivity].
    + reflexivity.
  - vm_compute. reflexivity.
  - intros repo ref Hshape.
    apply ManifestPath_last_char in Hshape. now apply Hshape.
  - vm_compute. reflexivity.
Qed.

(** C8, amended.  [MatchManifestURL] matches exactly the paths that begin
    with [/v2/<repo-path>/manifests/<reference>], the repository path being
    one or more slash-separated segments of lowercase alphanumerics with
    single separators among [._-] between runs, and the reference 1 to 128
    characters among the word characters and [.:-] of which the first is a
    word character.  It returns a repository and a reference the path
    begins with; they are the repository and the reference of the path when
    the path is such an endpoint and nothing more.  For every other path it
    returns [(false, "", "")]. *)
Theorem MatchManifestURL_matches_prefix_shape (req : http.Request) :
  (forall repo ref,
      ManifestPath (http.URL_Path req) repo ref -> begins_with_word ref ->
      Util.MatchManifestURL req = (true, repo, ref))
  /\ (forall repo ref,
         Util.MatchManifestURL req = (true, repo, ref) ->
         begins_with_manifest (http.URL_Path req) repo ref)
  /\ ((exists repo ref, begins_with_manifest (http.URL_Path req) repo ref) ->
      fst (fst (Util.MatchManifestURL req)) = true)
  /\ ((forall repo ref, ~ begins_with_manifest (http.URL_Path req) repo ref) ->
      Util.MatchManifestURL req = (false, "", "")).
Proof.
  split; [|split; [|split]].
  - intros repo ref. apply MatchManifestURL_exact.
  - intros repo ref. apply MatchManifestURL_matched.
  - intros (repo & ref & Hshape).
    destruct (MatchManifestURL_cases req)
      as [(repo' & ref' & _ & ->) | [_ Hnone]]; [reflexivity|].
    now destruct (Hnone repo ref).
  - intros Hnone.
    destruct (MatchManifestURL_cases req)
      as [(repo & ref & Hshape & _) | [E _]]; [|exact E].
    now destruct (Hnone repo ref).
Qed.

Lemma MatchManifestURL_matches_prefix_shape_witness :
  Util.MatchManifestURL (Sample.request "GET" "/v2/a/b/manifests/latest")
  = (true, "a/b", "latest")
  /\ begins_with_manifest "/v2/a/b/manifests/latest/" "a/b" "latest".
Proof.
  assert (Hrun : forall a, lower_alnum a = true -> AlnumRun (String a ""))
    by (intros a Ha; split; [discriminate | simpl; now rewrite Ha]).
  split.
  - apply (proj1 (MatchManifestURL_matches_prefix_shape
                    (Sample.request "GET" "/v2/a/b/manifests/latest"))).
    + split; [|split].
      * apply (RepoPath_more "a" "b");
          [|apply RepoPath_one]; apply Segment_run, Hrun; reflexivity.
      * split; [simpl; lia | reflexivity].
      * reflexivity.
    + exists "l"%char, "atest". split; reflexivity.
  - apply (proj1 (proj2 (MatchManifestURL_matches_prefix_shape
                           (Sample.request "GET" "/v2/a/b/manifests/latest/")))).
    vm_compute. reflexivity.
Defined.

End Endpoint.

(** ** Context propagation *)
Module SlotFacts.
Import Slots.

Section WithOCI.
Context `{OCI}.

(** After any sequence of attachments to any context, each of the four
    slots holds the last info attached to it, reported present, or, when
    none was attached to it, what the context held before: the slots do not
    disturb each other, and values under keys of other packages disturb
    none. *)
Theorem slots_hold_last_attached (ctx : context.Context) (l : list Attach) :
  slots (fold_left attach l ctx)
  = (slot_after (ImageInfoFromContext ctx) (last_picked picks_image l),
     slot_after (BlobInfoFromContext ctx) (last_picked picks_blob l),
     slot_after (ChartVersionInfoFromContext ctx) (last_picked picks_chart l),
     slot_after (ManifestInfoFromContext ctx) (last_picked picks_manifest l)).
Proof.
  revert ctx. induction l as [|a l IH]; intros ctx; [reflexivity|].
  cbn [fold_left last_picked]. rewrite IH.
  destruct (last_picked picks_image l), (last_picked picks_blob l),
    (last_picked picks_chart l), (last_picked picks_manifest l);
    destruct a; reflexivity.
Qed.

(** A slot whose key does not occur in a context is reported absent, with
    the nil pointer; and a value attached under a key of another package
    changes no slot. *)
Theorem absent_slot_is_reported (ctx : context.Context) :
  (context.has_key ctx ImageInfoCtxKey = false ->
   ImageInfoFromContext ctx = (None, false))
  /\ (context.has_key ctx blobInfoKey = false ->
      BlobInfoFromContext ctx = (None, false))
  /\ (context.has_key ctx chartVersionInfoKey = false ->
      ChartVersionInfoFromContext ctx = (None, false))
  /\ (context.has_key ctx manifestInfoKey = false ->
      ManifestInfoFromContext ctx = (None, false))
  /\ (forall id val,
         slots (context.WithValue ctx (context.foreignKey id) val) = slots ctx).
Proof.
  assert (Hnil : forall key, context.has_key ctx key = false ->
                             context.Value ctx key = context.Nil).
  { intros key. induction ctx as [|parent IH k val]; simpl; [reflexivity|].
    intros Hk. apply orb_false_iff in Hk as [Hk Hparent].
    rewrite Hk. now apply IH. }
  repeat split;
    try (intros Hk; unfold ImageInfoFromContext, BlobInfoFromContext,
           ChartVersionInfoFromContext, ManifestInfoFromContext;
         now rewrite (Hnil _ Hk)).
Qed.

End WithOCI.

Import Sample.

Lemma absent_slot_is_reported_witness :
  BlobInfoFromContext
    (NewManifestInfoContext context.Background None)
  = (None, false).
Proof.
  apply (proj1 (proj2 (absent_slot_is_reported
                         (NewManifestInfoContext context.Background None)))).
  reflexivity.
Defined.

End SlotFacts.

(** ** The outcomes of the manifest parsers *)
Module ParserOutcomes.
Import KeyShape Outcomes Matchers.

Lemma supported_test (mediaType : string) :
  supported mediaType -> unsupported_test mediaType = false.
Proof. intros [<- | [<- | [<- | [<- | []]]]]; reflexivity. Qed.

Lemma not_supported_test (mediaType : string) :
  ~ supported mediaType -> unsupported_test mediaType = true.
Proof.
  intros Hno. unfold unsupported_test, supported in *.
  repeat (apply andb_true_iff; split); apply negb_true_iff, String.eqb_neq;
    intros E; apply Hno; simpl; auto.
Qed.

Section WithCollaborators.
Context `{Digest} `{DAO}.

(** A request that is turned away before its body is read is left as it
    was, and so is the world: the store is not queried.  The checks come in
    this order: the URL is not a manifest URL; the content type is none of
    the four manifest media types; there is no body. *)
Theorem ParseManifestInfoFromReq_turns_away_untouched
    (req : http.Request) (w : World) :
  (fst (fst (Util.MatchManifestURL req)) = false ->
   Util.ParseManifestInfoFromReq req w
   = ((Err (Errorf ("not match url " ++ http.URL_Path req ++ " for manifest")),
       req), w))
  /\ (fst (fst (Util.MatchManifestURL req)) = true ->
      ~ supported (content_type req) ->
      Util.ParseManifestInfoFromReq req w
      = ((Err (Errorf ("unsupported content type for manifest: "
                       ++ content_type req)), req), w))
  /\ (fst (fst (Util.MatchManifestURL req)) = true ->
      supported (content_type req) ->
      http.Body req = None ->
      Util.ParseManifestInfoFromReq req w
      = ((Err (Errorf "body missing"), req), w)).
Proof.
  unfold Util.ParseManifestInfoFromReq, content_type.
  destruct (Util.MatchManifestURL req) as [[matched repo] ref]; cbn [fst].
  split; [|split].
  - intros ->. reflexivity.
  - intros -> Hno. cbn [negb].
    fold (unsupported_test (http.Header_Get (http.Header_ req) "Content-Type")).
    now rewrite (not_supported_test _ Hno).
  - intros -> Hyes Hbody. cbn [negb].
    fold (unsupported_test (http.Header_Get (http.Header_ req) "Content-Type")).
    now rewrite (supported_test _ Hyes), Hbody.
Qed.

(** When reading the body fails, the error of the reader is returned as it
    is, whatever was read before it, and the store is not queried.  The body
    is not put back: the request is left with the reader it came with, as
    the failed read has left it. *)
Theorem ParseManifestInfoFromReq_read_failure
    (req : http.Request) (w : World) (reader : ioutil.Reader) (e : error) :
  fst (fst (Util.MatchManifestURL req)) = true ->
  supported (content_type req) ->
  http.Body req = Some reader ->
  ioutil.failure reader = Some e ->
  Util.ParseManifestInfoFromReq req w
  = ((Err e, http.set_Body req (Some (snd (ioutil.ReadAll reader)))), w).
Proof.
  intros Hurl Hyes Hbody Hfail.
  unfold Util.ParseManifestInfoFromReq, content_type in *.
  destruct (Util.MatchManifestURL req) as [[matched repo] ref].
  cbn [fst] in Hurl. subst matched. cbn [negb].
  fold (unsupported_test (http.Header_Get (http.Header_ req) "Content-Type")).
  rewrite (supported_test _ Hyes), Hbody.
  unfold ioutil.ReadAll. rewrite Hfail. reflexivity.
Qed.

(** When the body does not decode, first as a manifest, then as a
    descriptor, the error of the decoder is returned as it is and the store
    is not queried; a body that fails both ways is reported with the error
    of the manifest. *)
Theorem ParseManifestInfoFromReq_decode_failure
    (req : http.Request) (w : World) (reader : ioutil.Reader)
    (body : list Byte.byte) (e : error) :
  fst (fst (Util.MatchManifestURL req)) = true ->
  supported (content_type req) ->
  http.Body req = Some reader ->
  fst (ioutil.ReadAll reader) = (body, None) ->
  json_Unmarshal_Manifest body = Err e
  \/ (exists manifest, json_Unmarshal_Manifest body = Ok manifest)
     /\ json_Unmarshal_Descriptor body = Err e ->
  Util.ParseManifestInfoFromReq req w
  = ((Err e, http.set_Body req (Some (ioutil.NopCloser_NewBuffer body))), w).
Proof.
  intros Hurl Hyes Hbody Hread Hdecode.
  unfold Util.ParseManifestInfoFromReq, content_type in *.
  destruct (Util.MatchManifestURL req) as [[matched repo] ref].
  cbn [fst] in Hurl. subst matched. cbn [negb].
  fold (unsupported_test (http.Header_Get (http.Header_ req) "Content-Type")).
  rewrite (supported_test _ Hyes), Hbody.
  destruct (ioutil.ReadAll reader) as [[body0 err0] drained].
  cbn in Hread. injection Hread as -> ->.
  destruct Hdecode as [-> | [[manifest ->] Hdesc]]; [reflexivity|].
  cbn [ioutil.ReadAll ioutil.NopCloser_NewBuffer ioutil.pending ioutil.failure].
  now rewrite Hdesc.
Qed.

Lemma GetProjectByName_run (projectName : string) (w : World) :
  dao.GetProjectByName projectName w
  = (fst (store_GetProjectByName projectName (store w)),
     after_lookup projectName w).
Proof.
  unfold dao.GetProjectByName, query, after_lookup.
  now destruct (store_GetProjectByName projectName (store w)).
Qed.

(** A body that decodes both ways leads to exactly one query, the lookup of
    the project named by the repository.  When the project is found, the
    info has its identifier, the repository of the URL, the reference of
    the URL as tag unless it parses as a digest, the digest of the decoded
    descriptor (not the reference of the URL), the layers of the manifest in
    their order as references, and no memo.  When the lookup fails or finds
    nothing, an error naming the project is returned. *)
Theorem ParseManifestInfoFromReq_decoded
    (req : http.Request) (w : World) (repo ref : string)
    (reader : ioutil.Reader) (body : list Byte.byte)
    (manifest : Manifest) (desc : Descriptor.t Platform) :
  Util.MatchManifestURL req = (true, repo, ref) ->
  supported (content_type req) ->
  http.Body req = Some reader ->
  fst (ioutil.ReadAll reader) = (body, None) ->
  json_Unmarshal_Manifest body = Ok manifest ->
  json_Unmarshal_Descriptor body = Ok desc ->
  Util.ParseManifestInfoFromReq req w
  = ((match fst (store_GetProjectByName (fst (utils.ParseRepository repo))
                                        (store w)) with
      | (_, Some e) =>
          Err (Errorf ("failed to get project "
                       ++ fst (utils.ParseRepository repo)
                       ++ ", error: " ++ error_Error e))
      | (None, None) =>
          Err (Errorf ("project " ++ fst (utils.ParseRepository repo)
                       ++ " not found"))
      | (Some project, None) =>
          Ok (ManifestInfo.mk
                (Project_ProjectID project) repo
                (match digest_Validate ref with Some _ => ref | None => "" end)
                (Descriptor.Digest desc)
                (map Util.to_distribution (Manifest_Layers manifest))
                (Util.to_distribution desc)
                false None (sync.mkOnce false)
                None None (sync.mkOnce false) [])
      end,
      http.set_Body req (Some (ioutil.NopCloser_NewBuffer body))),
     after_lookup (fst (utils.ParseRepository repo)) w).
Proof.
  intros Hurl Hyes Hbody Hread Hmanifest Hdesc.
  unfold Util.ParseManifestInfoFromReq, content_type in *.
  rewrite Hurl. cbn [negb].
  fold (unsupported_test (http.Header_Get (http.Header_ req) "Content-Type")).
  rewrite (supported_test _ Hyes), Hbody.
  destruct (ioutil.ReadAll reader) as [[body0 err0] drained].
  cbn in Hread. injection Hread as -> ->.
  rewrite Hmanifest.
  cbn [ioutil.ReadAll ioutil.NopCloser_NewBuffer ioutil.pending ioutil.failure].
  rewrite Hdesc.
  destruct (utils.ParseRepository repo) as [projectName rest]. cbn [fst].
  unfold bind. rewrite GetProjectByName_run.
  destruct (fst (store_GetProjectByName projectName (store w)))
    as [[project|] [e|]]; reflexivity.
Qed.

(** [ParseManifestInfoFromReq] once the body is read. *)
Lemma ParseManifestInfoFromReq_after_read
    (req : http.Request) (w : World) (repo ref : string)
    (reader : ioutil.Reader) (body : list Byte.byte) :
  Util.MatchManifestURL req = (true, repo, ref) ->
  supported (content_type req) ->
  http.Body req = Some reader ->
  fst (ioutil.ReadAll reader) = (body, None) ->
  Util.ParseManifestInfoFromReq req w
  = match json_Unmarshal_Manifest body, json_Unmarshal_Descriptor body with
    | Err e, _ | Ok _, Err e =>
        ((Err e, http.set_Body req (Some (ioutil.NopCloser_NewBuffer body))), w)
    | Ok manifest, Ok desc =>
        ((match fst (store_GetProjectByName (fst (utils.ParseRepository repo))
                                            (store w)) with
          | (_, Some e) =>
              Err (Errorf ("failed to get project "
                           ++ fst (utils.ParseRepository repo)
                           ++ ", error: " ++ error_Error e))
          | (None, None) =>
              Err (Errorf ("project " ++ fst (utils.ParseRepository repo)
                           ++ " not found"))
          | (Some project, None) =>
              Ok (ManifestInfo.mk
                    (Project_ProjectID project) repo
                    (match digest_Validate ref with
                     | Some _ => ref | None => "" end)
                    (Descriptor.Digest desc)
                    (map Util.to_distribution (Manifest_Layers manifest))
                    (Util.to_distribution desc)
                    false None (sync.mkOnce false)
                    None None (sync.mkOnce false) [])
          end,
          http.set_Body req (Some (ioutil.NopCloser_NewBuffer body))),
         after_lookup (fst (utils.ParseRepository repo)) w)
    end.
Proof.
  intros Hurl Hyes Hbody Hread.
  unfold Util.ParseManifestInfoFromReq, content_type in *.
  rewrite Hurl. cbn [negb].
  fold (unsupported_test (http.Header_Get (http.Header_ req) "Content-Type")).
  rewrite (supported_test _ Hyes), Hbody.
  destruct (ioutil.ReadAll reader) as [[body0 err0] drained].
  cbn in Hread. injection Hread as -> ->.
  destruct (json_Unmarshal_Manifest body) as [manifest|e]; [|reflexivity].
  cbn [ioutil.ReadAll ioutil.NopCloser_NewBuffer ioutil.pending ioutil.failure].
  destruct (json_Unmarshal_Descriptor body) as [desc|e]; [|reflexivity].
  destruct (utils.ParseRepository repo) as [projectName rest]. cbn [fst].
  unfold bind. rewrite GetProjectByName_run.
  destruct (fst (store_GetProjectByName projectName (store w)))
    as [[project|] [e|]]; reflexivity.
Qed.

(** Parsing the request a parse has left gives the same again: the request
    that [ParseManifestInfoFromReq] returns after it has read the body is
    returned unchanged by a second parse, in whatever world, and the second
    parse has the result of the first when the store answers the lookup of
    the project as it did. *)
Theorem ParseManifestInfoFromReq_twice
    (req : http.Request) (w w2 : World) (repo ref : string)
    (reader : ioutil.Reader) (body : list Byte.byte) :
  Util.MatchManifestURL req = (true, repo, ref) ->
  supported (content_type req) ->
  http.Body req = Some reader ->
  fst (ioutil.ReadAll reader) = (body, None) ->
  snd (fst (Util.ParseManifestInfoFromReq
              (snd (fst (Util.ParseManifestInfoFromReq req w))) w2))
  = snd (fst (Util.ParseManifestInfoFromReq req w))
  /\ (fst (store_GetProjectByName (fst (utils.ParseRepository repo)) (store w2))
      = fst (store_GetProjectByName (fst (utils.ParseRepository repo)) (store w))
      -> fst (fst (Util.ParseManifestInfoFromReq
                     (snd (fst (Util.ParseManifestInfoFromReq req w))) w2))
         = fst (fst (Util.ParseManifestInfoFromReq req w))).
Proof.
  intros Hurl Hyes Hbody Hread.
  assert (Hleft : snd (fst (Util.ParseManifestInfoFromReq req w))
                  = http.set_Body req (Some (ioutil.NopCloser_NewBuffer body))).
  { rewrite (ParseManifestInfoFromReq_after_read req w repo ref reader body)
      by assumption.
    destruct (json_Unmarshal_Manifest body), (json_Unmarshal_Descriptor body);
      reflexivity. }
  rewrite Hleft.
  rewrite (ParseManifestInfoFromReq_after_read
             (http.set_Body req (Some (ioutil.NopCloser_NewBuffer body))) w2
             repo ref (ioutil.NopCloser_NewBuffer body) body);
    [|exact Hurl | exact Hyes | reflexivity | reflexivity].
  rewrite (ParseManifestInfoFromReq_after_read req w repo ref reader body)
    by assumption.
  split.
  - destruct (json_Unmarshal_Manifest body), (json_Unmarshal_Descriptor body);
      reflexivity.
  - intros Hsame.
    destruct (json_Unmarshal_Manifest body), (json_Unmarshal_Descriptor body);
      try reflexivity.
    cbn [fst]. now rewrite Hsame.
Qed.

(** [ParseManifestInfoFromPath] on a manifest URL. *)
Lemma ParseManifestInfoFromPath_matched
    (req : http.Request) (w : World) (repo ref : string) :
  Util.MatchManifestURL req = (true, repo, ref) ->
  Util.ParseManifestInfoFromPath req w
  = ((match fst (store_GetProjectByName
                   (fst (utils.ParseRepository repo)) (store w)) with
      | (_, Some e) =>
          Err (Errorf ("failed to get project "
                       ++ fst (utils.ParseRepository repo)
                       ++ ", error: " ++ error_Error e))
      | (None, None) =>
          Err (Errorf ("project " ++ fst (utils.ParseRepository repo)
                       ++ " not found"))
      | (Some project, None) =>
          Ok (ManifestInfo.mk
                (Project_ProjectID project) repo
                (match digest_Validate ref with
                 | Some _ => ref | None => "" end)
                (match digest_Validate ref with
                 | Some _ => "" | None => ref end)
                [] Descriptor.zero
                false None (sync.mkOnce false)
                None None (sync.mkOnce false) [])
      end, req),
     after_lookup (fst (utils.ParseRepository repo)) w).
Proof.
  unfold Util.ParseManifestInfoFromPath. intros ->. cbn [negb].
  destruct (utils.ParseRepository repo) as [projectName rest]. cbn [fst].
  unfold bind. rewrite GetProjectByName_run.
  destruct (fst (store_GetProjectByName projectName (store w)))
    as [[project|] [e|]]; try reflexivity.
  cbn. destruct (digest_Validate ref); reflexivity.
Qed.

(** Whatever the request, [ParseManifestInfoFromReq] changes nothing of it
    but the body, never touches the clock, and either leaves the world as it
    was or sends the store exactly one query, the lookup of the project
    named by the repository of the URL. *)
Theorem ParseManifestInfoFromReq_at_most_one_lookup
    (req : http.Request) (w : World) :
  http.Method (snd (fst (Util.ParseManifestInfoFromReq req w))) = http.Method req
  /\ http.URL_Path (snd (fst (Util.ParseManifestInfoFromReq req w)))
     = http.URL_Path req
  /\ http.Header_ (snd (fst (Util.ParseManifestInfoFromReq req w)))
     = http.Header_ req
  /\ (snd (Util.ParseManifestInfoFromReq req w) = w
      \/ exists repo ref,
          Util.MatchManifestURL req = (true, repo, ref)
          /\ snd (Util.ParseManifestInfoFromReq req w)
             = after_lookup (fst (utils.ParseRepository repo)) w).
Proof.
  unfold Util.ParseManifestInfoFromReq.
  destruct (Util.MatchManifestURL req) as [[[|] repo] ref]; cbn [negb];
    [|repeat split; now left].
  destruct (_ && _); [repeat split; now left|].
  destruct (http.Body req) as [reader|]; [|repeat split; now left].
  destruct (ioutil.ReadAll reader) as [[body [e|]] drained];
    [repeat split; now left|].
  destruct (json_Unmarshal_Manifest body) as [manifest|e];
    [|repeat split; now left].
  cbn [ioutil.ReadAll ioutil.NopCloser_NewBuffer ioutil.pending ioutil.failure].
  destruct (json_Unmarshal_Descriptor body) as [desc|e];
    [|repeat split; now left].
  destruct (utils.ParseRepository repo) as [projectName rest] eqn:Epr.
  cbn [fst]. unfold bind. rewrite GetProjectByName_run.
  repeat split;
    try (destruct (fst (store_GetProjectByName projectName (store w)))
           as [[project|] [e|]]; reflexivity).
  right. exists repo, ref. split; [reflexivity|]. rewrite Epr. cbn [fst].
  destruct (fst (store_GetProjectByName projectName (store w)))
    as [[project|] [e|]]; reflexivity.
Qed.

(** [ParseManifestInfoFromPath] sends the store no query for a URL that is
    not a manifest URL, and exactly one, the lookup of the project named by
    the repository, for one that is.  A lookup that fails or finds nothing
    gives an error naming the project; a project found gives an info with
    its identifier, the repository, and the reference as digest when it
    parses as one and as tag otherwise, without memo. *)
Theorem ParseManifestInfoFromPath_outcomes
    (req : http.Request) (w : World) :
  (fst (fst (Util.MatchManifestURL req)) = false ->
   Util.ParseManifestInfoFromPath req w
   = ((Err (Errorf ("not match url " ++ http.URL_Path req ++ " for manifest")),
       req), w))
  /\ (forall repo ref,
         Util.MatchManifestURL req = (true, repo, ref) ->
         Util.ParseManifestInfoFromPath req w
         = ((match fst (store_GetProjectByName
                          (fst (utils.ParseRepository repo)) (store w)) with
             | (_, Some e) =>
                 Err (Errorf ("failed to get project "
                              ++ fst (utils.ParseRepository repo)
                              ++ ", error: " ++ error_Error e))
             | (None, None) =>
                 Err (Errorf ("project " ++ fst (utils.ParseRepository repo)
                              ++ " not found"))
             | (Some project, None) =>
                 Ok (ManifestInfo.mk
                       (Project_ProjectID project) repo
                       (match digest_Validate ref with
                        | Some _ => ref | None => "" end)
                       (match digest_Validate ref with
                        | Some _ => "" | None => ref end)
                       [] Descriptor.zero
                       false None (sync.mkOnce false)
                       None None (sync.mkOnce false) [])
             end, req),
            after_lookup (fst (utils.ParseRepository repo)) w)).
Proof.
  unfold Util.ParseManifestInfoFromPath. split.
  - destruct (Util.MatchManifestURL req) as [[matched repo] ref]; cbn [fst].
    intros ->. reflexivity.
  - intros repo ref ->. cbn [negb].
    destruct (utils.ParseRepository repo) as [projectName rest]. cbn [fst].
    unfold bind. rewrite GetProjectByName_run.
    destruct (fst (store_GetProjectByName projectName (store w)))
      as [[project|] [e|]]; try reflexivity.
    cbn. destruct (digest_Validate ref); reflexivity.
Qed.

(** An info that [ParseManifestInfoFromPath] returns has asked nothing yet:
    when stages then call [ManifestExists] on it, the store has received two
    queries in all, the lookup of the project and one count of the artifacts
    of that project with the digest of the info, which is the reference of
    the URL when it parses as a digest and the empty string when it is a
    tag. *)
Theorem ParseManifestInfoFromPath_then_ManifestExists
    (req : http.Request) (w : World) (repo ref : string) (project : Project)
    (info : ManifestInfo.t) (st : Stages.Stage)
    (stages : list (Stages.Stage * unit)) :
  Util.MatchManifestURL req = (true, repo, ref) ->
  fst (store_GetProjectByName (fst (utils.ParseRepository repo)) (store w))
  = (Some project, None) ->
  fst (fst (Util.ParseManifestInfoFromPath req w)) = Ok info ->
  journal (snd (Stages.run (fun _ => ManifestInfo.ManifestExists)
                           ((st, tt) :: stages) info
                           (snd (Util.ParseManifestInfoFromPath req w))))
  = (journal w
     ++ [Q_GetProjectByName (fst (utils.ParseRepository repo));
         Q_GetTotalOfArtifacts
           (ArtifactQuery.mk (Project_ProjectID project)
              (match digest_Validate ref with Some _ => "" | None => ref end))])%list.
Proof.
  intros Hurl Hproject Hinfo.
  rewrite (ParseManifestInfoFromPath_matched req w repo ref Hurl)
    in Hinfo |- *.
  rewrite Hproject in Hinfo. cbn [fst snd] in Hinfo |- *.
  injection Hinfo as <-.
  destruct (Memoization.ManifestExists_once st stages
              (ManifestInfo.mk (Project_ProjectID project) repo
                 (match digest_Validate ref with Some _ => ref | None => "" end)
                 (match digest_Validate ref with Some _ => "" | None => ref end)
                 [] Descriptor.zero false None (sync.mkOnce false)
                 None None (sync.mkOnce false) [])
              (after_lookup (fst (utils.ParseRepository repo)) w) eq_refl)
    as [_ Hjournal].
  rewrite Hjournal. cbn [after_lookup journal ManifestInfo.ProjectID
                           ManifestInfo.Digest].
  now rewrite <- app_assoc.
Qed.

End WithCollaborators.
End ParserOutcomes.

(** ** More on the matchers *)
Module MatcherFacts.
Import Regexp StringFacts RegexpFacts Shape KeyShape ManifestURL Matchers.

(** Each matcher matches exactly the requests of its method that
    [MatchManifestURL] matches, [MatchDeleteManifest] only those whose
    reference parses as a digest, and returns the repository and the
    reference of [MatchManifestURL]. *)
Theorem matchers_match_exactly `{Digest}
    (req : http.Request) (repo ref : string) :
  (Util.MatchPullManifest req = (true, repo, ref)
   <-> http.Method req = "GET" /\ Util.MatchManifestURL req = (true, repo, ref))
  /\ (Util.MatchPushManifest req = (true, repo, ref)
      <-> http.Method req = "PUT"
          /\ Util.MatchManifestURL req = (true, repo, ref))
  /\ (Util.MatchDeleteManifest req = (true, repo, ref)
      <-> http.Method req = "DELETE"
          /\ Util.MatchManifestURL req = (true, repo, ref)
          /\ snd (digest_Parse ref) = None).
Proof.
  unfold Util.MatchPullManifest, Util.MatchPushManifest,
    Util.MatchDeleteManifest, http.MethodGet, http.MethodPut,
    http.MethodDelete, digest_Parse.
  cbn [snd]. split; [|split].
  - destruct (String.eqb_spec (http.Method req) "GET") as [E|E]; cbn [negb].
    + tauto.
    + split; [discriminate | tauto].
  - destruct (String.eqb_spec (http.Method req) "PUT") as [E|E]; cbn [negb].
    + tauto.
    + split; [discriminate | tauto].
  - destruct (String.eqb_spec (http.Method req) "DELETE") as [E|E]; cbn [negb].
    + destruct (Util.MatchManifestURL req) as [[matched repo'] ref'].
      destruct (digest_Validate ref') as [e|] eqn:Ev.
      * split; [discriminate|].
        intros (_ & [= -> -> ->] & Hv). congruence.
      * split.
        -- intros [= -> -> ->]. auto.
        -- intros (_ & [= -> -> ->] & _). reflexivity.
    + split; [discriminate | tauto].
Qed.

(** A bounded greedy repetition of a class, before a continuation that
    never fails, reads as many characters as it can. *)
Lemma AtMost_longest {R} (p : ascii -> bool) (n : nat) :
  forall s pos c (k : Cont R),
    (forall s' pos' c', k s' pos' c' <> None) ->
    exists w rest,
      s = w ++ rest /\ all_chars p w = true /\ String.length w <= n
      /\ (String.length w = n \/ rest = ""
          \/ exists a rest', rest = String a rest' /\ p a = false)
      /\ backtrack (AtMost n (CharClass p)) s pos c k
         = k rest (pos + String.length w) c.
Proof.
  induction n as [|n IH]; intros s pos c k Hk.
  - exists "", s. simpl. rewrite Nat.add_0_r. auto 6.
  - change (backtrack (AtMost (S n) (CharClass p)) s pos c k)
      with (match (match s with
                   | String a s' =>
                       if p a
                       then backtrack (AtMost n (CharClass p)) s' (S pos) c k
                       else None
                   | EmptyString => None
                   end) with
            | Some res => Some res
            | None => k s pos c
            end).
    destruct s as [|a s].
    + exists "", "". simpl. rewrite Nat.add_0_r.
      repeat split; auto; lia.
    + destruct (p a) eqn:Ha.
      * destruct (IH s (S pos) c k Hk)
          as (w & rest & -> & Hall & Hlen & Hmax & ->).
        exists (String a w), rest. simpl. rewrite Ha, Hall.
        replace (pos + S (String.length w)) with (S pos + String.length w)
          by lia.
        repeat split; try lia.
        -- destruct Hmax as [Hn | Hmax]; [left; lia | right; exact Hmax].
        -- change (S pos + String.length w) with (S (pos + String.length w)).
           destruct (k rest (S (pos + String.length w)) c) eqn:E;
             [reflexivity | now destruct (Hk _ _ _ E)].
      * exists "", (String a s). simpl. rewrite Nat.add_0_r.
        repeat split; try lia.
        right. right. now exists a, s.
Qed.

(** The match of [manifestURLRe] the search returns has a reference that
    could not be longer. *)
Lemma backtrack_manifestURLRe_longest (path : string) (c : Caps) :
  backtrack manifestURLRe path 0 no_caps
            (fun _ pos' c' => Some (set_cap 0 (0, pos') c'))
  = Some c ->
  exists repo ref rest,
    path = "/v2/" ++ (repo ++ "/") ++ "manifests/" ++ ref ++ rest
    /\ longest_reference ref rest
    /\ c = set_cap 0 (0, 4 + String.length (repo ++ "/") + 10
                         + String.length ref)
             (registers (repo ++ "/")
                (4 + String.length (repo ++ "/") + 10 + String.length ref)
                no_caps).
Proof.
  unfold manifestURLRe.
  change (backtrack (Concat BeginText ?r) ?s 0 ?c0 ?k)
    with (backtrack (Literal "/v2/") s 0 c0
            (fun s1 p1 c1 =>
               backtrack repoPathRe s1 p1 c1
                 (fun s2 p2 c2 =>
                    backtrack (Literal "manifests/") s2 p2
                      (set_cap 1 (p1, p2) c2)
                      (fun s3 p3 c3 =>
                         backtrack referenceRe s3 p3 c3
                           (fun s4 p4 c4 =>
                              Some (set_cap 0 (0, p4)
                                      (set_cap 2 (p3, p4) c4))))))).
  intros E.
  apply backtrack_sound in E as (s1 & p1 & c1 & Hrun1 & E).
  apply Run_Literal_inv in Hrun1 as (-> & -> & ->).
  apply backtrack_sound in E as (s2 & p2 & c2 & Hrun2 & E).
  apply Run_plain in Hrun2 as (rp & Lrp & -> & -> & ->); [|reflexivity].
  apply Lang_repoPathRe in Lrp as (repo & _ & ->).
  apply backtrack_sound in E as (s3 & p3 & c3 & Hrun3 & E).
  apply Run_Literal_inv in Hrun3 as (-> & -> & ->).
  change (backtrack referenceRe s3 ?p ?c3 ?k)
    with (match s3 with
          | String a s' =>
              if word a
              then backtrack (AtMost 127 (CharClass word_dot_colon_dash))
                             s' (S p) c3 k
              else None
          | EmptyString => None
          end) in E.
  destruct s3 as [|a s3]; [discriminate|].
  destruct (word a); [|discriminate].
  match type of E with
  | backtrack _ _ ?p ?c3 ?k = _ =>
      destruct (AtMost_longest word_dot_colon_dash 127 s3 p c3 k)
        as (w & rest & -> & Hall & Hlen & Hmax & Eb); [discriminate|]
  end.
  rewrite Eb in E. injection E as <-.
  exists repo, (String a w), rest. split; [reflexivity|]. split.
  - unfold longest_reference. simpl.
    destruct Hmax as [Hn | Hmax]; [left; lia | right; exact Hmax].
  - unfold registers. simpl String.length.
    repeat f_equal; lia.
Qed.

(** The reference [MatchManifestURL] returns could not be longer: it is
    followed in the path by the end, or by a character that is none of a
    reference, unless it has 128 characters already.  So a longer reference
    in a URL is cut after its 128th character. *)
Theorem MatchManifestURL_longest_reference
    (req : http.Request) (repo ref : string) :
  Util.MatchManifestURL req = (true, repo, ref) ->
  exists rest,
    http.URL_Path req = "/v2/" ++ repo ++ "/manifests/" ++ ref ++ rest
    /\ longest_reference ref rest.
Proof.
  unfold Util.MatchManifestURL, FindStringSubmatch.
  rewrite search_manifestURLRe.
  destruct (backtrack manifestURLRe (http.URL_Path req) 0 no_caps _)
    as [c|] eqn:E; [|discriminate].
  apply backtrack_manifestURLRe_longest in E
    as (repo0 & ref0 & rest & Epath & Hmax & ->).
  rewrite Epath. cbn [seq map List.length Nat.eqb nth].
  rewrite group_repository, group_reference, TrimSuffix_slash.
  intros [= <- <-]. exists rest. split; [|assumption].
  now rewrite append_assoc.
Qed.

Lemma MatchManifestURL_longest_reference_witness :
  exists rest,
    "/v2/a/b/manifests/latest/x" = "/v2/" ++ "a/b" ++ "/manifests/" ++ "latest" ++ rest
    /\ longest_reference "latest" rest.
Proof.
  apply (MatchManifestURL_longest_reference
           {| http.Method := "GET"; http.URL_Path := "/v2/a/b/manifests/latest/x";
              http.Header_ := fun _ => []; http.Body := None |}).
  vm_compute. reflexivity.
Defined.

End MatcherFacts.

(** ** The lookups of a manifest info in any order *)
Module MixedFacts.
Import Stages Mixed Memoization.

Section WithStore.
Context `{DAO}.

Lemma ManifestExists_fresh (info : ManifestInfo.t) (w : World) :
  sync.done (ManifestInfo.manifestExistOnce info) = false ->
  exists info' w',
    ManifestInfo.ManifestExists info w
    = (((ManifestInfo.manifestExist info', ManifestInfo.manifestExistErr info'),
        info'), w')
    /\ sync.done (ManifestInfo.manifestExistOnce info') = true
    /\ identity info' = identity info
    /\ ManifestInfo.artifactOnce info' = ManifestInfo.artifactOnce info
    /\ (ManifestInfo.artifact info', ManifestInfo.artifactErr info')
       = (ManifestInfo.artifact info, ManifestInfo.artifactErr info)
    /\ journal w'
       = (journal w ++ [Q_GetTotalOfArtifacts
                          (ArtifactQuery.mk (ManifestInfo.ProjectID info)
                                            (ManifestInfo.Digest info))])%list.
Proof.
  intros Hfresh. unfold ManifestInfo.ManifestExists, sync.Do. rewrite Hfresh.
  unfold dao.GetTotalOfArtifacts, query.
  destruct (store_GetTotalOfArtifacts _ (store w)) as [[total e] db].
  exists (ManifestInfo.set_manifestExistOnce
            (ManifestInfo.set_manifestExist info (Z.ltb 0 total, e))
            (sync.mkOnce true)).
  eexists. cbn. repeat split.
Qed.

Lemma fetchArtifact_fresh (info : ManifestInfo.t) (w : World) :
  sync.done (ManifestInfo.artifactOnce info) = false ->
  exists info' w',
    ManifestInfo.fetchArtifact info w
    = (((ManifestInfo.artifact info', ManifestInfo.artifactErr info'), info'),
       w')
    /\ sync.done (ManifestInfo.artifactOnce info') = true
    /\ identity info' = identity info
    /\ ManifestInfo.manifestExistOnce info' = ManifestInfo.manifestExistOnce info
    /\ (ManifestInfo.manifestExist info', ManifestInfo.manifestExistErr info')
       = (ManifestInfo.manifestExist info, ManifestInfo.manifestExistErr info)
    /\ clock w' = clock w
    /\ journal w'
       = (journal w ++ [Q_GetArtifact (ManifestInfo.Repository info)
                                      (ManifestInfo.Tag info)])%list.
Proof.
  intros Hfresh. unfold ManifestInfo.fetchArtifact, sync.Do. rewrite Hfresh.
  unfold dao.GetArtifact, query.
  destruct (store_GetArtifact _ _ (store w)) as [[a e] db].
  exists (ManifestInfo.set_artifactOnce
            (ManifestInfo.set_artifact info (a, e)) (sync.mkOnce true)).
  eexists. cbn. repeat split.
Qed.

(** The accessors of the artifact read the identity of the info only. *)
Lemma identity_fields (i j : ManifestInfo.t) :
  identity i = identity j ->
  ManifestInfo.ProjectID i = ManifestInfo.ProjectID j
  /\ ManifestInfo.Repository i = ManifestInfo.Repository j
  /\ ManifestInfo.Tag i = ManifestInfo.Tag j
  /\ ManifestInfo.Digest i = ManifestInfo.Digest j.
Proof. unfold identity. intros [= -> -> -> -> _ _ _]. auto. Qed.

(** An accessor of the artifact, from what its lookup returns. *)
Lemma call_artifact_via_fetch (info0 i i' : ManifestInfo.t)
    (r : option Artifact.t * option error) (st : Stage) (c : ArtifactCall)
    (w0 w : World) :
  ManifestInfo.fetchArtifact i w0 = ((r, i'), w) ->
  identity i = identity info0 ->
  clock w = at_time st ->
  call_artifact c i w0 = ((answer_of info0 r (st, c), i'), w).
Proof.
  intros Hfetch Hid Hclock.
  destruct (identity_fields _ _ Hid) as (Hpid & Hrepo & Htag & Hdigest).
  destruct c; unfold call_artifact, answer_of, ManifestInfo.IsNewTag,
    ManifestInfo.Artifact_, bind, ret, time_Now; rewrite Hfetch; cbn.
  - reflexivity.
  - reflexivity.
  - destruct (fst r) as [found|]; cbn;
      now rewrite ?Hpid, ?Hrepo, ?Htag, ?Hdigest, ?Hclock.
Qed.

(** One call, on an info that is [info0] up to its memos. *)
Lemma call_manifest_step (info0 info : ManifestInfo.t)
    (sc : Stage * ManifestCall) (w : World) :
  identity info = identity info0 ->
  exists answer info' w',
    call_manifest (snd sc) info (elapse (fst sc) w) = ((answer, info'), w')
    /\ identity info' = identity info0
    /\ journal w'
       = (journal w
          ++ first_queries info0 [sc]
               (sync.done (ManifestInfo.manifestExistOnce info))
               (sync.done (ManifestInfo.artifactOnce info)))%list
    /\ sync.done (ManifestInfo.manifestExistOnce info')
       = (is_ManifestExists sc
          || sync.done (ManifestInfo.manifestExistOnce info))%bool
    /\ sync.done (ManifestInfo.artifactOnce info')
       = (is_artifact sc || sync.done (ManifestInfo.artifactOnce info))%bool
    /\ (sync.done (ManifestInfo.manifestExistOnce info) = true ->
        (ManifestInfo.manifestExist info', ManifestInfo.manifestExistErr info')
        = (ManifestInfo.manifestExist info, ManifestInfo.manifestExistErr info))
    /\ (sync.done (ManifestInfo.artifactOnce info) = true ->
        (ManifestInfo.artifact info', ManifestInfo.artifactErr info')
        = (ManifestInfo.artifact info, ManifestInfo.artifactErr info))
    /\ answered info0
         (ManifestInfo.manifestExist info', ManifestInfo.manifestExistErr info')
         (ManifestInfo.artifact info', ManifestInfo.artifactErr info')
         sc answer.
Proof.
  intros Hid.
  destruct (identity_fields _ _ Hid) as (Hpid & Hrepo & Htag & Hdigest).
  destruct sc as [st [|c]];
    unfold is_artifact, is_ManifestExists, answered;
    cbn [fst snd call_manifest first_queries negb orb].
  - destruct (sync.done (ManifestInfo.manifestExistOnce info)) eqn:Hdone.
    + unfold bind, ret. rewrite (ManifestExists_again info _ Hdone).
      eexists _, info, _. split; [reflexivity|].
      rewrite app_nil_r. repeat split; auto.
    + destruct (ManifestExists_fresh info (elapse st w) Hdone)
        as (info' & w' & Hcall & Hdone' & Hid' & HonceA & HcachedA & Hjournal).
      unfold bind, ret. rewrite Hcall.
      eexists _, info', w'. split; [reflexivity|].
      rewrite Hjournal, Hpid, Hdigest, HonceA.
      repeat split; congruence.
  - destruct (sync.done (ManifestInfo.artifactOnce info)) eqn:Hdone.
    + unfold bind, ret.
      rewrite (call_artifact_via_fetch info0 info info _ st c _ _
                 (fetchArtifact_again info (elapse st w) Hdone) Hid eq_refl).
      eexists _, info, _. split; [reflexivity|].
      rewrite app_nil_r. repeat split; auto.
    + destruct (fetchArtifact_fresh info (elapse st w) Hdone)
        as (info' & w' & Hfetch & Hdone' & Hid' & HonceE & HcachedE
            & Hclock & Hjournal).
      unfold bind, ret.
      rewrite (call_artifact_via_fetch info0 info info' _ st c _ _
                 Hfetch Hid Hclock).
      eexists _, info', w'. split; [reflexivity|].
      rewrite Hjournal, Hrepo, Htag, HonceE.
      repeat split; congruence.
Qed.

Lemma first_queries_cons (info0 : ManifestInfo.t)
    (sc : Stage * ManifestCall) (rest : list (Stage * ManifestCall))
    (doneE doneA : bool) :
  first_queries info0 (sc :: rest) doneE doneA
  = (first_queries info0 [sc] doneE doneA
     ++ first_queries info0 rest (is_ManifestExists sc || doneE)
                      (is_artifact sc || doneA))%list.
Proof.
  unfold is_artifact. cbn [first_queries].
  destruct (is_ManifestExists sc), doneE, doneA; reflexivity.
Qed.

(** Any sequence of calls, on an info that is [info0] up to its memos. *)
Lemma run_call_manifest (info0 : ManifestInfo.t)
    (calls : list (Stage * ManifestCall)) :
  forall (info : ManifestInfo.t) (w : World),
    identity info = identity info0 ->
    exists rE rA,
      (sync.done (ManifestInfo.manifestExistOnce info) = true ->
       rE = (ManifestInfo.manifestExist info, ManifestInfo.manifestExistErr info))
      /\ (sync.done (ManifestInfo.artifactOnce info) = true ->
          rA = (ManifestInfo.artifact info, ManifestInfo.artifactErr info))
      /\ Forall2 (answered info0 rE rA) calls
                 (fst (fst (run call_manifest calls info w)))
      /\ journal (snd (run call_manifest calls info w))
         = (journal w
            ++ first_queries info0 calls
                 (sync.done (ManifestInfo.manifestExistOnce info))
                 (sync.done (ManifestInfo.artifactOnce info)))%list
      /\ identity (snd (fst (run call_manifest calls info w))) = identity info0.
Proof.
  induction calls as [|sc rest IH]; intros info w Hid.
  - exists (ManifestInfo.manifestExist info, ManifestInfo.manifestExistErr info),
      (ManifestInfo.artifact info, ManifestInfo.artifactErr info).
    cbn. rewrite app_nil_r. repeat split; auto.
  - destruct (call_manifest_step info0 info sc w Hid)
      as (answer & info' & w' & Hcall & Hid' & Hjournal & HdoneE & HdoneA
          & HkeepE & HkeepA & Hanswer).
    destruct (IH info' w' Hid') as (rE & rA & HrE & HrA & Hall & Hj & Hfinal).
    exists rE, rA. destruct sc as [st c]. cbn [fst snd] in Hcall.
    cbn [run]. rewrite Hcall.
    destruct (run call_manifest rest info' w') as [[answers info''] w''].
    cbn [fst snd] in *.
    rewrite first_queries_cons, Hj, Hjournal, HdoneE, HdoneA, app_assoc.
    repeat split; try assumption.
    + intros Hdone. rewrite <- (HkeepE Hdone). apply HrE.
      rewrite HdoneE, Hdone. apply orb_true_r.
    + intros Hdone. rewrite <- (HkeepA Hdone). apply HrA.
      rewrite HdoneA, Hdone. apply orb_true_r.
    + constructor; [|assumption].
      unfold answered, is_artifact, is_ManifestExists in *. cbn [fst snd] in *.
      destruct c as [|c]; cbn [negb orb] in *.
      * now rewrite (HrE HdoneE).
      * now rewrite (HrA HdoneA).
Qed.

(** The first call of each kind sends one query. *)
Lemma first_queries_counts (info0 : ManifestInfo.t)
    (calls : list (Stage * ManifestCall)) :
  forall doneE doneA,
    List.length (filter is_GetTotalOfArtifacts
                        (first_queries info0 calls doneE doneA))
    = (if doneE then 0 else if existsb is_ManifestExists calls then 1 else 0)
    /\ List.length (filter is_GetArtifact
                           (first_queries info0 calls doneE doneA))
       = (if doneA then 0 else if existsb is_artifact calls then 1 else 0)
    /\ List.length (first_queries info0 calls doneE doneA)
       = (if doneE then 0 else if existsb is_ManifestExists calls then 1 else 0)
         + (if doneA then 0 else if existsb is_artifact calls then 1 else 0).
Proof.
  induction calls as [|sc rest IH]; intros doneE doneA.
  - destruct doneE, doneA; repeat split.
  - unfold is_artifact in *. cbn [first_queries existsb].
    destruct (is_ManifestExists sc); cbn [negb orb].
    + destruct doneE.
      * apply (IH true doneA).
      * destruct (IH true doneA) as (Ht & Ha & Hl).
        cbn [filter is_GetTotalOfArtifacts is_GetArtifact List.length].
        rewrite Ht, Ha, Hl. repeat split; destruct doneA; reflexivity.
    + destruct doneA.
      * apply (IH doneE true).
      * destruct (IH doneE true) as (Ht & Ha & Hl).
        cbn [filter is_GetTotalOfArtifacts is_GetArtifact List.length].
        rewrite Ht, Ha, Hl. repeat split; destruct doneE; lia.
Qed.

(** The stages of a request may call [ManifestExists] and the accessors of
    the artifact of one manifest info in any order: starting from an info
    that was never asked, the store receives one count of artifacts if
    [ManifestExists] is called at all, one artifact lookup if an accessor of
    the artifact is called at all, and no other query; all the calls of
    [ManifestExists] return one and the same pair, and all the accessors of
    the artifact answer from one and the same lookup result. *)
Theorem manifest_lookups_in_any_order
    (info : ManifestInfo.t) (w : World) (calls : list (Stage * ManifestCall)) :
  sync.done (ManifestInfo.manifestExistOnce info) = false ->
  sync.done (ManifestInfo.artifactOnce info) = false ->
  exists qs rE rA,
    journal (snd (run call_manifest calls info w)) = (journal w ++ qs)%list
    /\ List.length (filter is_GetTotalOfArtifacts qs)
       = (if existsb is_ManifestExists calls then 1 else 0)
    /\ List.length (filter is_GetArtifact qs)
       = (if existsb is_artifact calls then 1 else 0)
    /\ List.length qs
       = (if existsb is_ManifestExists calls then 1 else 0)
         + (if existsb is_artifact calls then 1 else 0)
    /\ Forall2 (answered info rE rA) calls
               (fst (fst (run call_manifest calls info w))).
Proof.
  intros HfreshE HfreshA.
  destruct (run_call_manifest info calls info w eq_refl)
    as (rE & rA & _ & _ & Hall & Hjournal & _).
  rewrite HfreshE, HfreshA in Hjournal.
  exists (first_queries info calls false false), rE, rA.
  destruct (first_queries_counts info calls false false) as (Ht & Ha & Hl).
  auto 6.
Qed.

(** The lookups never change what the mutex keys are made of: after any
    calls of [BlobExists] on a blob info, and after any calls of
    [ManifestExists] and of the accessors of the artifact on a manifest
    info, asked before or not, the mutex keys of the info are what they
    were. *)
Theorem lookups_keep_mutex_keys :
  (forall (stages : list (Stage * unit)) (blobInfo : BlobInfo.t) (w : World)
          (suffix : list string),
      BlobInfo.MutexKey
        (snd (fst (run (fun _ => BlobInfo.BlobExists) stages blobInfo w)))
        suffix
      = BlobInfo.MutexKey blobInfo suffix)
  /\ (forall (calls : list (Stage * ManifestCall)) (info : ManifestInfo.t)
             (w : World) (blob : Blob.t) (suffix : list string),
         ManifestInfo.MutexKey
           (snd (fst (run call_manifest calls info w))) suffix
         = ManifestInfo.MutexKey info suffix
         /\ ManifestInfo.BlobMutexKey
              (snd (fst (run call_manifest calls info w))) blob suffix
            = ManifestInfo.BlobMutexKey info blob suffix).
Proof.
  split.
  - induction stages as [|[st []] rest IH]; intros blobInfo w suffix;
      [reflexivity|].
    cbn [run].
    destruct (BlobInfo.BlobExists blobInfo (elapse st w))
      as [[r blobInfo'] w'] eqn:Ecall.
    specialize (IH blobInfo' w' suffix).
    destruct (run (fun _ => BlobInfo.BlobExists) rest blobInfo' w')
      as [[rs blobInfo''] w''].
    cbn [fst snd] in *. rewrite IH.
    assert (Hsame : BlobInfo.Repository blobInfo' = BlobInfo.Repository blobInfo
                    /\ BlobInfo.Digest blobInfo' = BlobInfo.Digest blobInfo).
    { revert Ecall. unfold BlobInfo.BlobExists, sync.Do.
      destruct (sync.done (BlobInfo.blobExistOnce blobInfo)).
      - intros [= _ <- _]. split; reflexivity.
      - destruct (dao.HasBlobInProject _ _ _) as [r0 w0].
        intros [= _ <- _]. split; reflexivity. }
    destruct Hsame as [Hrepo Hdigest].
    unfold BlobInfo.MutexKey. now rewrite Hrepo, Hdigest.
  - intros calls info w blob suffix.
    destruct (run_call_manifest info calls info w eq_refl)
      as (_ & _ & _ & _ & _ & _ & Hid).
    destruct (identity_fields _ _ Hid) as (_ & Hrepo & Htag & Hdigest).
    unfold ManifestInfo.MutexKey, ManifestInfo.BlobMutexKey.
    now rewrite Hrepo, Htag, Hdigest.
Qed.

(** When the lookup of the artifact fails and brings no artifact, every
    stage is answered as if there were none, and the store is not asked
    again: [fetchArtifact] returns the error, [IsNewTag] returns [true], and
    [Artifact] returns the record of the info without identity, creation
    time or push time. *)
Theorem failed_artifact_lookup_is_a_new_tag
    (st : Stage) (c : ArtifactCall) (calls : list (Stage * ArtifactCall))
    (info : ManifestInfo.t) (w : World) (e : error) :
  sync.done (ManifestInfo.artifactOnce info) = false ->
  fst (store_GetArtifact (ManifestInfo.Repository info) (ManifestInfo.Tag info)
                         (on_store st (store w)))
  = (None, Some e) ->
  fst (fst (run call_artifact ((st, c) :: calls) info w))
  = map (fun sc =>
           match snd sc with
           | Call_fetchArtifact => Answer_fetchArtifact (None, Some e)
           | Call_IsNewTag => Answer_IsNewTag true
           | Call_Artifact =>
               Answer_Artifact
                 (Artifact.mk 0 (ManifestInfo.ProjectID info)
                    (ManifestInfo.Repository info) (ManifestInfo.Tag info)
                    (ManifestInfo.Digest info) "Docker-Image" 0 0 0)
           end)
        ((st, c) :: calls)
  /\ journal (snd (run call_artifact ((st, c) :: calls) info w))
     = (journal w ++ [Q_GetArtifact (ManifestInfo.Repository info)
                                    (ManifestInfo.Tag info)])%list.
Proof.
  intros Hfresh Hfail.
  destruct (artifact_accessors_once st c calls info w Hfresh)
    as [Hanswers Hjournal].
  split; [|exact Hjournal].
  rewrite Hanswers, Hfail. apply map_ext.
  intros [st' c']. unfold answer_of. now destruct c'.
Qed.

End WithStore.
End MixedFacts.

(** ** Keys of different kinds and projects *)
Module KeySeparation.
Import StringFacts Shape KeyShape Outcomes MutexKeys.

(** The first colon of a string is where it is. *)
Lemma first_colon_unique (a b x y : string) :
  no_colon a = true -> no_colon b = true ->
  a ++ ":" ++ x = b ++ ":" ++ y -> a = b /\ x = y.
Proof.
  revert b. induction a as [|c a IH]; intros [|d b] Ha Hb E; simpl in *.
  - injection E as ->. auto.
  - injection E as <- _. discriminate Hb.
  - injection E as -> _. discriminate Ha.
  - injection E as -> E.
    apply andb_true_iff in Ha as [_ Ha]. apply andb_true_iff in Hb as [_ Hb].
    destruct (IH b Ha Hb E) as [-> ->]. auto.
Qed.

(** Two keys that agree have the same second segment, when it has no
    colon. *)
Lemma keys_agree (p p' x y : string) :
  no_colon p = true -> no_colon p' = true ->
  "quota:" ++ p ++ ":" ++ x = "quota:" ++ p' ++ ":" ++ y -> p = p' /\ x = y.
Proof.
  intros Hp Hp' E. apply (first_colon_unique p p' x y Hp Hp').
  now injection E.
Qed.

Section Keys.
Context `{OCI}.

Lemma BlobInfo_key (info : BlobInfo.t) (suffix : list string) :
  BlobInfo.MutexKey info suffix
  = "quota:" ++ blob_project info ++ ":" ++ "blob:" ++ BlobInfo.Digest info
    ++ segments suffix.
Proof.
  unfold BlobInfo.MutexKey, blob_project.
  destruct (utils.ParseRepository (BlobInfo.Repository info)).
  apply key_of_four.
Qed.

Lemma ManifestInfo_key (info : ManifestInfo.t) (suffix : list string) :
  exists identity,
    ManifestInfo.MutexKey info suffix
    = "quota:" ++ manifest_project info ++ ":" ++ "manifest:" ++ identity
      ++ segments suffix.
Proof.
  unfold ManifestInfo.MutexKey, manifest_project.
  destruct (utils.ParseRepository (ManifestInfo.Repository info)). cbn [fst].
  destruct (negb _);
    [exists (ManifestInfo.Tag info) | exists (ManifestInfo.Digest info)];
    apply key_of_four.
Qed.

Lemma BlobMutexKey_key (info : ManifestInfo.t) (blob : Blob.t)
    (suffix : list string) :
  ManifestInfo.BlobMutexKey info blob suffix
  = "quota:" ++ manifest_project info ++ ":" ++ "blob:" ++ Blob.Digest blob
    ++ segments suffix.
Proof.
  unfold ManifestInfo.BlobMutexKey, manifest_project.
  destruct (utils.ParseRepository (ManifestInfo.Repository info)).
  apply key_of_four.
Qed.

Lemma ChartVersionInfo_key (chart : ChartVersionInfo.t) (suffix : list string) :
  ChartVersionInfo.MutexKey chart suffix
  = "quota:" ++ ChartVersionInfo.Namespace chart ++ ":" ++ "chart:"
    ++ ChartVersionInfo.ChartName chart ++ ":version:"
    ++ ChartVersionInfo.Version chart ++ segments suffix.
Proof.
  unfold ChartVersionInfo.MutexKey.
  change ([?a; ?b; ?c; ?d; ?e; ?f] ++ suffix)%list
    with ([a; b; c; d] ++ (e :: f :: suffix))%list.
  rewrite key_of_four. reflexivity.
Qed.

(** When the project names and the namespace have no colon, the mutex keys
    keep kinds and projects apart, whatever the digests, tags and suffixes:
    the key of a blob, of a manifest and of a chart version are never the
    same string, and two blobs, or two manifests, with the same key are of
    the same project. *)
Theorem mutex_keys_separate_kinds_and_projects
    (blobInfo blobInfo' : BlobInfo.t) (info info' : ManifestInfo.t)
    (blob : Blob.t) (chart : ChartVersionInfo.t)
    (s1 s2 : list string) :
  no_colon (blob_project blobInfo) = true ->
  no_colon (blob_project blobInfo') = true ->
  no_colon (manifest_project info) = true ->
  no_colon (manifest_project info') = true ->
  no_colon (ChartVersionInfo.Namespace chart) = true ->
  BlobInfo.MutexKey blobInfo s1 <> ManifestInfo.MutexKey info s2
  /\ ManifestInfo.BlobMutexKey info' blob s1 <> ManifestInfo.MutexKey info s2
  /\ ChartVersionInfo.MutexKey chart s1 <> BlobInfo.MutexKey blobInfo s2
  /\ ChartVersionInfo.MutexKey chart s1 <> ManifestInfo.MutexKey info s2
  /\ (BlobInfo.MutexKey blobInfo s1 = BlobInfo.MutexKey blobInfo' s2 ->
      blob_project blobInfo = blob_project blobInfo')
  /\ (ManifestInfo.MutexKey info s1 = ManifestInfo.MutexKey info' s2 ->
      manifest_project info = manifest_project info')
  /\ (BlobInfo.MutexKey blobInfo s1 = ManifestInfo.BlobMutexKey info blob s2 ->
      blob_project blobInfo = manifest_project info).
Proof.
  intros Hb Hb' Hm Hm' Hc.
  destruct (ManifestInfo_key info s1) as [id1 Em1].
  destruct (ManifestInfo_key info s2) as [id2 Em2].
  destruct (ManifestInfo_key info' s2) as [id2' Em2'].
  rewrite !BlobInfo_key, !BlobMutexKey_key, !ChartVersionInfo_key,
    Em1, Em2, Em2'.
  repeat split; intros E; apply keys_agree in E as [Ep Ex];
    try assumption; try discriminate Ex.
Qed.

End Keys.

Import Sample.

Lemma mutex_keys_separate_kinds_and_projects_witness :
  BlobInfo.MutexKey (BlobInfo.new 1 "" 10 "p/r" "sha256:aa") []
  <> ManifestInfo.MutexKey
       (ManifestInfo.new 1 "p/r" "" "sha256:aa" [] Descriptor.zero) [].
Proof.
  apply (mutex_keys_separate_kinds_and_projects
           (BlobInfo.new 1 "" 10 "p/r" "sha256:aa")
           (BlobInfo.new 1 "" 10 "p/r" "sha256:aa")
           (ManifestInfo.new 1 "p/r" "" "sha256:aa" [] Descriptor.zero)
           (ManifestInfo.new 1 "p/r" "" "sha256:aa" [] Descriptor.zero)
           (Blob.mk 3 "sha256:cc" "" 10 0)
           (ChartVersionInfo.mk 1 "ns" "redis" "1.0") [] []);
    reflexivity.
Defined.

End KeySeparation.

(** ** The policy of a project that is found *)
Module PolicyFacts.
Import Outcomes.

Section WithManagers.
Context `{ProjectManager} `{!WhitelistManager}.

(** For a project the manager finds, the checker answers with the settings
    of the project: its content trust flag, and its vulnerability flag and
    severity with the whitelist the project uses.  Unlike a failed project
    lookup, a failed whitelist lookup does not tighten the policy: the
    settings of the project are returned with the empty whitelist. *)
Theorem policy_of_found_project
    (name : string) (project : Project) :
  pm_Get name = (Some project, None) ->
  Util.ContentTrustEnabled name = Return (Project_ContentTrustEnabled project)
  /\ (forall w e,
         whitelist_of project = (w, Some e) ->
         Util.VulnerablePolicy name
         = Return (Project_VulPrevented project,
                   clair_ParseClairSev (Project_Severity project),
                   CVEWhitelist_zero))
  /\ (forall wl,
         whitelist_of project = (Some wl, None) ->
         Util.VulnerablePolicy name
         = Return (Project_VulPrevented project,
                   clair_ParseClairSev (Project_Severity project), wl)).
Proof.
  intros Hget. unfold Util.ContentTrustEnabled, Util.VulnerablePolicy,
    whitelist_of. rewrite Hget.
  split; [reflexivity|]. split.
  - intros w e ->. now destruct w.
  - intros wl ->. reflexivity.
Qed.

End WithManagers.
End PolicyFacts.

(** ** The properties on the small worlds *)
Module Examples.
Import KeyShape Outcomes Stages Mixed.

Module OnCountingStore.
Import Sample.

Lemma ParseManifestInfoFromReq_turns_away_untouched_witness :
  Util.ParseManifestInfoFromReq (request "PUT" "/v2/") world0
  = ((Err (Errorf "not match url /v2/ for manifest"), request "PUT" "/v2/"),
     world0)
  /\ Util.ParseManifestInfoFromReq (request "PUT" "/v2/a/b/manifests/latest")
                                   world0
     = ((Err (Errorf "unsupported content type for manifest: "),
         request "PUT" "/v2/a/b/manifests/latest"), world0).
Proof.
  split.
  - apply (proj1 (ParserOutcomes.ParseManifestInfoFromReq_turns_away_untouched
                    (request "PUT" "/v2/") world0)).
    vm_compute. reflexivity.
  - apply (proj1 (proj2
             (ParserOutcomes.ParseManifestInfoFromReq_turns_away_untouched
                (request "PUT" "/v2/a/b/manifests/latest") world0))).
    + vm_compute. reflexivity.
    + intros [E | [E | [E | [E | []]]]]; discriminate E.
Defined.

Lemma ParseManifestInfoFromReq_read_failure_witness :
  let broken :=
    {| ioutil.pending := [Byte.x7b];
       ioutil.failure := Some (Foreign 5 "unexpected EOF");
       ioutil.next := None |} in
  Util.ParseManifestInfoFromReq (Outage.push broken) world0
  = ((Err (Foreign 5 "unexpected EOF"),
      http.set_Body (Outage.push broken) (Some (snd (ioutil.ReadAll broken)))),
     world0).
Proof.
  intros broken.
  apply (ParserOutcomes.ParseManifestInfoFromReq_read_failure
           (Outage.push broken) world0 broken (Foreign 5 "unexpected EOF")).
  - vm_compute. reflexivity.
  - right. right. left. reflexivity.
  - reflexivity.
  - reflexivity.
Defined.

Lemma ParseManifestInfoFromReq_decode_failure_witness :
  Util.ParseManifestInfoFromReq (Outage.push (ioutil.NopCloser_NewBuffer [])) world0
  = ((Err (Foreign 2 "unexpected end of JSON input"),
      http.set_Body (Outage.push (ioutil.NopCloser_NewBuffer []))
                    (Some (ioutil.NopCloser_NewBuffer []))),
     world0).
Proof.
  apply (ParserOutcomes.ParseManifestInfoFromReq_decode_failure
           (Outage.push (ioutil.NopCloser_NewBuffer [])) world0
           (ioutil.NopCloser_NewBuffer []) []
           (Foreign 2 "unexpected end of JSON input")).
  - vm_compute. reflexivity.
  - right. right. left. reflexivity.
  - reflexivity.
  - reflexivity.
  - left. reflexivity.
Defined.

Lemma ParseManifestInfoFromReq_decoded_witness :
  journal (snd (Util.ParseManifestInfoFromReq
                  (Outage.push (ioutil.NopCloser_NewBuffer [Byte.x7b])) world0))
  = [Q_GetProjectByName "a"].
Proof.
  rewrite (ParserOutcomes.ParseManifestInfoFromReq_decoded
             (Outage.push (ioutil.NopCloser_NewBuffer [Byte.x7b])) world0
             "a/b" "latest" (ioutil.NopCloser_NewBuffer [Byte.x7b]) [Byte.x7b]
             [] (Descriptor.mk "" 1 "" [] [] None)).
  - reflexivity.
  - vm_compute. reflexivity.
  - right. right. left. reflexivity.
  - reflexivity.
  - reflexivity.
  - reflexivity.
  - reflexivity.
Defined.

Lemma ParseManifestInfoFromPath_outcomes_witness :
  Util.ParseManifestInfoFromPath (request "DELETE" "/v2/") world0
  = ((Err (Errorf "not match url /v2/ for manifest"),
      request "DELETE" "/v2/"), world0)
  /\ journal (snd (Util.ParseManifestInfoFromPath
                     (request "DELETE" "/v2/x/y/manifests/latest") world0))
     = [Q_GetProjectByName "x"].
Proof.
  split.
  - apply (proj1 (ParserOutcomes.ParseManifestInfoFromPath_outcomes
                    (request "DELETE" "/v2/") world0)).
    vm_compute. reflexivity.
  - rewrite (proj2 (ParserOutcomes.ParseManifestInfoFromPath_outcomes
                      (request "DELETE" "/v2/x/y/manifests/latest") world0)
               "x/y" "latest").
    + reflexivity.
    + vm_compute. reflexivity.
Defined.

Lemma ParseManifestInfoFromPath_then_ManifestExists_witness :
  journal
    (snd (run (fun _ => ManifestInfo.ManifestExists)
              [(quiet, tt); (busy, tt)]
              (ManifestInfo.new 1 "a/b" "latest" "" [] Descriptor.zero)
              (snd (Util.ParseManifestInfoFromPath
                      (request "GET" "/v2/a/b/manifests/latest") world0))))
  = [Q_GetProjectByName "a"; Q_GetTotalOfArtifacts (ArtifactQuery.mk 1 "")].
Proof.
  assert (Hurl : Util.MatchManifestURL (request "GET" "/v2/a/b/manifests/latest")
                 = (true, "a/b", "latest")) by (vm_compute; reflexivity).
  assert (Hinfo : fst (fst (Util.ParseManifestInfoFromPath
                              (request "GET" "/v2/a/b/manifests/latest") world0))
                  = Ok (ManifestInfo.new 1 "a/b" "latest" "" [] Descriptor.zero))
    by (vm_compute; reflexivity).
  exact (ParserOutcomes.ParseManifestInfoFromPath_then_ManifestExists
           (request "GET" "/v2/a/b/manifests/latest") world0 "a/b" "latest"
           1%Z (ManifestInfo.new 1 "a/b" "latest" "" [] Descriptor.zero)
           quiet [(busy, tt)] Hurl eq_refl Hinfo).
Defined.

Lemma manifest_lookups_in_any_order_witness :
  exists qs rE rA,
    journal (snd (run call_manifest
                      [(quiet, Call_artifact Call_IsNewTag);
                       (busy, Call_ManifestExists);
                       (busy, Call_artifact Call_Artifact);
                       (quiet, Call_ManifestExists)]
                      (ManifestInfo.new 1 "a/b" "v1" "sha256:bb" []
                                        Descriptor.zero)
                      world0))
    = (journal world0 ++ qs)%list
    /\ List.length (filter is_GetTotalOfArtifacts qs) = 1
    /\ List.length (filter is_GetArtifact qs) = 1
    /\ List.length qs = 2
    /\ Forall2 (answered (ManifestInfo.new 1 "a/b" "v1" "sha256:bb" []
                                           Descriptor.zero) rE rA)
               [(quiet, Call_artifact Call_IsNewTag);
                (busy, Call_ManifestExists);
                (busy, Call_artifact Call_Artifact);
                (quiet, Call_ManifestExists)]
               (fst (fst (run call_manifest
                              [(quiet, Call_artifact Call_IsNewTag);
                               (busy, Call_ManifestExists);
                               (busy, Call_artifact Call_Artifact);
                               (quiet, Call_ManifestExists)]
                              (ManifestInfo.new 1 "a/b" "v1" "sha256:bb" []
                                                Descriptor.zero)
                              world0))).
Proof.
  apply (MixedFacts.manifest_lookups_in_any_order
           (ManifestInfo.new 1 "a/b" "v1" "sha256:bb" [] Descriptor.zero)
           world0
           [(quiet, Call_artifact Call_IsNewTag);
            (busy, Call_ManifestExists);
            (busy, Call_artifact Call_Artifact);
            (quiet, Call_ManifestExists)]);
    reflexivity.
Defined.

End OnCountingStore.

Module DuringOutage.
Import Sample Outage.

Lemma failed_artifact_lookup_is_a_new_tag_witness :
  fst (fst (run call_artifact
                [(later, Call_IsNewTag); (later, Call_Artifact)]
                (ManifestInfo.new 1 "a/b" "v1" "sha256:bb" [] Descriptor.zero)
                world_down))
  = [Answer_IsNewTag true;
     Answer_Artifact (Artifact.mk 0 1 "a/b" "v1" "sha256:bb" "Docker-Image"
                                  0 0 0)]
  /\ journal (snd (run call_artifact
                       [(later, Call_IsNewTag); (later, Call_Artifact)]
                       (ManifestInfo.new 1 "a/b" "v1" "sha256:bb" []
                                         Descriptor.zero)
                       world_down))
     = [Q_GetArtifact "a/b" "v1"].
Proof.
  apply (MixedFacts.failed_artifact_lookup_is_a_new_tag
           later Call_IsNewTag [(later, Call_Artifact)]
           (ManifestInfo.new 1 "a/b" "v1" "sha256:bb" [] Descriptor.zero)
           world_down (Foreign 4 "connection refused"));
    reflexivity.
Defined.

Lemma policy_of_found_project_witness :
  Util.ContentTrustEnabled (H0 := pm_finding) "library" = Return false
  /\ Util.VulnerablePolicy (H0 := pm_finding) "library"
     = Return (false, 1, []).
Proof.
  destruct (PolicyFacts.policy_of_found_project (H0 := pm_finding)
              "library" 1%Z eq_refl) as (Htrust & _ & Hpolicy).
  split; [exact Htrust | exact (Hpolicy [] eq_refl)].
Defined.

End DuringOutage.

End Examples.

(** ** What a matched repository and reference look like *)
Module MatchedShape.
Import StringFacts Shape KeyShape Matchers Preferred Endpoint.

Lemma all_chars_weaken (p q : ascii -> bool) (s : string) :
  (forall a, p a = true -> q a = true) ->
  all_chars p s = true -> all_chars q s = true.
Proof.
  intros Hpq. induction s as [|a s IH]; simpl; [reflexivity|].
  intros Hs. apply andb_true_iff in Hs as [Ha Hs].
  now rewrite (Hpq a Ha), (IH Hs).
Qed.

Lemma all_chars_no_colon (p : ascii -> bool) (s : string) :
  p ":"%char = false -> all_chars p s = true -> no_colon s = true.
Proof.
  intros Hp. induction s as [|a s IH]; simpl; [reflexivity|].
  intros Hs. apply andb_true_iff in Hs as [Ha Hs].
  rewrite (IH Hs), andb_true_r. apply negb_true_iff.
  destruct (Ascii.eqb_spec a ":") as [->|_]; [congruence | reflexivity].
Qed.

Lemma no_colon_app (s1 s2 : string) :
  no_colon (s1 ++ s2) = no_colon s1 && no_colon s2.
Proof.
  induction s1 as [|a s1 IH]; simpl; [reflexivity|].
  now rewrite IH, andb_assoc.
Qed.

Lemma first_char_app (s t : string) :
  s <> "" -> first_char (s ++ t) = first_char s.
Proof. destruct s; [congruence | reflexivity]. Qed.

Lemma alnum_ends_not_empty (s : string) : alnum_ends s -> s <> "".
Proof. intros [(a & Ha & _) _] ->. discriminate Ha. Qed.

Lemma alnum_ends_app (s mid t : string) :
  alnum_ends s -> alnum_ends t -> alnum_ends (s ++ mid ++ t).
Proof.
  intros Hs Ht.
  pose proof (alnum_ends_not_empty s Hs) as Hsne.
  pose proof (alnum_ends_not_empty t Ht) as Htne.
  destruct Hs as [Hfirst _], Ht as [_ Hlast]. split.
  - now rewrite first_char_app.
  - rewrite <- append_assoc. now rewrite last_char_app.
Qed.

Lemma last_char_none (s : string) : last_char s = None -> s = "".
Proof.
  induction s as [|a s IH]; [reflexivity|]. simpl.
  destruct s; [discriminate|]. intros E. apply IH in E. discriminate E.
Qed.

Lemma AlnumRun_ends (run : string) : AlnumRun run -> alnum_ends run.
Proof.
  intros [Hne Hall]. split.
  - destruct run as [|a run]; [congruence|]. exists a. simpl in *.
    apply andb_true_iff in Hall as [Ha _]. auto.
  - destruct (last_char run) as [a|] eqn:E.
    + exists a. split; [reflexivity|].
      now apply (last_char_in_class lower_alnum run a).
    + now apply last_char_none in E.
Qed.

Lemma Segment_ends (seg : string) : Segment seg -> alnum_ends seg.
Proof.
  induction 1 as [run Hrun | run sep seg Hrun Hsep _ IH].
  - now apply AlnumRun_ends.
  - apply (alnum_ends_app run (String sep "") seg);
      [now apply AlnumRun_ends | assumption].
Qed.

Lemma Segment_no_colon (seg : string) : Segment seg -> no_colon seg = true.
Proof.
  induction 1 as [run [_ Hrun] | run sep seg [_ Hrun] Hsep _ IH].
  - now apply (all_chars_no_colon lower_alnum).
  - rewrite no_colon_app. simpl.
    rewrite (all_chars_no_colon lower_alnum run eq_refl Hrun), IH.
    destruct (Ascii.eqb_spec sep ":") as [->|_]; [discriminate Hsep | reflexivity].
Qed.

Lemma RepoPath_ends (repo : string) : RepoPath repo -> alnum_ends repo.
Proof.
  induction 1 as [seg Hseg | seg path Hseg _ IH].
  - now apply Segment_ends.
  - apply (alnum_ends_app seg "/" path); [now apply Segment_ends | exact IH].
Qed.

Lemma RepoPath_no_colon (repo : string) : RepoPath repo -> no_colon repo = true.
Proof.
  induction 1 as [seg Hseg | seg path Hseg _ IH].
  - now apply Segment_no_colon.
  - rewrite !no_colon_app, (Segment_no_colon seg Hseg), IH. reflexivity.
Qed.

(** The repository [MatchManifestURL] returns is not empty, begins and ends
    with a lowercase alphanumeric (so with no slash and no separator) and
    has no colon; the reference it returns has 1 to 128 characters and no
    slash. *)
Theorem matched_repository_and_reference
    (req : http.Request) (repo ref : string) :
  Util.MatchManifestURL req = (true, repo, ref) ->
  repo <> "" /\ alnum_ends repo /\ no_colon repo = true
  /\ 1 <= String.length ref <= 128 /\ no_slash ref = true.
Proof.
  intros Hm. apply MatchManifestURL_matched in Hm as (Hrepo & Href & _ & _).
  pose proof (RepoPath_ends repo Hrepo) as Hends.
  pose proof (RepoPath_no_colon repo Hrepo) as Hcolon.
  split; [now apply alnum_ends_not_empty|].
  split; [exact Hends|]. split; [exact Hcolon|].
  split; [apply Href | now apply Reference_no_slash].
Qed.

Lemma matched_repository_and_reference_witness :
  "a/b" <> "" /\ alnum_ends "a/b" /\ no_colon "a/b" = true
  /\ 1 <= String.length "latest" <= 128 /\ no_slash "latest" = true.
Proof.
  apply (matched_repository_and_reference
           (Sample.request "GET" "/v2/a/b/manifests/latest")).
  vm_compute. reflexivity.
Defined.

Import Sample.

Lemma ParseManifestInfoFromReq_twice_witness :
  snd (fst (Util.ParseManifestInfoFromReq
              (snd (fst (Util.ParseManifestInfoFromReq
                           (Outage.push (ioutil.NopCloser_NewBuffer [Byte.x7b]))
                           world0))) world0))
  = snd (fst (Util.ParseManifestInfoFromReq
                (Outage.push (ioutil.NopCloser_NewBuffer [Byte.x7b])) world0)).
Proof.
  apply (ParserOutcomes.ParseManifestInfoFromReq_twice
           (Outage.push (ioutil.NopCloser_NewBuffer [Byte.x7b])) world0 world0
           "a/b" "latest" (ioutil.NopCloser_NewBuffer [Byte.x7b]) [Byte.x7b]).
  - vm_compute. reflexivity.
  - right. right. left. reflexivity.
  - reflexivity.
  - reflexivity.
Defined.

End MatchedShape.
